(** * chromy: the profile / extension / bookmark engine of [chromi.py]

    A shallow embedding of [ChromInstance] (src/chromy/chromi.py) and the
    properties of its discovery, deletion and search operations.

    Modelling conventions.
    - Parsed JSON documents are values of [json]; a JSON object is an
      insertion-ordered association list, as a Python [dict] is. A document
      read from a file has no repeated key in any object. A number is held
      by the literal that [json.dumps] prints for it, so that a document
      written back reads as the document that was written.
    - A Python [str] is the string of the bytes of its UTF-8 encoding; a
      lone surrogate, which [json.loads] lets into a [str] and which UTF-8
      cannot encode, is the three bytes of its generalised encoding.
    - The file system is a finite set of directories and a finite map from
      path strings to file contents, both keyed by the strings that
      [pathlib] prints for a path: [py_path] is [str(Path(s))], which drops
      empty and [.] segments and a trailing slash, and [a // b] is
      [str(Path(a) / b)], for POSIX paths. Names are not resolved
      further: there are no symbolic links, and [..] is a part like any
      other. A file holds bytes that are not UTF-8, text that is not JSON,
      or a JSON document.
    - The engine's indices [extensions] and [bookmarks], and the per-profile
      and per-bookmark mappings, are finite maps ([gmap]) and finite sets
      ([gset]): the code never observes their order. [profiles], whose
      iteration order the code observes, is an association list.
    - A Python exception is the outcome [Raise e s], which keeps the state
      [s] reached when it was raised: mutations made before a fault persist.
    - [print] calls are not modelled.
    - Where the code applies an operation to a JSON value of another type than
      the one the operation needs (subscripting a number, iterating [null],
      [.get] on a list, ...) the model raises [TypeError] at that point, which
      stands for Python's TypeError and AttributeError. The places where
      Python would, by coincidence of types, go on with such a value (a list
      indexed by one of its own integer elements, a number used as a
      dictionary key) are not followed: the model raises there too.
    - The two recursive walks take the depth of the document as fuel;
      [RecursionError] is the outcome of running out of it, which the entry
      points never do ([fetch_bookmarks_rec_raise],
      [delete_bookmarks_rec_raise]). Python's own recursion limit is not
      modelled. *)

From stdpp Require Import base option list strings gmap pretty.
From Stdlib Require Import ZArith Ascii.

Open Scope string_scope.
Open Scope list_scope.

Set Warnings "-clear-no-such-hyp".

(** ** Exceptions and outcomes *)

Inductive exn : Type :=
  | KeyError
  | TypeError
  | ValueError
  | JSONDecodeError
  | FileNotFoundError
  | IsADirectoryError
  | UnicodeDecodeError
  | UnicodeEncodeError
  | IndexError
  | RecursionError.

Global Instance exn_eq_dec : EqDecision exn.
Proof. solve_decision. Defined.

(** The outcome of a statement run from some state: it completes in state
    [s], or raises [e] having reached state [s]. *)
Inductive result (S : Type) : Type :=
  | Ok (s : S)
  | Raise (e : exn) (s : S).
Arguments Ok {S} s.
Arguments Raise {S} e s.

Definition state_of {S} (r : result S) : S :=
  match r with Ok s => s | Raise _ s => s end.

Definition returns {S} (r : result S) : bool :=
  match r with Ok _ => true | Raise _ _ => false end.

(** [r >>= k]: run [k] after [r] unless [r] raised. *)
Definition and_then {S} (r : result S) (k : S → result S) : result S :=
  match r with Ok s => k s | Raise e s => Raise e s end.

(** Map the state carried by an outcome. *)
Definition on_state {S T} (f : S → T) (r : result S) : result T :=
  match r with Ok s => Ok (f s) | Raise e s => Raise e (f s) end.

(** [for x in l: body(x)], stopping at the first exception. *)
Fixpoint for_each {A S} (body : A → S → result S) (l : list A) (s : S)
  : result S :=
  match l with
  | [] => Ok s
  | x :: l' => and_then (body x s) (for_each body l')
  end.

(** ** JSON values *)

#[local] Unset Elimination Schemes.
Inductive json : Type :=
  | JNull
  | JBool (b : bool)
  | JNum (lit : string)   (* a number, by the literal [json.dumps] prints *)
  | JStr (s : string)
  | JArr (l : list json)
  | JObj (d : list (string * json)).
#[local] Set Elimination Schemes.

(** ** Python dictionaries as insertion-ordered association lists *)

Section Dict.
Context {V : Type}.

(** [d[k]], [d.get(k)], [k in d] *)
Fixpoint dget (k : string) (d : list (string * V)) : option V :=
  match d with
  | [] => None
  | (k', v) :: d' => if decide (k = k') then Some v else dget k d'
  end.

(** [d[k] = v]: overwrite in place, or append a new entry. *)
Fixpoint dset (k : string) (v : V) (d : list (string * V))
  : list (string * V) :=
  match d with
  | [] => [(k, v)]
  | (k', v') :: d' =>
      if decide (k = k') then (k', v) :: d' else (k', v') :: dset k v d'
  end.

(** [d.pop(k)] *)
Fixpoint dpop (k : string) (d : list (string * V)) : list (string * V) :=
  match d with
  | [] => []
  | (k', v') :: d' =>
      if decide (k = k') then d' else (k', v') :: dpop k d'
  end.

Definition dkeys (d : list (string * V)) : list string := d.*1.

End Dict.

(** Sequencing of computations that produce a value or raise. *)
Definition try_bind {A B} (x : exn + A) (k : A → exn + B) : exn + B :=
  match x with inl e => inl e | inr a => k a end.

Notation "'let?' x := e 'in' k" := (try_bind e (λ x, k))
  (at level 10, x pattern, e at level 100, k at level 200,
   format "'[v' 'let?'  x  :=  e  'in' '/' k ']'").

(** Use a computed value in a statement: a fault leaves the state as it is. *)
Definition attempt {A S} (x : exn + A) (s : S) (k : A → result S) : result S :=
  match x with inl e => Raise e s | inr a => k a end.

(** [x == s] for a JSON value [x] and a string literal [s]. *)
Definition is_str (x : json) (s : string) : bool :=
  match x with JStr t => bool_decide (t = s) | _ => false end.

(** [j.get(k, default)]; a receiver that is not a dict has no [get]. *)
Definition dict_get (j : json) (k : string) (default : json) : exn + json :=
  match j with
  | JObj d => inr (from_option id default (dget k d))
  | _ => inl TypeError
  end.

(** Modelled from the spec: [jnp3.dict.get_with_chained_keys] is an external
    helper; [get_with_chained_keys d [k1; ..; kn]] is [d[k1]..[kn]], or
    [None] (JSON [null]) as soon as a key is absent. *)
Fixpoint get_with_chained_keys (dic : json) (keys : list string) : json :=
  match keys with
  | [] => dic
  | k :: keys' =>
      match dic with
      | JObj d =>
          match dget k d with
          | Some v => get_with_chained_keys v keys'
          | None => JNull
          end
      | _ => JNull
      end
  end.

(** [for k in j: v = j[k]]: the entries of a dict in insertion order.
    Iterating an empty list or string runs no iteration; any other value
    faults, at the [for] or at the first subscript. *)
Definition items (j : json) : exn + list (string * json) :=
  match j with
  | JObj d => inr d
  | JArr [] => inr []
  | JStr "" => inr []
  | _ => inl TypeError
  end.

(** ** Paths and the file system *)

Definition is_slash (c : ascii) : bool := Ascii.eqb c "/"%char.

Definition is_absolute (p : string) : bool :=
  match p with
  | String c _ => is_slash c
  | EmptyString => false
  end.

(** [s.split('/')] *)
Fixpoint split_slash (s : string) : list string :=
  match s with
  | EmptyString => [""]
  | String c s' =>
      if is_slash c then "" :: split_slash s'
      else match split_slash s' with
           | x :: l => String c x :: l
           | [] => [String c ""]
           end
  end.

(** ['/'.join(parts)] *)
Fixpoint join_slash (parts : list string) : string :=
  match parts with
  | [] => ""
  | [x] => x
  | x :: rest => x +:+ "/" +:+ join_slash rest
  end.

(** How [pathlib] reads a POSIX path string: the root is [/], or [//] when
    the string starts with exactly two slashes; the parts are the segments
    between slashes that are neither empty nor [.]. *)
Definition posix_root (s : string) : string :=
  if negb (is_absolute s) then ""
  else if String.prefix "//" s && negb (String.prefix "///" s) then "//"
  else "/".

Definition path_parts (s : string) : list string :=
  filter (λ x, x ≠ "" ∧ x ≠ ".") (split_slash s).

(** [str] of the path with the given root and parts. *)
Definition render (root : string) (parts : list string) : string :=
  if decide (root = "" ∧ parts = []) then "." else root +:+ join_slash parts.

(** [str(Path(s))] *)
Definition py_path (s : string) : string :=
  render (posix_root s) (path_parts s).

(** [str(Path(a) / b)] and [str(Path(a, b))]: an absolute [b] replaces
    [a]; otherwise the parts of [b] follow those of [a]. *)
Definition path_join (a b : string) : string :=
  if is_absolute b then py_path b
  else render (posix_root a) (path_parts a ++ path_parts b).

Infix "//" := path_join (at level 40, left associativity).

Arguments py_path : simpl never.
Arguments path_join : simpl never.

Inductive file_content : Type :=
  | NotUtf8            (* bytes that [read_text(encoding="utf-8")] rejects *)
  | NotJson            (* text that [json.loads] rejects *)
  | Json (j : json).   (* text that [json.loads] parses to [j] *)

Record filesystem : Type := {
  fs_dirs : gset string;
  fs_files : gmap string file_content;
}.

Definition is_dir (fs : filesystem) (p : string) : bool :=
  bool_decide (p ∈ fs_dirs fs).

Definition is_file (fs : filesystem) (p : string) : bool :=
  bool_decide (is_Some (fs_files fs !! p)).

(** Modelled from the spec: [jnp3.path.path_exists] is an external helper;
    it tells whether the path names an existing file-system entry. *)
Definition path_exists (fs : filesystem) (p : string) : bool :=
  is_file fs (py_path p) || is_dir fs (py_path p).

(** [json.loads(p.read_text(encoding="utf-8"))] for the path printed [p] *)
Definition read_json (fs : filesystem) (p : string) : exn + json :=
  match fs_files fs !! p with
  | Some (Json j) => inr j
  | Some NotJson => inl JSONDecodeError
  | Some NotUtf8 => inl UnicodeDecodeError
  | None => inl (if is_dir fs p then IsADirectoryError else FileNotFoundError)
  end.

(** ** The data model *)

(** Modelled from the spec: the dataclasses of [structs.py] (§3 DATA MODEL).
    Fields copied from a JSON document hold the value as it was read. *)
Module Profile.
Record t : Type := mk {
  id : string;
  name : json;
  user_name : json;
  gaia_name : json;
  gaia_given_name : json;
  userdata_dir : string;
  profile_dir : string;
  bookmark_file : string;
  extensions : gset string;
  bookmarks : gmap string string;
}.

Definition set_bookmark_file (f : string) (p : t) : t :=
  mk (id p) (name p) (user_name p) (gaia_name p) (gaia_given_name p)
     (userdata_dir p) (profile_dir p) f (extensions p) (bookmarks p).

Definition set_extensions (x : gset string) (p : t) : t :=
  mk (id p) (name p) (user_name p) (gaia_name p) (gaia_given_name p)
     (userdata_dir p) (profile_dir p) (bookmark_file p) x (bookmarks p).
Definition set_bookmarks (b : gmap string string) (p : t) : t :=
  mk (id p) (name p) (user_name p) (gaia_name p) (gaia_given_name p)
     (userdata_dir p) (profile_dir p) (bookmark_file p) (extensions p) b.
End Profile.

Module Extension.
Record t : Type := mk {
  id : string;
  name : json;
  description : json;
  icon : string;
  profiles : gset string;
}.

Definition set_profiles (ps : gset string) (e : t) : t :=
  mk (id e) (name e) (description e) (icon e) ps.
End Extension.

Module Bookmark.
Record t : Type := mk {
  name : json;
  url : string;
  profiles : gmap string string;
}.

Definition set_profiles (ps : gmap string string) (b : t) : t :=
  mk (name b) (url b) ps.
End Bookmark.

(** The engine: [ChromInstance.__init__]. *)
Record ChromInstance : Type := {
  userdata_dir : string;
  profiles : list (string * Profile.t);
  extensions : gmap string Extension.t;
  bookmarks : gmap string Bookmark.t;
}.

Definition ChromInstance_init (userdata_dir : string) : ChromInstance :=
  {| userdata_dir := userdata_dir; profiles := [];
     extensions := ∅; bookmarks := ∅ |}.

Definition set_profiles (ps : list (string * Profile.t)) (self : ChromInstance)
  : ChromInstance :=
  {| userdata_dir := userdata_dir self; profiles := ps;
     extensions := extensions self; bookmarks := bookmarks self |}.
Definition set_extensions (x : gmap string Extension.t) (self : ChromInstance)
  : ChromInstance :=
  {| userdata_dir := userdata_dir self; profiles := profiles self;
     extensions := x; bookmarks := bookmarks self |}.
Definition set_bookmarks (b : gmap string Bookmark.t) (self : ChromInstance)
  : ChromInstance :=
  {| userdata_dir := userdata_dir self; profiles := profiles self;
     extensions := extensions self; bookmarks := b |}.

(** ** Profile discovery: [fetch_all_profiles] *)

(** The [Profile(...)] constructor call of the loop body. *)
Definition make_profile (userdata_dir profile_id : string) (profile_info : json)
  : exn + Profile.t :=
  match dict_get profile_info "name" (JStr ""),
        dict_get profile_info "user_name" (JStr ""),
        dict_get profile_info "gaia_name" (JStr ""),
        dict_get profile_info "gaia_given_name" (JStr "") with
  | inr name, inr user_name, inr gaia_name, inr gaia_given_name =>
      inr (Profile.mk profile_id name user_name gaia_name gaia_given_name
             userdata_dir (userdata_dir // profile_id) "" ∅ ∅)
  | _, _, _, _ => inl TypeError
  end.

Definition fetch_all_profiles (fs : filesystem) (self : ChromInstance)
  : result ChromInstance :=
  let userdata_dir := py_path (userdata_dir self) in
  if negb (is_dir fs userdata_dir) then Ok self else
  let local_state_file := userdata_dir // "Local State" in
  if negb (is_file fs local_state_file) then Ok self else
  match read_json fs local_state_file with
  | inl JSONDecodeError => Ok self
  | inl e => Raise e self
  | inr local_state_data =>
      match get_with_chained_keys local_state_data ["profile"; "info_cache"] with
      | JNull => Ok self
      | profiles_info =>
          let self := set_profiles [] self in
          match items profiles_info with
          | inl e => Raise e self
          | inr entries =>
              for_each
                (λ '(profile_id, profile_info) self,
                   match make_profile userdata_dir profile_id profile_info with
                   | inl e => Raise e self
                   | inr profile =>
                       Ok (set_profiles
                             (dset profile_id profile (profiles self)) self)
                   end)
                entries self
          end
      end
  end.

(** ** Extension discovery *)

(** *** [int(s)] and [str(n)] on size labels *)

(** The white space that [int] skips at both ends of an ASCII string. *)
Definition is_space (c : ascii) : bool :=
  let n := nat_of_ascii c in
  ((9 <=? n) && (n <=? 13) || (n =? 32))%nat.

Definition digit_of (c : ascii) : option Z :=
  let n := nat_of_ascii c in
  if ((48 <=? n) && (n <=? 57))%nat then Some (Z.of_nat n - 48)%Z else None.

(** Digits, with single underscores allowed between two digits. *)
Fixpoint parse_digits (acc : Z) (after_digit : bool) (s : string) : option Z :=
  match s with
  | EmptyString => if after_digit then Some acc else None
  | String c s' =>
      match digit_of c with
      | Some d => parse_digits (10 * acc + d)%Z true s'
      | None =>
          if Ascii.eqb c "_"%char && after_digit
          then parse_digits acc false s'
          else None
      end
  end.

Fixpoint lstrip (s : string) : string :=
  match s with
  | String c s' => if is_space c then lstrip s' else s
  | EmptyString => s
  end.

Definition strip (s : string) : string :=
  String.rev (lstrip (String.rev (lstrip s))).

(** The interpreter's default limit on the digits of a decimal numeral. *)
Definition max_str_digits : Z := 4300.

Definition count_digits (s : string) : nat :=
  length (filter (λ c, is_Some (digit_of c)) (String.list_ascii_of_string s)).

(** A numeral without its sign. *)
Definition parse_numeral (s : string) : option Z :=
  if (max_str_digits <? Z.of_nat (count_digits s))%Z then None
  else parse_digits 0 false s.

(** [int(s)] for a string [s] of ASCII characters: surrounding white space,
    an optional sign, decimal digits, no more of them than the limit.
    [None] is [ValueError]. A string with another character has no value
    here; [int] reads the decimal digits and the white space of other
    scripts too. *)
Definition py_int (s : string) : option Z :=
  match strip s with
  | String c s' =>
      if Ascii.eqb c "-"%char then Z.opp <$> parse_numeral s'
      else if Ascii.eqb c "+"%char then parse_numeral s'
      else parse_numeral (String c s')
  | EmptyString => None
  end.

(** [str(n)] *)
Definition py_str (n : Z) : string := pretty n.

(** [str(max(map(int, keys), default=""))] *)
Definition largest_size_label (keys : list string) : exn + string :=
  match mapM py_int keys with
  | None => inl ValueError
  | Some [] => inr ""
  | Some (n :: ns) => inr (py_str (foldl Z.max n ns))
  end.

(** *** Resolving one extension *)

(** [len(x)] *)
Definition py_len (x : json) : exn + nat :=
  match x with
  | JStr s => inr (String.length s)
  | JArr l => inr (length l)
  | JObj d => inr (length d)
  | _ => inl TypeError
  end.

(** Lines 74-85: where the manifest comes from and where icons are looked
    for; [None] when neither the offline nor the online form applies. *)
Definition locate_manifest (fs : filesystem) (ext_dir : string)
    (ext_set : json) (ext_path : string) : exn + option (json * string) :=
  if path_exists fs ext_path then
    let manifest_file := ext_path // "manifest.json" in
    let? manifest_data := read_json fs manifest_file in
    inr (Some (manifest_data, ext_path))
  else if path_exists fs (ext_dir // ext_path) then
    let? manifest_data := dict_get ext_set "manifest" (JObj []) in
    inr (Some (manifest_data, ext_dir // ext_path))
  else inr None.

(** Lines 87-88: the relative path of the icon with the largest size label. *)
Definition icon_short_path (manifest_data : json) : exn + json :=
  let? icons_info := dict_get manifest_data "icons" (JObj []) in
  match icons_info with
  | JObj icons =>
      let? label := largest_size_label (dkeys icons) in
      inr (from_option id (JStr "") (dget label icons))
  | _ => inl TypeError
  end.

(** Lines 87-95: the [icon] field of the new [Extension]. *)
Definition resolve_icon (fs : filesystem) (manifest_data : json)
    (icon_parent_path : string) : exn + string :=
  let? short := icon_short_path manifest_data in
  match short with
  | JStr icon_short_path =>
      let icon_path := icon_parent_path // icon_short_path in
      inr (if is_file fs icon_path then icon_path else "")
  | _ => inl TypeError
  end.

(** Lines 87-97: the [Extension(...)] built from a located manifest. *)
Definition make_extension (fs : filesystem) (ext_id profile_id : string)
    (manifest_data : json) (icon_parent_path : string) : exn + Extension.t :=
  let? icon := resolve_icon fs manifest_data icon_parent_path in
  let? name := dict_get manifest_data "name" (JStr "") in
  let? description := dict_get manifest_data "description" (JStr "") in
  inr (Extension.mk ext_id name description icon {[profile_id]}).

(** The state the per-profile helpers work on: the engine's index and the
    profile object they were handed. *)
Abbreviation ext_state := (gmap string Extension.t * Profile.t)%type.

(** One iteration of the loop of [_fetch_extensions_from_one_profile]. *)
Definition fetch_one_extension (fs : filesystem)
    (entry : string * json) (st : ext_state) : result ext_state :=
  let '(ext_id, ext_set) := entry in
  let '(self_extensions, profile) := st in
  let add_to_profile :=
    Profile.set_extensions ({[ext_id]} ∪ Profile.extensions profile) profile in
  match self_extensions !! ext_id with
  | Some ext =>
      Ok (<[ext_id := Extension.set_profiles
                        ({[Profile.id profile]} ∪ Extension.profiles ext) ext]>
            self_extensions,
          add_to_profile)
  | None =>
      let ext_dir := Profile.profile_dir profile // "Extensions" in
      if negb (is_dir fs ext_dir) then Ok st else
      attempt (dict_get ext_set "path" (JStr "")) st (λ ext_path,
      attempt (py_len ext_path) st (λ n,
      if decide (n = 0) then Ok st else
      match ext_path with
      | JStr ext_path =>
          attempt (locate_manifest fs ext_dir ext_set ext_path) st (λ found,
          match found with
          | None => Ok st
          | Some (manifest_data, icon_parent_path) =>
              attempt (make_extension fs ext_id (Profile.id profile)
                         manifest_data icon_parent_path) st (λ ext,
              Ok (<[ext_id := ext]> self_extensions, add_to_profile))
          end)
      | _ => Raise TypeError st
      end))
  end.

Definition _fetch_extensions_from_one_profile (fs : filesystem)
    (ext_settings : json) (st : ext_state) : result ext_state :=
  attempt (items ext_settings) st (λ entries,
  for_each (fetch_one_extension fs) entries st).

(** [for k in d: v = d[k]; ..] where the body mutates the object [v] in
    place along with some other state: a dict holds one value per key, so
    the loop visits the entries in insertion order. On a fault the entry
    being visited keeps the mutations made so far. *)
Fixpoint for_each_value {S V} (body : S * V → result (S * V))
    (d : list (string * V)) (s : S) : result (S * list (string * V)) :=
  match d with
  | [] => Ok (s, [])
  | (k, v) :: d' =>
      match body (s, v) with
      | Raise e (s', v') => Raise e (s', (k, v') :: d')
      | Ok (s', v') =>
          on_state (λ '(s'', l), (s'', (k, v') :: l)) (for_each_value body d' s')
      end
  end.

(** The body of the loop of [fetch_extensions_from_all_profiles]. *)
Definition fetch_extensions_of_profile (fs : filesystem) (st : ext_state)
  : result ext_state :=
  let profile_dir := Profile.profile_dir st.2 in
  let secure_pref_file := profile_dir // "Secure Preferences" in
  if negb (is_file fs secure_pref_file) then Ok st else
  match read_json fs secure_pref_file with
  | inl JSONDecodeError => Ok st
  | inl e => Raise e st
  | inr secure_pref_data =>
      match get_with_chained_keys secure_pref_data ["extensions"; "settings"] with
      | JNull => Ok st
      | ext_settings => _fetch_extensions_from_one_profile fs ext_settings st
      end
  end.

Definition fetch_extensions_from_all_profiles (fs : filesystem)
    (self : ChromInstance) : result ChromInstance :=
  let self := set_extensions ∅ self in
  on_state (λ '(exts, ps), set_extensions exts (set_profiles ps self))
    (for_each_value (fetch_extensions_of_profile fs)
       (profiles self) (extensions self)).

(** ** Bookmark discovery *)

(** [for x in j]: the elements of a list, the keys of a dict, the characters
    of a string. *)
Definition py_iter (j : json) : exn + list json :=
  match j with
  | JArr l => inr l
  | JObj d => inr (JStr <$> dkeys d)
  | JStr s => inr ((λ c, JStr (String c EmptyString)) <$> String.list_ascii_of_string s)
  | _ => inl TypeError
  end.

(** ['/'.join(path_ls)]: every item must be a string. *)
Fixpoint join_path (path_ls : list json) : exn + string :=
  match path_ls with
  | [] => inr ""
  | [JStr s] => inr s
  | JStr s :: rest => let? r := join_path rest in inr (s +:+ "/" +:+ r)
  | _ => inl TypeError
  end.

(** Nesting depth of a document; bounds the depth of the recursive walks. *)
Fixpoint json_depth (j : json) : nat :=
  match j with
  | JArr l => S (foldr (λ x n, json_depth x `max` n) 0 l)
  | JObj d => S (foldr (λ '(_, x) n, json_depth x `max` n) 0 d)
  | _ => 0
  end.

Abbreviation bmk_state := (gmap string Bookmark.t * Profile.t)%type.

(** Lines 130-145: recording one url node. A [url] that is a list or a dict
    cannot be a dictionary key; the model takes every non-string [url] as
    such a fault. *)
Definition record_bookmark (d : list (string * json)) (path_ls : list json)
    (st : bmk_state) : result bmk_state :=
  match dget "url" d with
  | None => Raise KeyError st
  | Some url =>
      attempt (join_path path_ls) st (λ bmk_path,
      match url with
      | JStr url =>
          let '(self_bookmarks, profile) := st in
          let profile :=
            Profile.set_bookmarks (<[url := bmk_path]> (Profile.bookmarks profile))
              profile in
          match self_bookmarks !! url with
          | Some b =>
              Ok (<[url := Bookmark.set_profiles
                             (<[Profile.id profile := bmk_path]>
                                (Bookmark.profiles b)) b]> self_bookmarks,
                  profile)
          | None =>
              match dget "name" d with
              | None => Raise KeyError (self_bookmarks, profile)
              | Some name =>
                  Ok (<[url := Bookmark.mk name url
                                 {[Profile.id profile := bmk_path]}]>
                        self_bookmarks,
                      profile)
              end
          end
      | _ => Raise TypeError st
      end)
  end.

(** [_fetch_bookmarks_from_one_type]; [fuel] bounds the depth of the
    recursion. *)
Fixpoint fetch_bookmarks_rec (fuel : nat) (bookmark_info : json)
    (path_ls : list json) (st : bmk_state) : result bmk_state :=
  match fuel with
  | 0 => Raise RecursionError st
  | S fuel =>
      match bookmark_info with
      | JObj d =>
          match dget "type" d with
          | None => Raise KeyError st
          | Some ty =>
              if is_str ty "url" then record_bookmark d path_ls st
              else if is_str ty "folder" then
                match dget "name" d with
                | None => Raise KeyError st
                | Some name =>
                    let new_path_ls := path_ls ++ [name] in
                    match dget "children" d with
                    | None => Raise KeyError st
                    | Some children =>
                        attempt (py_iter children) st (λ children,
                        for_each
                          (λ child, fetch_bookmarks_rec fuel child new_path_ls)
                          children st)
                    end
                end
              else Ok st
          end
      | _ => Raise TypeError st
      end
  end.

(** The walk never goes deeper than the document. *)
Definition _fetch_bookmarks_from_one_type (bookmark_info : json)
    (path_ls : list json) (st : bmk_state) : result bmk_state :=
  fetch_bookmarks_rec (S (json_depth bookmark_info)) bookmark_info path_ls st.

(** Lines 164-177: reading the bookmark file and walking its roots. *)
Definition walk_bookmark_file (fs : filesystem) (bookmark_file : string)
    (st : bmk_state) : result bmk_state :=
  match read_json fs bookmark_file with
  | inl JSONDecodeError => Ok st
  | inl e => Raise e st
  | inr bookmark_data =>
      match get_with_chained_keys bookmark_data ["roots"] with
      | JNull => Ok st
      | bookmarks_info =>
          attempt (items bookmarks_info) st (λ roots,
          for_each
            (λ '(bmk_type, bookmark_info),
               _fetch_bookmarks_from_one_type bookmark_info [JStr ""])
            roots st)
      end
  end.

(** The body of the loop of [fetch_bookmarks_from_all_profiles]. *)
Definition fetch_bookmarks_of_profile (fs : filesystem) (st : bmk_state)
  : result bmk_state :=
  let '(self_bookmarks, profile) := st in
  let profile_dir := Profile.profile_dir profile in
  let bookmark_file := profile_dir // "Bookmarks" in
  if negb (is_file fs bookmark_file) then Ok st else
  let profile := Profile.set_bookmark_file bookmark_file profile in
  walk_bookmark_file fs bookmark_file (self_bookmarks, profile).

Definition fetch_bookmarks_from_all_profiles (fs : filesystem)
    (self : ChromInstance) : result ChromInstance :=
  let self := set_bookmarks ∅ self in
  on_state (λ '(bms, ps), set_bookmarks bms (set_profiles ps self))
    (for_each_value (fetch_bookmarks_of_profile fs)
       (profiles self) (bookmarks self)).

(** ** Bookmark deletion *)

(** Lines 191-199: dropping [url] from the profile's mapping and the
    profile from the bookmark's; a bookmark left without profiles goes. *)
Definition forget_bookmark (url : string) (st : bmk_state) : bmk_state :=
  let '(self_bookmarks, profile) := st in
  let profile' :=
    Profile.set_bookmarks (delete url (Profile.bookmarks profile)) profile in
  match self_bookmarks !! url with
  | Some b =>
      if bool_decide (is_Some (Bookmark.profiles b !! Profile.id profile)) then
        let ps := delete (Profile.id profile) (Bookmark.profiles b) in
        if decide (size ps = 0) then (delete url self_bookmarks, profile')
        else (<[url := Bookmark.set_profiles ps b]> self_bookmarks, profile')
      else (self_bookmarks, profile')
  | None => (self_bookmarks, profile')
  end.

(** Lines 186-203: the body of the loop over the child indices; [walk] is the
    recursive call. *)
Definition delete_step (walk : bmk_state * json → result (bmk_state * json))
    (urls_to_delete : list string) (i : nat) (s : bmk_state * list json)
  : result (bmk_state * list json) :=
  let '(st, children) := s in
  match children !! i with
  | None => Raise IndexError s
  | Some (JObj child) =>
      match dget "type" child with
      | None => Raise KeyError s
      | Some ty =>
          if is_str ty "url" then
            match dget "url" child with
            | None => Raise KeyError s
            | Some (JStr url) =>
                if bool_decide (url ∈ urls_to_delete)
                then Ok (forget_bookmark url st, delete i children)
                else Ok s
            | Some _ => Ok s
            end
          else
            on_state (λ '(st', child'), (st', <[i := child']> children))
                     (walk (st, JObj child))
      end
  | Some _ => Raise TypeError s
  end.

(** [_delete_bookmarks_in_one_folder]; [fuel] bounds the depth of the
    recursion. The node, which the code mutates in place, is part of the
    state. *)
Fixpoint delete_bookmarks_rec (fuel : nat) (urls_to_delete : list string)
    (s : bmk_state * json) : result (bmk_state * json) :=
  match fuel with
  | 0 => Raise RecursionError s
  | S fuel =>
      let '(st, bookmark_info) := s in
      match bookmark_info with
      | JObj d =>
          match dget "type" d with
          | None => Raise KeyError s
          | Some ty =>
              if negb (is_str ty "folder") then Ok s else
              match dget "children" d with
              | None => Raise KeyError s
              | Some (JArr children) =>
                  on_state
                    (λ '(st', children'),
                       (st', JObj (dset "children" (JArr children') d)))
                    (for_each
                       (delete_step (delete_bookmarks_rec fuel urls_to_delete)
                          urls_to_delete)
                       (reverse (seq 0 (length children)))
                       (st, children))
              | Some (JStr "") | Some (JObj []) => Ok s
              | Some (JStr _) => Raise TypeError s
              | Some (JObj _) => Raise KeyError s
              | Some _ => Raise TypeError s
              end
          end
      | _ => Raise TypeError s
      end
  end.

Definition _delete_bookmarks_in_one_folder (urls_to_delete : list string)
    (s : bmk_state * json) : result (bmk_state * json) :=
  delete_bookmarks_rec (S (json_depth s.2)) urls_to_delete s.

(** [Path.unlink(missing_ok=True)] *)
Definition unlink (p : string) (fs : filesystem) : filesystem :=
  {| fs_dirs := fs_dirs fs; fs_files := delete p (fs_files fs) |}.

(** The file system with the file [p] holding [c]. *)
Definition with_file (p : string) (c : file_content) (fs : filesystem)
  : filesystem :=
  {| fs_dirs := fs_dirs fs; fs_files := <[p := c]> (fs_files fs) |}.

(** A [str] with a surrogate: the byte [0xED] followed by one of
    [0xA0..0xBF]. *)
Fixpoint has_surrogate (s : string) : bool :=
  match s with
  | String c s' =>
      match s' with
      | String c' _ =>
          let n := nat_of_ascii c in
          let n' := nat_of_ascii c' in
          ((n =? 237) && (160 <=? n') && (n' <=? 191))%nat || has_surrogate s'
      | EmptyString => false
      end
  | EmptyString => false
  end.

(** A document that UTF-8 can encode: no key and no string of it has a
    surrogate. *)
Fixpoint encodable (j : json) : bool :=
  match j with
  | JStr s => negb (has_surrogate s)
  | JArr l => forallb encodable l
  | JObj d => forallb (λ '(k, v), negb (has_surrogate k) && encodable v) d
  | _ => true
  end.

(** [p.write_text(json.dumps(j, ensure_ascii=False, indent=4),
    encoding="utf-8")]: the file is opened, which empties it, and the text
    is encoded and written, which fails on a surrogate. *)
Definition write_json (p : string) (j : json) (fs : filesystem)
  : result filesystem :=
  if encodable j then Ok (with_file p (Json j) fs)
  else Raise UnicodeEncodeError (with_file p NotJson fs).

(** The profile object [self.profiles[profile_id]] and the index, as left by
    a walk. *)
Definition commit (profile_id : string) (st : bmk_state) (self : ChromInstance)
  : ChromInstance :=
  set_bookmarks st.1 (set_profiles (dset profile_id st.2 (profiles self)) self).

(** Line 237: writing the document back, with the engine as it is by then. *)
Definition write_back (bookmark_file : string) (bookmark_data : json)
    (fs : filesystem) (self : ChromInstance)
  : result (filesystem * ChromInstance) :=
  on_state (λ fs', (fs', self)) (write_json bookmark_file bookmark_data fs).

(** The body of the loop of [delete_bookmarks_from_profiles]. *)
Definition delete_bookmarks_of_profile (urls_to_delete : list string)
    (profile_id : string) (w : filesystem * ChromInstance)
  : result (filesystem * ChromInstance) :=
  let '(fs, self) := w in
  match dget profile_id (profiles self) with
  | None => Raise KeyError w
  | Some profile =>
      let backup := Profile.profile_dir profile // "Bookmarks.bak" in
      if is_dir fs backup then Raise IsADirectoryError w else
      let fs := unlink backup fs in
      if decide (String.length (Profile.bookmark_file profile) = 0)
      then Ok (fs, self) else
      let bookmark_file := py_path (Profile.bookmark_file profile) in
      match read_json fs bookmark_file with
      | inl JSONDecodeError => Ok (fs, self)
      | inl e => Raise e (fs, self)
      | inr (JObj bookmark_data) =>
          let bookmark_data := dpop "checksum" bookmark_data in
          match dget "roots" bookmark_data with
          | None => write_back bookmark_file (JObj bookmark_data) fs self
          | Some (JObj roots) =>
              match for_each_value
                      (_delete_bookmarks_in_one_folder urls_to_delete) roots
                      (bookmarks self, profile) with
              | Raise e (st, _) => Raise e (fs, commit profile_id st self)
              | Ok (st, roots') =>
                  write_back bookmark_file
                    (JObj (dset "roots" (JObj roots') bookmark_data)) fs
                    (commit profile_id st self)
              end
          | Some roots =>
              attempt (items roots) (fs, self) (λ _,
              write_back bookmark_file (JObj bookmark_data) fs self)
          end
      | inr (JArr l) =>
          (* ["checksum" in l], ["roots" in l]: membership in a list *)
          if existsb (λ x, is_str x "checksum" || is_str x "roots") l
          then Raise TypeError (fs, self)
          else write_back bookmark_file (JArr l) fs self
      | inr (JStr t) =>
          (* the same tests on a string look for a substring *)
          if bool_decide (is_Some (String.index 0 "checksum" t))
             || bool_decide (is_Some (String.index 0 "roots" t))
          then Raise TypeError (fs, self)
          else write_back bookmark_file (JStr t) fs self
      | inr _ => Raise TypeError (fs, self)
      end
  end.

(** [profile_ids = None] is the default: every known profile. *)
Definition delete_bookmarks_from_profiles (urls_to_delete : list string)
    (profile_ids : option (list string)) (w : filesystem * ChromInstance)
  : result (filesystem * ChromInstance) :=
  let profile_ids := from_option id (dkeys (profiles w.2)) profile_ids in
  for_each (delete_bookmarks_of_profile urls_to_delete) profile_ids w.

(** ** Bookmark search *)

(** [sub in s] for two strings: [sub] occurs in [s]. *)
Definition py_in_str (sub s : string) : bool :=
  bool_decide (is_Some (String.index 0 sub s)).

(** [search_bookmarks]: the bookmarks of the index whose URL contains
    [url_contains] and whose profile mapping has a key among [profile_ids]
    ([None], the default, is every known profile). The result is a new dict
    holding the [Bookmark] objects of the index. *)
Definition search_bookmarks (url_contains : string)
    (profile_ids : option (list string)) (self : ChromInstance)
  : gmap string Bookmark.t :=
  let profile_ids := from_option id (dkeys (profiles self)) profile_ids in
  filter
    (λ entry,
       py_in_str url_contains entry.1 = true
       ∧ size (dom (Bookmark.profiles entry.2) ∩ list_to_set profile_ids) ≠ 0)
    (bookmarks self).

(** * Specification vocabulary and sample documents *)

(** ** Vocabulary of the paths *)

(** A part of a path as [pathlib] keeps it: not empty, not [.], without a
    slash. *)
Fixpoint no_slash (s : string) : bool :=
  match s with
  | EmptyString => true
  | String c s' => negb (is_slash c) && no_slash s'
  end.

Definition path_part (x : string) : Prop :=
  x ≠ "" ∧ x ≠ "." ∧ no_slash x = true.

(** ** Sample documents used by the examples below *)

Definition url_node (name url : string) : json :=
  JObj [("type", JStr "url"); ("name", JStr name); ("url", JStr url)].

Definition folder_node (name : string) (children : list json) : json :=
  JObj [("type", JStr "folder"); ("name", JStr name);
        ("children", JArr children)].

(** A [Local State] document listing the given profile identifiers. *)
Definition local_state (ids : list string) : json :=
  JObj [("profile",
         JObj [("info_cache",
                JObj ((λ i, (i, JObj [("name", JStr i)])) <$> ids))])].





(** The profile object of [Default] right after profile discovery. *)
Definition default_profile : Profile.t :=
  Profile.mk "Default" (JStr "Default") (JStr "") (JStr "") (JStr "") "/ud"
    "/ud/Default" "" ∅ ∅.



(** A user-data directory with two profiles. [Default] has five bookmarks
    in its bar, one of them inside a sub-folder, a backup file, and one
    extension installed from the store; [Work] shares one bookmark. *)
Definition default_bookmarks : json :=
  JObj [("checksum", JStr "5f2a");
        ("roots",
         JObj [("bookmark_bar",
                folder_node "Bar"
                  [url_node "a" "http://a.example";
                   folder_node "Work" [url_node "x" "http://x.example"];
                   url_node "b" "http://b.example";
                   url_node "c" "http://c.example";
                   url_node "d" "http://d.example"])])].

Definition work_bookmarks : json :=
  JObj [("roots",
         JObj [("bookmark_bar",
                folder_node "Bar" [url_node "a" "http://a.example"])])].

Definition default_preferences : json :=
  JObj [("extensions",
         JObj [("settings",
                JObj [("abc",
                       JObj [("path", JStr "abc");
                             ("manifest",
                              JObj [("name", JStr "A");
                                    ("icons",
                                     JObj [("16", JStr "a.png");
                                           ("128", JStr "b.png")])])])])])].

Definition fs_sample : filesystem :=
  {| fs_dirs := {["/ud"; "/ud/Default"; "/ud/Work"; "/ud/Default/Extensions";
                  "/ud/Default/Extensions/abc"]};
     fs_files :=
       list_to_map
         [("/ud/Local State", Json (local_state ["Default"; "Work"]));
          ("/ud/Default/Bookmarks", Json default_bookmarks);
          ("/ud/Default/Bookmarks.bak", Json default_bookmarks);
          ("/ud/Work/Bookmarks", Json work_bookmarks);
          ("/ud/Default/Secure Preferences", Json default_preferences);
          ("/ud/Default/Extensions/abc/a.png", NotJson);
          ("/ud/Default/Extensions/abc/b.png", NotJson)] |}.

(** A name with a lone surrogate, as [json.loads] reads the escape
    [\ud800], and a profile whose bookmark file holds it. *)
Definition lone_surrogate : string :=
  String (ascii_of_nat 237) (String (ascii_of_nat 160)
    (String (ascii_of_nat 128) "")).

Definition fs_surrogate : filesystem :=
  {| fs_dirs := {["/ud"; "/ud/Default"]};
     fs_files :=
       list_to_map
         [("/ud/Local State", Json (local_state ["Default"]));
          ("/ud/Default/Bookmarks",
           Json (JObj [("roots",
                        JObj [("bookmark_bar",
                               folder_node "Bar"
                                 [url_node lone_surrogate
                                    "http://a.example"])])]))] |}.

(** The engine after profile discovery, and after bookmark discovery. *)
Definition engine_profiles : ChromInstance :=
  state_of (fetch_all_profiles fs_sample (ChromInstance_init "/ud")).

Definition engine_bookmarks : ChromInstance :=
  state_of (fetch_bookmarks_from_all_profiles fs_sample engine_profiles).

(** ** Vocabulary of the extension properties *)

(** [Default] lists one extension installed from a directory outside the
    profile; the directory exists and holds no [manifest.json]. *)
Definition fs_no_manifest : filesystem :=
  {| fs_dirs := {["/ud"; "/ud/Default"; "/ud/Default/Extensions"; "/opt/ext"]};
     fs_files :=
       list_to_map
         [("/ud/Local State", Json (local_state ["Default"]));
          ("/ud/Default/Secure Preferences",
           Json (JObj [("extensions",
                   JObj [("settings",
                     JObj [("off", JObj [("path", JStr "/opt/ext")])])])]))] |}.

(** The same with a [manifest.json] that does not parse. *)
Definition fs_bad_manifest : filesystem :=
  {| fs_dirs := fs_dirs fs_no_manifest;
     fs_files := <["/opt/ext/manifest.json" := NotJson]> (fs_files fs_no_manifest) |}.

(** [Default]'s bookmark bar holds a node without a ["type"]. *)
Definition fs_untyped_node : filesystem :=
  {| fs_dirs := {["/ud"; "/ud/Default"]};
     fs_files :=
       list_to_map
         [("/ud/Local State", Json (local_state ["Default"]));
          ("/ud/Default/Bookmarks",
           Json (JObj [("roots",
                   JObj [("bookmark_bar",
                          folder_node "Bar"
                            [JObj [("name", JStr "a");
                                   ("url", JStr "http://a.example")]])])]))] |}.

Definition engine_default : ChromInstance :=
  state_of (fetch_all_profiles fs_no_manifest (ChromInstance_init "/ud")).

(** What adding [ext_id] to the profile's own set does. *)
Definition with_extension (ext_id : string) (profile : Profile.t) : Profile.t :=
  Profile.set_extensions ({[ext_id]} ∪ Profile.extensions profile) profile.

(** The outcome of an offline resolution of [ext_id] from directory
    [ext_path]: the manifest is read from inside it, and it is the icon base
    directory. *)
Definition offline_resolution (fs : filesystem) (ext_id ext_path : string)
    (st : ext_state) : result ext_state :=
  attempt
    (let? manifest_data := read_json fs (ext_path // "manifest.json") in
     make_extension fs ext_id (Profile.id st.2) manifest_data ext_path)
    st
    (λ ext, Ok (<[ext_id := ext]> st.1, with_extension ext_id st.2)).

(** The conditions under which the claim lets an identifier be skipped. *)
Definition path_is_empty (ext_set : list (string * json)) : Prop :=
  py_len (from_option id (JStr "") (dget "path" ext_set)) = inr 0.

Definition neither_install_applies (fs : filesystem) (profile : Profile.t)
    (ext_set : list (string * json)) : Prop :=
  ∃ ext_path,
    dget "path" ext_set = Some (JStr ext_path)
    ∧ path_exists fs ext_path = false
    ∧ path_exists fs (Profile.profile_dir profile // "Extensions" // ext_path)
      = false.

(** C5 as the claim words it: an existing [path] always means an offline
    resolution, and only an empty [path] or a [path] found nowhere means a
    skip. *)
Definition offline_install_as_claimed : Prop :=
  (∀ fs ext_id ext_set ext_path exts profile,
     exts !! ext_id = None →
     dget "path" ext_set = Some (JStr ext_path) →
     ext_path ≠ "" →
     path_exists fs ext_path = true →
     fetch_one_extension fs (ext_id, JObj ext_set) (exts, profile)
     = offline_resolution fs ext_id ext_path (exts, profile))
  ∧ (∀ fs ext_id ext_set exts profile st',
       exts !! ext_id = None →
       fetch_one_extension fs (ext_id, JObj ext_set) (exts, profile) = Ok st' →
       st'.1 !! ext_id = None →
       path_is_empty ext_set ∨ neither_install_applies fs profile ext_set).

(** A profile without an [Extensions] directory, and an extension whose
    directory and manifest exist. *)
Definition fs_no_extensions_dir : filesystem :=
  {| fs_dirs := {["/ud"; "/ud/Default"; "/opt/ext"]};
     fs_files := {["/opt/ext/manifest.json" := Json (JObj [("name", JStr "Off")])]} |}.

(** ** Vocabulary of the icon properties *)





(** An extension directory holding [a.png], and a path that is a file. *)
Definition fs_icons : filesystem :=
  {| fs_dirs := {["/e"]};
     fs_files := {["/e/a.png" := NotJson; "/f" := NotJson]} |}.

Definition manifest_padded_label : json :=
  JObj [("icons", JObj [("016", JStr "a.png")])].

Definition manifest_sizes : json :=
  JObj [("icons", JObj [("16", JStr "none.png"); ("128", JStr "a.png")])].


(** ** Vocabulary of the deletion walk *)

(** A bookmark tree as §6 describes it: url nodes with [name] and [url],
    folder nodes with [name] and an ordered list of child nodes. *)
#[local] Unset Elimination Schemes.
Inductive bookmark_node : json → Prop :=
  | url_bookmark d name url :
      dget "type" d = Some (JStr "url") →
      dget "name" d = Some (JStr name) →
      dget "url" d = Some (JStr url) →
      bookmark_node (JObj d)
  | folder_bookmark d name children :
      dget "type" d = Some (JStr "folder") →
      dget "name" d = Some (JStr name) →
      dget "children" d = Some (JArr children) →
      Forall bookmark_node children →
      bookmark_node (JObj d).
#[local] Set Elimination Schemes.

(** A url-type child whose URL is in the delete set. *)
Definition doomed (urls_to_delete : list string) (child : json) : bool :=
  match child with
  | JObj d =>
      match dget "type" d, dget "url" d with
      | Some ty, Some (JStr url) =>
          is_str ty "url" && bool_decide (url ∈ urls_to_delete)
      | _, _ => false
      end
  | _ => false
  end.

Definition is_folder (d : list (string * json)) : bool :=
  match dget "type" d with Some ty => is_str ty "folder" | None => false end.

(** The tree the deletion is meant to leave: in every folder the doomed
    children are gone and the others, pruned in turn, keep their order. *)
Fixpoint prune (urls_to_delete : list string) (j : json) : json :=
  match j with
  | JObj d =>
      if is_folder d then
        JObj ((fix members (d : list (string * json)) :=
                 match d with
                 | [] => []
                 | (k, v) :: d' =>
                     if decide ("children" = k) then
                       (k, match v with
                           | JArr children =>
                               JArr (omap (λ c, if doomed urls_to_delete c
                                                then None
                                                else Some (prune urls_to_delete c))
                                       children)
                           | _ => v
                           end) :: d'
                     else (k, v) :: members d'
                 end) d)
      else j
  | _ => j
  end.

(** The children of a folder visited from the last to the first, as a
    recursion on the list: what the loop over the indices amounts to. *)
Fixpoint sweep (walk : bmk_state * json → result (bmk_state * json))
    (urls_to_delete : list string) (children : list json) (st : bmk_state)
  : result (bmk_state * list json) :=
  match children with
  | [] => Ok (st, [])
  | child :: rest =>
      match sweep walk urls_to_delete rest st with
      | Raise e (st', rest') => Raise e (st', child :: rest')
      | Ok (st', rest') =>
          on_state (λ '(st'', l), (st'', l ++ rest'))
                   (delete_step walk urls_to_delete 0 (st', [child]))
      end
  end.

(** The bookmark bar of [default_bookmarks], and what is left of it once
    the children at indices 2 and 3 are deleted. *)
Definition bar_five : json :=
  folder_node "Bar"
    [url_node "a" "http://a.example";
     folder_node "Work" [url_node "x" "http://x.example"];
     url_node "b" "http://b.example";
     url_node "c" "http://c.example";
     url_node "d" "http://d.example"].

Definition bar_three : json :=
  folder_node "Bar"
    [url_node "a" "http://a.example";
     folder_node "Work" [url_node "x" "http://x.example"];
     url_node "d" "http://d.example"].

(** ** Vocabulary of the folder paths *)

(** ['/'.join] of a list of folder names. *)
Fixpoint slash_join (names : list string) : string :=
  match names with
  | [] => ""
  | [s] => s
  | s :: rest => s +:+ "/" +:+ slash_join rest
  end.

Definition is_url (d : list (string * json)) : bool :=
  match dget "type" d with Some ty => is_str ty "url" | None => false end.

(** The url nodes below [j] in visiting order, each with the names of the
    folders around it: the list [ancestors] the walk starts with, then one
    name per enclosing folder, outermost first. *)
Fixpoint url_paths (j : json) (ancestors : list string)
  : list (string * list string) :=
  match j with
  | JObj d =>
      if is_url d then
        match dget "url" d with
        | Some (JStr url) => [(url, ancestors)]
        | _ => []
        end
      else if is_folder d then
        match dget "name" d with
        | Some (JStr name) =>
            (fix members (d : list (string * json)) :=
               match d with
               | [] => []
               | (k, v) :: d' =>
                   if decide ("children" = k) then
                     match v with
                     | JArr children =>
                         c ← children; url_paths c (ancestors ++ [name])
                     | _ => []
                     end
                   else members d'
               end) d
        | _ => []
        end
      else []
  | _ => []
  end.

(** Recording the listed url nodes, in order, in a URL-to-path mapping. *)
Definition record_paths (m : gmap string string)
    (found : list (string * list string)) : gmap string string :=
  foldl (λ m '(url, names), <[url := slash_join names]> m) m found.

(** The index holds, for each listed URL, the path the profile holds. *)
Definition indexed (st : bmk_state) (found : list (string * list string))
  : Prop :=
  ∀ url names, (url, names) ∈ found →
    ∃ b path, st.1 !! url = Some b
      ∧ Profile.bookmarks st.2 !! url = Some path
      ∧ Bookmark.profiles b !! Profile.id st.2 = Some path.

(** From [st] to [st'] the listed url nodes have been recorded. *)
Definition recorded (st st' : bmk_state) (found : list (string * list string))
  : Prop :=
  Profile.bookmarks st'.2 = record_paths (Profile.bookmarks st.2) found
  ∧ Profile.id st'.2 = Profile.id st.2
  ∧ ∀ before, indexed st before → indexed st' (before ++ found).

(** What a walk does, stated so that it composes along a list of walks. *)
Definition walk_records (walk : list json → bmk_state → result bmk_state)
    (paths : list string → list (string * list string)) : Prop :=
  ∀ ancestors st, ∃ st',
    walk (JStr <$> ancestors) st = Ok st'
    ∧ Profile.bookmarks st'.2
      = record_paths (Profile.bookmarks st.2) (paths ancestors)
    ∧ Profile.id st'.2 = Profile.id st.2
    ∧ ∀ found, indexed st found → indexed st' (found ++ paths ancestors).

(** A bookmark file whose roots are well-formed trees. *)
Definition bookmark_roots (bookmark_data : json)
    (roots : list (string * json)) : Prop :=
  get_with_chained_keys bookmark_data ["roots"] = JObj roots
  ∧ Forall (λ root, bookmark_node root.2) roots.

(** ** Vocabulary of the resync properties *)

(** A statement on a state [S * V] that only ever adds to one component
    [X] of [V] (read by [get], replaced by [put]) is described by two
    properties: it leaves the rest of [V] alone ([keeps_rest]), and what it
    adds does not depend on what the component held ([framed]). *)
Section Accumulator.
Context {S V X : Type} (get : V → X) (put : X → V → V) (op : X → X → X).




End Accumulator.



(** ** Vocabulary of the index invariants *)

(** The engine's [profiles] dict as profile discovery builds it: one entry
    per identifier, each holding the profile with that identifier. *)
Definition well_keyed (ps : list (string * Profile.t)) : Prop :=
  NoDup (dkeys ps) ∧ ∀ k p, (k, p) ∈ ps → Profile.id p = k.

(** [covers strict r]: the outcome [r] is one a property speaks about;
    with [strict], only normal returns are. *)
Definition covers (strict : bool) {S} (r : result S) : Prop :=
  strict = true → returns r = true.

(** An index [I] that records, per profile identifier, facts [K] which the
    profile records too ([own] and [holds]); [good] is what else the index
    must satisfy. *)
Section Integrity.
Context {I K : Type}.
Context (own : I → string → K → Prop) (holds : Profile.t → K → Prop)
        (good : I → Prop).

(** The profile and the index record the same facts for the profile. *)
Definition agrees (idx : I) (p : Profile.t) : Prop :=
  ∀ k, holds p k ↔ own idx (Profile.id p) k.

(** A step on the index and one profile that keeps the two in agreement and
    leaves the facts of every other profile alone. *)
Definition sound (st st' : I * Profile.t) : Prop :=
  Profile.id st'.2 = Profile.id st.2
  ∧ (∀ pid k, pid ≠ Profile.id st.2 → own st'.1 pid k ↔ own st.1 pid k)
  ∧ (good st.1 → good st'.1)
  ∧ (agrees st.1 st.2 → agrees st'.1 st'.2).

(** All profiles agree with the index, which knows no other profile. *)
Definition consistent (ps : list (string * Profile.t)) (idx : I) : Prop :=
  well_keyed ps
  ∧ Forall (λ kp, agrees idx kp.2) ps
  ∧ good idx
  ∧ ∀ pid k, own idx pid k → pid ∈ dkeys ps.

End Integrity.

(** A relation on the first component of a paired state. *)
Definition on_fst {A B} (R : A → A → Prop) : A * B → A * B → Prop :=
  λ s s', R s.1 s'.1.

(** *** Bookmarks *)

(** The index maps [pid] to [path] for the URL. *)
Definition bmk_own (idx : gmap string Bookmark.t) (pid : string)
    (k : string * string) : Prop :=
  ∃ b, idx !! k.1 = Some b ∧ Bookmark.profiles b !! pid = Some k.2.

Definition bmk_holds (p : Profile.t) (k : string * string) : Prop :=
  Profile.bookmarks p !! k.1 = Some k.2.

(** No bookmark of the index is left without a profile. *)
Definition bmk_good (idx : gmap string Bookmark.t) : Prop :=
  ∀ url b, idx !! url = Some b → Bookmark.profiles b ≠ ∅.

Abbreviation bmk_sound := (sound bmk_own bmk_holds bmk_good).

(** C1, the property: every URL of a profile's mapping is in the index with
    the same path for that profile; every entry of a bookmark's mapping is
    in that profile's mapping; no bookmark has an empty mapping. *)
Definition bookmark_integrity (self : ChromInstance) : Prop :=
  (∀ k p url path,
     (k, p) ∈ profiles self →
     Profile.bookmarks p !! url = Some path →
     ∃ b, bookmarks self !! url = Some b
          ∧ Bookmark.profiles b !! Profile.id p = Some path)
  ∧ (∀ url b pid path,
       bookmarks self !! url = Some b →
       Bookmark.profiles b !! pid = Some path →
       ∃ p, (pid, p) ∈ profiles self
            ∧ Profile.bookmarks p !! url = Some path)
  ∧ (∀ url b, bookmarks self !! url = Some b → Bookmark.profiles b ≠ ∅).

(** *** Extensions *)

Definition ext_own (exts : gmap string Extension.t) (pid : string)
    (ext_id : string) : Prop :=
  ∃ ext, exts !! ext_id = Some ext ∧ pid ∈ Extension.profiles ext.

Definition ext_holds (p : Profile.t) (ext_id : string) : Prop :=
  ext_id ∈ Profile.extensions p.

(** Every extension is filed under its identifier and has a profile. *)
Definition ext_good (exts : gmap string Extension.t) : Prop :=
  ∀ ext_id ext, exts !! ext_id = Some ext →
    Extension.id ext = ext_id ∧ Extension.profiles ext ≠ ∅.

Abbreviation ext_sound := (sound ext_own ext_holds ext_good).

(** C3, the property: an identifier is in the index iff some profile's set
    contains it, and the profile sets of the extensions and the extension
    sets of the profiles say the same. *)
Definition extension_integrity (self : ChromInstance) : Prop :=
  (∀ ext_id,
     is_Some (extensions self !! ext_id)
     ↔ ∃ k p, (k, p) ∈ profiles self ∧ ext_id ∈ Profile.extensions p)
  ∧ (∀ ext_id ext k p,
       extensions self !! ext_id = Some ext →
       (k, p) ∈ profiles self →
       Profile.id p ∈ Extension.profiles ext
       ↔ Extension.id ext ∈ Profile.extensions p).

(** [Default] has lost its bookmark file since the last discovery. *)
Definition fs_bookmarks_gone : filesystem :=
  {| fs_dirs := fs_dirs fs_sample;
     fs_files := delete "/ud/Default/Bookmarks" (fs_files fs_sample) |}.

(** The engine after extension discovery, and [Default] having lost its
    preferences file since. *)
Definition engine_extensions : ChromInstance :=
  state_of (fetch_extensions_from_all_profiles fs_sample engine_profiles).

Definition fs_preferences_gone : filesystem :=
  {| fs_dirs := fs_dirs fs_sample;
     fs_files := delete "/ud/Default/Secure Preferences" (fs_files fs_sample) |}.

(** Two extensions installed from the store: one whose only icon has the
    padded size label ["016"], and one whose directory entry is a regular
    file and whose manifest lists no icons. *)
Definition fs_odd_icons : filesystem :=
  {| fs_dirs := {["/ud"; "/ud/Default"; "/ud/Default/Extensions";
                  "/ud/Default/Extensions/abc"]};
     fs_files :=
       list_to_map
         [("/ud/Local State", Json (local_state ["Default"]));
          ("/ud/Default/Secure Preferences",
           Json (JObj [("extensions",
                   JObj [("settings",
                     JObj [("abc", JObj [("path", JStr "abc");
                                         ("manifest", manifest_padded_label)]);
                           ("f", JObj [("path", JStr "f")])])])]));
          ("/ud/Default/Extensions/abc/a.png", NotJson);
          ("/ud/Default/Extensions/f", NotJson)] |}.

(** The engine after a deletion that follows bookmark discovery. *)
Definition engine_after_deletion : ChromInstance :=
  (state_of (delete_bookmarks_from_profiles
               ["http://a.example"; "http://x.example"] None
               (fs_sample, engine_bookmarks))).2.

(** Profiles as profile discovery creates them: nothing recorded yet. *)
Definition fresh (ps : list (string * Profile.t)) : Prop :=
  ∀ k p, (k, p) ∈ ps →
    Profile.extensions p = ∅ ∧ Profile.bookmarks p = ∅.

(** ** Vocabulary of the search *)

(** [sub] occurs in [s]. *)
Definition occurs_in (sub s : string) : Prop :=
  ∃ pre suf, s = pre +:+ sub +:+ suf.

(** One of the profiles [ids] is a key of the bookmark's profile mapping. *)
Definition held_by (ids : list string) (b : Bookmark.t) : Prop :=
  ∃ pid, pid ∈ ids ∧ is_Some (Bookmark.profiles b !! pid).

(** ** Vocabulary of what a deletion changes *)

(** Two profile objects that differ at most in their URL-to-path mappings. *)
Definition same_but_bookmarks (p p' : Profile.t) : Prop :=
  p' = Profile.set_bookmarks (Profile.bookmarks p') p.

(** From [idx] to [idx'] bookmarks went, or lost profiles; none came, and
    none changed its name or URL. *)
Definition index_shrunk (idx idx' : gmap string Bookmark.t) : Prop :=
  ∀ url b', idx' !! url = Some b' →
    ∃ b, idx !! url = Some b
         ∧ Bookmark.name b' = Bookmark.name b
         ∧ Bookmark.url b' = Bookmark.url b
         ∧ Bookmark.profiles b' ⊆ Bookmark.profiles b.

(** What a deletion of [urls] may do to the index and the profile it works
    on: remove, and only for the URLs of [urls]. *)
Definition deleted (urls : list string) (st st' : bmk_state) : Prop :=
  same_but_bookmarks st.2 st'.2
  ∧ Profile.bookmarks st'.2 ⊆ Profile.bookmarks st.2
  ∧ index_shrunk st.1 st'.1
  ∧ ∀ url, url ∉ urls →
      st'.1 !! url = st.1 !! url
      ∧ Profile.bookmarks st'.2 !! url = Profile.bookmarks st.2 !! url.

(** The same for one entry of the engine's [profiles] and for the engine. *)
Definition profile_deleted (urls : list string)
    (kp kp' : string * Profile.t) : Prop :=
  kp'.1 = kp.1
  ∧ same_but_bookmarks kp.2 kp'.2
  ∧ Profile.bookmarks kp'.2 ⊆ Profile.bookmarks kp.2
  ∧ ∀ url, url ∉ urls →
      Profile.bookmarks kp'.2 !! url = Profile.bookmarks kp.2 !! url.

Definition engine_deleted (urls : list string) (self self' : ChromInstance)
  : Prop :=
  userdata_dir self' = userdata_dir self
  ∧ extensions self' = extensions self
  ∧ index_shrunk (bookmarks self) (bookmarks self')
  ∧ (∀ url, url ∉ urls → bookmarks self' !! url = bookmarks self !! url)
  ∧ Forall2 (profile_deleted urls) (profiles self) (profiles self').

(** A relation on the second component of a paired state. *)
Definition on_snd {A B} (R : B → B → Prop) : A * B → A * B → Prop :=
  λ s s', R s.2 s'.2.


(** ** Vocabulary of what a discovery changes *)

(** What extension discovery may do to a profile: add to its set of
    extension identifiers. *)
Definition extensions_grown (p p' : Profile.t) : Prop :=
  p' = Profile.set_extensions (Profile.extensions p') p
  ∧ Profile.extensions p ⊆ Profile.extensions p'.

(** What bookmark discovery may do to a profile: record its bookmark file,
    and record URLs in its mapping. *)
Definition bookmarks_grown (p p' : Profile.t) : Prop :=
  p' = Profile.set_bookmarks (Profile.bookmarks p')
         (Profile.set_bookmark_file (Profile.bookmark_file p') p)
  ∧ dom (Profile.bookmarks p) ⊆ dom (Profile.bookmarks p')
  ∧ (Profile.bookmark_file p' = Profile.bookmark_file p
     ∨ Profile.bookmark_file p' = Profile.profile_dir p // "Bookmarks").

(** ** Vocabulary of the index entries *)

(** An extension as it is once it has been met again: the same metadata,
    and no profile less. *)
Definition same_extension (ext ext' : Extension.t) : Prop :=
  Extension.id ext' = Extension.id ext
  ∧ Extension.name ext' = Extension.name ext
  ∧ Extension.description ext' = Extension.description ext
  ∧ Extension.icon ext' = Extension.icon ext
  ∧ Extension.profiles ext ⊆ Extension.profiles ext'.

Definition extensions_kept (st st' : ext_state) : Prop :=
  ∀ ext_id ext, st.1 !! ext_id = Some ext →
    ∃ ext', st'.1 !! ext_id = Some ext' ∧ same_extension ext ext'.

(** A bookmark as it is once it has been met again: the same name and
    URL, and no profile less. *)
Definition same_bookmark (b b' : Bookmark.t) : Prop :=
  Bookmark.name b' = Bookmark.name b
  ∧ Bookmark.url b' = Bookmark.url b
  ∧ dom (Bookmark.profiles b) ⊆ dom (Bookmark.profiles b').

(** Every bookmark of the index is filed under its own URL. *)
Definition keyed_by_url (idx : gmap string Bookmark.t) : Prop :=
  ∀ url b, idx !! url = Some b → Bookmark.url b = url.

Definition bookmarks_kept (st st' : bmk_state) : Prop :=
  (∀ url b, st.1 !! url = Some b →
     ∃ b', st'.1 !! url = Some b' ∧ same_bookmark b b')
  ∧ (keyed_by_url st.1 → keyed_by_url st'.1).

(** [Work] lists the extension that [Default] has, under another name. *)
Definition fs_shared_extension : filesystem :=
  {| fs_dirs := fs_dirs fs_sample ∪ {["/ud/Work/Extensions";
                                      "/ud/Work/Extensions/abc"]};
     fs_files :=
       <["/ud/Work/Secure Preferences" :=
           Json (JObj [("extensions",
                  JObj [("settings",
                    JObj [("abc",
                           JObj [("path", JStr "abc");
                                 ("manifest",
                                  JObj [("name", JStr "B")])])])])])]>
         (fs_files fs_sample) |}.

(** The profile object of [Work] right after profile discovery. *)
Definition work_profile : Profile.t :=
  Profile.mk "Work" (JStr "Work") (JStr "") (JStr "") (JStr "") "/ud"
    "/ud/Work" "" ∅ ∅.

(** An index that knows the bookmark of [Work] under another name, for
    another profile. *)
Definition index_renamed : gmap string Bookmark.t :=
  {["http://a.example" :=
      Bookmark.mk (JStr "first") "http://a.example" {["Default" := "/Bar"]}]}.

(** ** Vocabulary of profile discovery *)

(** The entry of [profiles] that profile discovery builds for an entry of
    [info_cache] whose value is the object [entry.2]. *)
Definition discovered_profile (root : string)
    (entry : string * list (string * json)) : string * Profile.t :=
  let field k := from_option id (JStr "") (dget k entry.2) in
  (entry.1,
   Profile.mk entry.1 (field "name") (field "user_name") (field "gaia_name")
     (field "gaia_given_name") root (root // entry.1) "" ∅ ∅).

(** The members of an [info_cache] whose values are all objects. *)
Definition info_entries (entries : list (string * list (string * json)))
  : list (string * json) :=
  prod_map id JObj <$> entries.

(** A [Local State] whose second profile entry is a number. *)
Definition fs_broken_profile : filesystem :=
  {| fs_dirs := {["/ud"]};
     fs_files :=
       {["/ud/Local State" :=
           Json (JObj [("profile",
                   JObj [("info_cache",
                          JObj [("Default", JObj [("name", JStr "Default")]);
                                ("Broken", JNum "1");
                                ("Work", JObj [("name", JStr "Work")])])])])]} |}.

(** ** Vocabulary of the size labels *)

(** A string of ASCII characters, on which [py_int] is [int]. *)
Definition ascii_only (s : string) : Prop :=
  Forall (λ c, (nat_of_ascii c < 128)%nat) (String.list_ascii_of_string s).

(** Settings of an extension installed from the store whose manifest names
    an icon by a size label that is not a number. *)
Definition settings_scalable_icon : list (string * json) :=
  [("path", JStr "abc");
   ("manifest", JObj [("icons", JObj [("scalable", JStr "a.svg")])])].

(** ** Vocabulary of the installs from the store *)

(** The outcome of resolving [ext_id] as installed from the store: the
    manifest is the one embedded in the settings, and the icon base is the
    extension's directory under the profile's [Extensions]. *)
Definition online_resolution (fs : filesystem) (ext_id : string)
    (ext_set : list (string * json)) (base : string) (st : ext_state)
  : result ext_state :=
  attempt
    (make_extension fs ext_id (Profile.id st.2)
       (from_option id (JObj []) (dget "manifest" ext_set)) base)
    st
    (λ ext, Ok (<[ext_id := ext]> st.1, with_extension ext_id st.2)).

(** * Properties *)

(** ** Paths as [pathlib] prints them *)

Lemma string_app_nil_r (s : string) : s +:+ "" = s.
Proof.
  induction s as [| c s IH]; [done |].
  change (String c (s +:+ "") = String c s). by rewrite IH.
Qed.

Lemma split_slash_cons c s :
  split_slash (String c s)
  = if is_slash c then "" :: split_slash s
    else match split_slash s with
         | x :: l => String c x :: l
         | [] => [String c ""]
         end.
Proof. done. Qed.

Lemma split_slash_not_nil s : split_slash s ≠ [].
Proof.
  induction s as [| c s IH]; [done |]. rewrite split_slash_cons.
  destruct (is_slash c); [done |]. by destruct (split_slash s).
Qed.

Lemma split_slash_no_slash s : Forall (λ x, no_slash x = true) (split_slash s).
Proof.
  induction s as [| c s IH]; [by repeat constructor |].
  rewrite split_slash_cons. destruct (is_slash c) eqn:Hc.
  - by constructor.
  - destruct (split_slash s) as [| x l] eqn:E;
      [by apply split_slash_not_nil in E |].
    apply Forall_cons in IH as [Hx Hl]. constructor; [| done].
    simpl. by rewrite Hc, Hx.
Qed.

(** A leading part without a slash goes to the first segment. *)
Lemma split_slash_app x s :
  no_slash x = true →
  split_slash (x +:+ s)
  = match split_slash s with
    | y :: l => (x +:+ y) :: l
    | [] => [x]
    end.
Proof.
  induction x as [| c x IH]; intros Hx.
  - change ("" +:+ s) with s. destruct (split_slash s) eqn:E; [| done].
    by apply split_slash_not_nil in E.
  - simpl in Hx. apply andb_true_iff in Hx as [Hc Hx].
    apply negb_true_iff in Hc.
    change (String c x +:+ s) with (String c (x +:+ s)).
    rewrite split_slash_cons, Hc, (IH Hx).
    destruct (split_slash s) as [| y l] eqn:E; [| done].
    by apply split_slash_not_nil in E.
Qed.

Lemma split_join_slash parts :
  parts ≠ [] →
  Forall (λ x, no_slash x = true) parts →
  split_slash (join_slash parts) = parts.
Proof.
  induction parts as [| x parts IH]; [done |]. intros _ Hall.
  apply Forall_cons in Hall as [Hx Hall].
  destruct parts as [| y parts].
  - change (join_slash [x]) with x. rewrite <- (string_app_nil_r x) at 1.
    rewrite split_slash_app by done. simpl. by rewrite string_app_nil_r.
  - change (join_slash (x :: y :: parts))
      with (x +:+ String "/" (join_slash (y :: parts))).
    rewrite split_slash_app by done.
    rewrite split_slash_cons. change (is_slash "/") with true. cbn iota.
    rewrite IH by done. by rewrite string_app_nil_r.
Qed.

Lemma path_part_no_slash parts :
  Forall path_part parts → Forall (λ x, no_slash x = true) parts.
Proof. intros Hall. eapply Forall_impl; [done |]. by intros x (_ & _ & ?). Qed.

Lemma filter_path_parts parts :
  Forall path_part parts →
  filter (λ x : string, x ≠ "" ∧ x ≠ ".") parts = parts.
Proof.
  induction 1 as [| x parts (? & ? & _) _ IH]; [done |].
  rewrite filter_cons_True by done. by rewrite IH.
Qed.

Lemma path_parts_join_slash parts :
  Forall path_part parts → path_parts (join_slash parts) = parts.
Proof.
  intros Hall. unfold path_parts.
  destruct parts as [| x parts]; [done |].
  rewrite split_join_slash; [| done | by apply path_part_no_slash].
  by apply filter_path_parts.
Qed.

Lemma path_parts_valid s : Forall path_part (path_parts s).
Proof.
  unfold path_parts. pose proof (split_slash_no_slash s) as Hall.
  induction Hall as [| x l Hx _ IH]; [done |].
  rewrite filter_cons. case_decide as Hd; [| done].
  constructor; [| done]. by destruct Hd.
Qed.

Lemma path_parts_slash s : path_parts (String "/" s) = path_parts s.
Proof.
  unfold path_parts. rewrite split_slash_cons.
  change (is_slash "/") with true. cbn iota.
  rewrite filter_cons_False; [done |]. by intros [? _].
Qed.

Lemma is_absolute_join_slash parts :
  Forall path_part parts → is_absolute (join_slash parts) = false.
Proof.
  intros Hall. destruct Hall as [| x parts (Hne & _ & Hx) _]; [done |].
  destruct x as [| c x]; [done |]. simpl in Hx.
  apply andb_true_iff in Hx as [Hc _]. apply negb_true_iff in Hc.
  by destruct parts.
Qed.

Lemma prefix_slash s : String.prefix "/" s = is_absolute s.
Proof.
  destruct s as [| c s]; [done |].
  change (String.prefix "/" (String c s))
    with (if ascii_dec "/" c then String.prefix "" s else false).
  unfold is_absolute, is_slash.
  destruct (ascii_dec "/" c) as [<- | Hne]; [by destruct s |].
  symmetry. apply Ascii.eqb_neq. congruence.
Qed.

Lemma posix_root_cases s :
  posix_root s = "" ∨ posix_root s = "/" ∨ posix_root s = "//".
Proof. unfold posix_root. repeat case_match; auto. Qed.

Lemma posix_root_render root parts :
  root = "" ∨ root = "/" ∨ root = "//" →
  Forall path_part parts →
  posix_root (render root parts) = root
  ∧ path_parts (render root parts) = parts.
Proof.
  intros Hroot Hall. pose proof (is_absolute_join_slash _ Hall) as Habs.
  pose proof (path_parts_join_slash _ Hall) as Hparts.
  unfold render. case_decide as Hd.
  - destruct Hd as [-> ->]. done.
  - destruct Hroot as [-> | [-> | ->]].
    + change ("" +:+ join_slash parts) with (join_slash parts).
      split; [| done]. unfold posix_root. by rewrite Habs.
    + change ("/" +:+ join_slash parts) with (String "/" (join_slash parts)).
      split; [| by rewrite path_parts_slash].
      unfold posix_root.
      change (is_absolute (String "/" (join_slash parts))) with true.
      change (String.prefix "//" (String "/" (join_slash parts)))
        with (String.prefix "/" (join_slash parts)).
      by rewrite prefix_slash, Habs.
    + change ("//" +:+ join_slash parts)
        with (String "/" (String "/" (join_slash parts))).
      split; [| by rewrite !path_parts_slash].
      unfold posix_root.
      change (is_absolute (String "/" (String "/" (join_slash parts))))
        with true.
      change (String.prefix "//" (String "/" (String "/" (join_slash parts))))
        with (String.prefix "" (join_slash parts)).
      change (String.prefix "///"
                (String "/" (String "/" (join_slash parts))))
        with (String.prefix "/" (join_slash parts)).
      rewrite prefix_slash, Habs. by destruct (join_slash parts).
Qed.

(** What [pathlib] prints, it reads back unchanged. *)
Lemma py_path_render root parts :
  root = "" ∨ root = "/" ∨ root = "//" →
  Forall path_part parts →
  py_path (render root parts) = render root parts.
Proof.
  intros Hroot Hall. unfold py_path.
  by destruct (posix_root_render root parts Hroot Hall) as [-> ->].
Qed.

Lemma py_path_idemp s : py_path (py_path s) = py_path s.
Proof.
  unfold py_path at 2 3.
  apply py_path_render; [apply posix_root_cases | apply path_parts_valid].
Qed.

Lemma py_path_join a b : py_path (a // b) = a // b.
Proof.
  unfold path_join. case_match; [apply py_path_idemp |].
  apply py_path_render; [apply posix_root_cases |].
  apply Forall_app; split; apply path_parts_valid.
Qed.

(** Joining the empty relative path gives the base itself, as [pathlib]
    prints it. *)
Lemma path_join_empty base : base // "" = py_path base.
Proof. unfold path_join, py_path. simpl. by rewrite app_nil_r. Qed.

Lemma path_join_join_empty a b : (a // b) // "" = a // b.
Proof. by rewrite path_join_empty, py_path_join. Qed.

(** A path in a directory whose name is printed by [pathlib]. *)
Lemma path_join_py_path a b : py_path a // b = a // b.
Proof.
  unfold path_join. case_match; [done |]. unfold py_path at 1 2.
  by destruct (posix_root_render _ _ (posix_root_cases a) (path_parts_valid a))
    as [-> ->].
Qed.

(** ** Profile discovery: failures abort the call and change nothing *)

(** Absent keys are what the chained lookup reports as [None]. *)
Lemma chained_lookup_absent d :
  dget "profile" d = None ∨
  (∃ d', dget "profile" d = Some (JObj d') ∧ dget "info_cache" d' = None) →
  get_with_chained_keys (JObj d) ["profile"; "info_cache"] = JNull.
Proof.
  intros [H | (d' & H1 & H2)]; simpl.
  - by rewrite H.
  - by rewrite H1, H2.
Qed.




(** ** Basic facts about loops and dictionaries *)

Lemma for_each_app {A S} (body : A → S → result S) l1 l2 s :
  for_each body (l1 ++ l2) s
  = and_then (for_each body l1 s) (for_each body l2).
Proof.
  revert s. induction l1 as [| x l1 IH]; intros s; simpl; [done |].
  destruct (body x s); simpl; [apply IH | done].
Qed.

Lemma for_each_ext {A S} (f g : A → S → result S) l s :
  (∀ x s, x ∈ l → f x s = g x s) →
  for_each f l s = for_each g l s.
Proof.
  revert s. induction l as [| x l IH]; intros s Hfg; simpl; [done |].
  rewrite Hfg by left. destruct (g x s); simpl; [| done].
  apply IH. intros y s' Hy. apply Hfg. by right.
Qed.

Lemma for_each_raise {A S} (step : A → S → result S) l s e s' :
  for_each step l s = Raise e s' →
  ∃ a s0, a ∈ l ∧ step a s0 = Raise e s'.
Proof.
  revert s. induction l as [| a l IH]; intros s; simpl; [done |].
  destruct (step a s) as [s1 | e1 s1] eqn:Ha; simpl.
  - intros H. destruct (IH _ H) as (a' & s0 & Hin & Hstep).
    exists a', s0. split; [by right | done].
  - intros [= <- <-]. exists a, s. split; [left | done].
Qed.

Lemma for_each_rel_in {A S} (R : S → S → Prop) `{!PreOrder R} strict
    (step : A → S → result S) l s :
  (∀ a s, a ∈ l → covers strict (step a s) → R s (state_of (step a s))) →
  covers strict (for_each step l s) →
  R s (state_of (for_each step l s)).
Proof.
  revert s. induction l as [| a l IH]; intros s Hstep Hcov; simpl.
  - done.
  - simpl in Hcov. pose proof (Hstep a s ltac:(left)) as Ha.
    destruct (step a s) as [s1 | e s1]; simpl in *.
    + etrans; [apply Ha; by intros _ |]. apply IH; [| done].
      intros a' s' Hin. apply Hstep. by right.
    + by apply Ha.
Qed.

Lemma for_each_rel {A S} (R : S → S → Prop) `{!PreOrder R} strict
    (step : A → S → result S) l s :
  (∀ a s, covers strict (step a s) → R s (state_of (step a s))) →
  covers strict (for_each step l s) →
  R s (state_of (for_each step l s)).
Proof.
  intros Hstep Hcov. apply (for_each_rel_in R strict); [| done].
  intros a s' _. apply Hstep.
Qed.

Lemma dget_None {V} k (d : list (string * V)) :
  dget k d = None ↔ k ∉ dkeys d.
Proof.
  unfold dkeys. induction d as [| [k' v] d IH]; simpl.
  - split; [intros _; apply not_elem_of_nil | done].
  - rewrite not_elem_of_cons. destruct (decide (k = k')); [| tauto].
    split; [done | tauto].
Qed.

Lemma dget_Some_elem_of {V} k v (d : list (string * V)) :
  dget k d = Some v → (k, v) ∈ d.
Proof.
  induction d as [| [k' v'] d IH]; simpl; [done |].
  destruct (decide (k = k')) as [-> |]; intros H.
  - injection H as ->. left.
  - right. by apply IH.
Qed.

Lemma dkeys_dset {V} k v (d : list (string * V)) :
  is_Some (dget k d) → dkeys (dset k v d) = dkeys d.
Proof.
  unfold dkeys. induction d as [| [k' v'] d IH]; simpl.
  - by intros [? ?].
  - destruct (decide (k = k')); simpl; [done |].
    intros H. f_equal. by apply IH.
Qed.

Lemma dget_dset {V} k k' v (d : list (string * V)) :
  dget k (dset k' v d) = if decide (k = k') then Some v else dget k d.
Proof.
  induction d as [| [k0 v0] d IH]; simpl.
  - by destruct (decide (k = k')).
  - destruct (decide (k' = k0)) as [-> |]; simpl.
    + destruct (decide (k = k0)); done.
    + destruct (decide (k = k0)) as [-> |]; [| done].
      by rewrite decide_False by done.
Qed.

(** ** Deletion with an unknown profile identifier *)

Lemma write_back_engine file doc fs self :
  (state_of (write_back file doc fs self)).2 = self.
Proof. unfold write_back, write_json. by destruct (encodable doc). Qed.

(** The engine that the body of the deletion loop leaves, whatever the
    outcome: the one it found, or that engine with one profile and the index
    written back after a walk over the roots of a bookmark file. *)
Lemma delete_bookmarks_of_profile_engine urls pid fs self :
  let self' := (state_of (delete_bookmarks_of_profile urls pid (fs, self))).2 in
  self' = self
  ∨ ∃ profile roots,
      dget pid (profiles self) = Some profile
      ∧ self' = commit pid
                  (state_of (for_each_value
                               (_delete_bookmarks_in_one_folder urls) roots
                               (bookmarks self, profile))).1 self.
Proof.
  unfold delete_bookmarks_of_profile.
  destruct (dget pid (profiles self)) as [profile |] eqn:Hp; [| by left].
  repeat (case_match; simpl; rewrite ?write_back_engine; try (by left)).
  all: right; exists profile;
    match goal with
    | H : for_each_value _ ?roots _ = _ |- _ =>
        exists roots; by rewrite H
    end.
Qed.

(** Deleting never changes which profile identifiers the engine knows. *)
Lemma delete_bookmarks_of_profile_keys urls pid w :
  dkeys (profiles (state_of (delete_bookmarks_of_profile urls pid w)).2)
  = dkeys (profiles w.2).
Proof.
  destruct w as [fs self]. cbn [snd].
  destruct (delete_bookmarks_of_profile_engine urls pid fs self)
    as [-> | (profile & roots & Hget & ->)]; [done |].
  unfold commit. simpl. apply dkeys_dset. by rewrite Hget.
Qed.

Lemma delete_loop_keys urls ids w :
  dkeys (profiles (state_of
           (for_each (delete_bookmarks_of_profile urls) ids w)).2)
  = dkeys (profiles w.2).
Proof.
  revert w. induction ids as [| pid ids IH]; intros w; simpl; [done |].
  pose proof (delete_bookmarks_of_profile_keys urls pid w) as H.
  destruct (delete_bookmarks_of_profile urls pid w) as [w' | e w']; simpl in *.
  - by rewrite IH.
  - done.
Qed.

(** C10: an identifier that is not a known profile makes the lookup raise
    [KeyError]; the exception reaches the caller in the state the profiles
    before it left behind, and the profiles after it are never visited. *)
Theorem delete_unknown_profile_raises urls before bad after w w1 :
  dget bad (profiles w.2) = None →
  delete_bookmarks_from_profiles urls (Some before) w = Ok w1 →
  delete_bookmarks_from_profiles urls (Some (before ++ bad :: after)) w
  = Raise KeyError w1.
Proof.
  unfold delete_bookmarks_from_profiles. simpl. intros Hbad Hbefore.
  rewrite for_each_app, Hbefore. simpl.
  pose proof (delete_loop_keys urls before w) as Hkeys.
  rewrite Hbefore in Hkeys. simpl in Hkeys.
  apply dget_None in Hbad. rewrite <- Hkeys in Hbad. apply dget_None in Hbad.
  destruct w1 as [fs1 self1]. unfold delete_bookmarks_of_profile.
  simpl in Hbad. by rewrite Hbad.
Qed.

(** After [Default] has been processed (its bookmark removed, its backup
    file gone), the unknown ["Ghost"] stops the call before [Work]. *)
Lemma delete_unknown_profile_raises_witness :
  let w := (fs_sample, engine_bookmarks) in
  let w1 := state_of (delete_bookmarks_from_profiles ["http://a.example"]
                        (Some ["Default"]) w) in
  delete_bookmarks_from_profiles ["http://a.example"]
    (Some ["Default"; "Ghost"; "Work"]) w = Raise KeyError w1
  ∧ fs_files w1.1 !! "/ud/Default/Bookmarks.bak" = None
  ∧ (∃ p, dget "Default" (profiles w1.2) = Some p
          ∧ Profile.bookmarks p !! "http://a.example" = None)
  ∧ (∃ p, dget "Work" (profiles w1.2) = Some p
          ∧ Profile.bookmarks p !! "http://a.example" = Some "/Bar").
Proof.
  intros w w1. split.
  - apply (delete_unknown_profile_raises ["http://a.example"] ["Default"]
             "Ghost" ["Work"] w w1); vm_compute; reflexivity.
  - vm_compute. repeat split; eexists; split; reflexivity.
Defined.

(** ** Faults that escape discovery *)

(** C4 (refuted on the code): a store-external extension directory without
    [manifest.json], or with one that does not parse, and a bookmark node
    without ["type"], each make a discovery call raise to its caller. *)
Theorem discovery_lets_faults_escape :
  (∃ s, fetch_extensions_from_all_profiles fs_no_manifest engine_default
        = Raise FileNotFoundError s)
  ∧ (∃ s, fetch_extensions_from_all_profiles fs_bad_manifest engine_default
          = Raise JSONDecodeError s)
  ∧ (∃ s, fetch_bookmarks_from_all_profiles fs_untyped_node engine_default
          = Raise KeyError s).
Proof. repeat split; eexists; vm_compute; reflexivity. Qed.

(** ** Offline installs and skipped identifiers *)

(** With no [Extensions] directory in the profile, an extension whose own
    directory and manifest exist is skipped. *)
Lemma offline_install_counterexample : ¬ offline_install_as_claimed.
Proof.
  intros [Hoffline _].
  specialize (Hoffline fs_no_extensions_dir "off" [("path", JStr "/opt/ext")]
                "/opt/ext" ∅ default_profile).
  discriminate Hoffline; by vm_compute.
Qed.

(** C5 (amended): in a profile whose [Extensions] directory exists, a
    not-yet-indexed identifier with a non-empty [path] that exists is
    resolved offline from that path; an identifier is skipped, the index and
    the profile left as they were, when the [Extensions] directory is
    missing, the [path] is empty, or neither form applies, and only then. *)
Theorem offline_install_and_skips fs ext_id ext_set exts profile :
  exts !! ext_id = None →
  let ext_dir := Profile.profile_dir profile // "Extensions" in
  let st := (exts, profile) in
  let run := fetch_one_extension fs (ext_id, JObj ext_set) st in
  (∀ ext_path,
     is_dir fs ext_dir = true →
     dget "path" ext_set = Some (JStr ext_path) →
     ext_path ≠ "" →
     path_exists fs ext_path = true →
     run = offline_resolution fs ext_id ext_path st)
  ∧ (is_dir fs ext_dir = false ∨ path_is_empty ext_set
     ∨ neither_install_applies fs profile ext_set →
     run = Ok st)
  ∧ (∀ st', run = Ok st' → st'.1 !! ext_id = None →
     is_dir fs ext_dir = false ∨ path_is_empty ext_set
     ∨ neither_install_applies fs profile ext_set).
Proof.
  intros Hnew ext_dir st run. subst run st.
  unfold fetch_one_extension. rewrite Hnew. fold ext_dir.
  unfold path_is_empty, neither_install_applies. fold ext_dir.
  split; [| split].
  - intros ext_path Hdir Hpath Hne Hex. rewrite Hdir. simpl.
    rewrite Hpath. simpl.
    destruct ext_path as [| c ext_path]; [done |]. simpl.
    unfold locate_manifest, offline_resolution. rewrite Hex.
    destruct (read_json _ _); simpl; [done |].
    by destruct (make_extension _ _ _ _ _).
  - intros [Hdir | [Hempty | (ext_path & Hpath & H1 & H2)]].
    + by rewrite Hdir.
    + destruct (is_dir fs ext_dir); [| done]. simpl. by rewrite Hempty.
    + destruct (is_dir fs ext_dir); [| done]. simpl.
      rewrite Hpath. simpl.
      destruct ext_path as [| c ext_path]; [done |]. simpl.
      unfold locate_manifest. by rewrite H1, H2.
  - intros st' Hrun Hskip.
    destruct (is_dir fs ext_dir); [| by left]. right. simpl in Hrun.
    destruct (dget "path" ext_set) as [path |] eqn:Hpath; simpl in *;
      [| by left].
    destruct (py_len path) as [e | n] eqn:Hlen; simpl in Hrun; [done |].
    destruct (decide (n = 0)) as [-> | Hn]; [by left |]. right.
    destruct path as [| | | ext_path | |]; try done.
    exists ext_path. split; [done |].
    unfold locate_manifest in Hrun.
    destruct (path_exists fs ext_path) eqn:H1.
    { destruct (read_json _ _); simpl in Hrun; [done |].
      destruct (make_extension _ _ _ _ _); simpl in Hrun; [done |].
      injection Hrun as <-. simpl in Hskip.
      by rewrite lookup_insert_eq in Hskip. }
    destruct (path_exists fs (ext_dir // ext_path)) eqn:H2; [| done].
    destruct (dict_get _ _ _); simpl in Hrun; [done |].
    destruct (make_extension _ _ _ _ _); simpl in Hrun; [done |].
    injection Hrun as <-. simpl in Hskip.
    by rewrite lookup_insert_eq in Hskip.
Qed.

Lemma offline_install_and_skips_witness :
  fetch_one_extension fs_no_extensions_dir
    ("off", JObj [("path", JStr "/opt/ext")]) (∅, default_profile)
  = Ok (∅, default_profile).
Proof.
  apply (offline_install_and_skips fs_no_extensions_dir "off"
           [("path", JStr "/opt/ext")] ∅ default_profile).
  - reflexivity.
  - left. reflexivity.
Defined.

(** ** Icon selection *)




(** The second half of the claim fails as well. *)
Lemma icon_selection_no_icons_example :
  resolve_icon fs_icons (JObj []) "/f" = inr "/f".
Proof. vm_compute. reflexivity. Qed.

(** Both cases in a run of the discovery: the icon of [abc] is lost, and
    [f] gets its own directory entry as icon. *)
Lemma icon_selection_run_example :
  let exts := extensions (state_of (fetch_extensions_from_all_profiles
                                      fs_odd_icons engine_default)) in
  Extension.icon <$> exts !! "abc" = Some ""
  ∧ Extension.icon <$> exts !! "f" = Some "/ud/Default/Extensions/f".
Proof. split; vm_compute; reflexivity. Qed.



(** ** The deletion walk *)

Lemma and_then_Ok {S} (r : result S) : and_then r Ok = r.
Proof. by destruct r. Qed.

Lemma on_state_ext {S T} (f g : S → T) r :
  (∀ s, f s = g s) → on_state f r = on_state g r.
Proof. intros H. destruct r; simpl; by rewrite H. Qed.

Lemma on_state_compose {S T U} (f : T → U) (g : S → T) r :
  on_state f (on_state g r) = on_state (λ s, f (g s)) r.
Proof. by destruct r. Qed.

(** *** Depth of the parts of a document *)

Lemma json_depth_elem x l : x ∈ l → json_depth x < json_depth (JArr l).
Proof.
  simpl. induction l as [| y l IH]; intros Hx.
  - by apply elem_of_nil in Hx.
  - apply elem_of_cons in Hx as [-> | Hx]; simpl; [lia |].
    specialize (IH Hx). lia.
Qed.

Lemma json_depth_dget k v d : dget k d = Some v → json_depth v < json_depth (JObj d).
Proof.
  simpl. induction d as [| [k' v'] d IH]; simpl; [done |].
  destruct (decide (k = k')); intros H.
  - injection H as ->. lia.
  - specialize (IH H). lia.
Qed.

Lemma json_depth_ind (P : json → Prop) :
  (∀ j, (∀ j', json_depth j' < json_depth j → P j') → P j) → ∀ j, P j.
Proof.
  intros Hstep.
  assert (H : ∀ n j, json_depth j < n → P j).
  { induction n as [| n IH]; intros j Hj; [lia |].
    apply Hstep. intros j' Hj'. apply IH. lia. }
  intros j. apply (H (S (json_depth j))). lia.
Qed.

(** *** The loop over the indices is a sweep from the right *)

#[local] Arguments delete_step : simpl never.

(** A step at the index of [child] only touches [child]. *)
Lemma delete_step_at walk urls pre child suf st :
  delete_step walk urls (length pre) (st, pre ++ child :: suf)
  = on_state (λ '(st', l), (st', pre ++ l ++ suf))
             (delete_step walk urls 0 (st, [child])).
Proof.
  unfold delete_step.
  rewrite list_lookup_middle by done. simpl.
  destruct child as [| | | | | d]; try done.
  destruct (dget "type" d) as [ty |]; [| done].
  destruct (is_str ty "url").
  - destruct (dget "url" d) as [[| | | url | |] |]; try done.
    destruct (bool_decide (url ∈ urls)); [| done]. simpl.
    by rewrite delete_middle.
  - destruct (walk (st, JObj d)) as [[st' c'] | e [st' c']]; simpl;
      by rewrite insert_app_r_alt, Nat.sub_diag by done.
Qed.

Lemma delete_loop_sweep walk urls pre l st :
  for_each (delete_step walk urls) (reverse (seq (length pre) (length l)))
    (st, pre ++ l)
  = on_state (λ '(st', l'), (st', pre ++ l')) (sweep walk urls l st).
Proof.
  revert pre. induction l as [| c rest IH]; intros pre; [done |].
  simpl. rewrite reverse_cons, for_each_app.
  specialize (IH (pre ++ [c])). rewrite length_app in IH. simpl in IH.
  rewrite Nat.add_1_r, <- app_assoc in IH. simpl in IH. rewrite IH. clear IH.
  destruct (sweep walk urls rest st) as [[st' rest'] | e [st' rest']]; simpl.
  - rewrite and_then_Ok.
    rewrite <- app_assoc. simpl. rewrite delete_step_at.
    rewrite on_state_compose. apply on_state_ext. by intros [st'' l'].
  - by rewrite <- app_assoc.
Qed.

Lemma sweep_ext walk1 walk2 urls l st :
  (∀ c st, c ∈ l → walk1 (st, c) = walk2 (st, c)) →
  sweep walk1 urls l st = sweep walk2 urls l st.
Proof.
  induction l as [| c rest IH]; intros Hw; simpl; [done |].
  rewrite IH by (intros; apply Hw; by right).
  destruct (sweep walk2 urls rest st) as [[st' rest'] | e [st' rest']];
    [| done].
  f_equal. unfold delete_step. simpl.
  destruct c as [| | | | | d]; try done.
  destruct (dget "type" d) as [ty |]; [| done].
  destruct (is_str ty "url"); [done |].
  rewrite Hw by left. done.
Qed.

(** *** The recursion limit is never reached *)

Lemma delete_bookmarks_rec_fuel urls n m st j :
  json_depth j < n → json_depth j < m →
  delete_bookmarks_rec n urls (st, j) = delete_bookmarks_rec m urls (st, j).
Proof.
  revert m st j. induction n as [| n IH]; intros m st j Hn Hm; [lia |].
  destruct m as [| m]; [lia |]. simpl.
  destruct j as [| | | | | d]; try done.
  destruct (dget "type" d) as [ty |]; [| done].
  destruct (negb (is_str ty "folder")); [done |].
  destruct (dget "children" d) as [[| | | | children |] |] eqn:Hc; try done.
  f_equal.
  rewrite (delete_loop_sweep _ urls [] children),
          (delete_loop_sweep _ urls [] children).
  f_equal. apply sweep_ext. intros c st' Hin.
  apply json_depth_elem in Hin. apply json_depth_dget in Hc.
  apply IH; lia.
Qed.

Lemma delete_rec_folder n urls st d children :
  is_folder d = true →
  dget "children" d = Some (JArr children) →
  delete_bookmarks_rec (S n) urls (st, JObj d)
  = on_state (λ '(st', children'),
                (st', JObj (dset "children" (JArr children') d)))
      (sweep (delete_bookmarks_rec n urls) urls children st).
Proof.
  unfold is_folder. intros Hty Hc. cbn [delete_bookmarks_rec].
  destruct (dget "type" d) as [ty |]; [| done]. rewrite Hty, Hc. cbn [negb].
  f_equal. rewrite (delete_loop_sweep _ urls [] children).
  by destruct (sweep _ urls children st) as [[? ?] | ? [? ?]].
Qed.

(** The walk of a folder, in terms of the walks of its children. *)
Lemma delete_folder_unfold urls st d children :
  is_folder d = true →
  dget "children" d = Some (JArr children) →
  _delete_bookmarks_in_one_folder urls (st, JObj d)
  = on_state (λ '(st', children'),
                (st', JObj (dset "children" (JArr children') d)))
      (sweep (_delete_bookmarks_in_one_folder urls) urls children st).
Proof.
  intros Hty Hc. unfold _delete_bookmarks_in_one_folder at 1. cbn [snd].
  rewrite (delete_rec_folder _ urls st d children) by done.
  f_equal. apply sweep_ext. intros c st' Hin.
  unfold _delete_bookmarks_in_one_folder. cbn [snd].
  apply json_depth_elem in Hin. apply json_depth_dget in Hc.
  apply delete_bookmarks_rec_fuel; lia.
Qed.

Lemma delete_non_folder urls st d :
  is_Some (dget "type" d) → is_folder d = false →
  _delete_bookmarks_in_one_folder urls (st, JObj d) = Ok (st, JObj d).
Proof.
  unfold is_folder. intros [ty Hty] Hf. rewrite Hty in Hf.
  unfold _delete_bookmarks_in_one_folder. cbn [snd delete_bookmarks_rec].
  by rewrite Hty, Hf.
Qed.

(** *** The faults of the walk *)

Lemma sweep_raise walk urls l st e s :
  sweep walk urls l st = Raise e s →
  (e = KeyError ∨ e = TypeError)
  ∨ ∃ c st0 s0, c ∈ l ∧ walk (st0, c) = Raise e s0.
Proof.
  revert s. induction l as [| c rest IH]; intros s; simpl; [done |].
  destruct (sweep walk urls rest st) as [[st1 rest'] | e1 [st1 rest']].
  - unfold delete_step. simpl.
    destruct c as [| | | | | d]; simpl;
      try (intros [= <- _]; left; by right).
    destruct (dget "type" d) as [ty |]; [| intros [= <- _]; left; by left].
    destruct (is_str ty "url").
    + destruct (dget "url" d) as [[| | | url | |] |]; try done;
        [| intros [= <- _]; left; by left].
      by destruct (bool_decide (url ∈ urls)).
    + destruct (walk (st1, JObj d)) as [[st2 c'] | e2 [st2 c']] eqn:Hwalk;
        simpl; [done |].
      intros [= <- _]. right. exists (JObj d), st1, (st2, c').
      split; [left | done].
  - intros [= <- <-].
    destruct (IH _ eq_refl) as [H | (c' & st0 & s0 & Hin & Hwalk)];
      [by left |].
    right. exists c', st0, s0. split; [by right | done].
Qed.

(** The walk raises nothing but [KeyError] and [TypeError]: no index is
    ever out of range, and the depth of the document bounds the recursion. *)
Lemma delete_bookmarks_rec_raise n urls st j e s :
  json_depth j < n →
  delete_bookmarks_rec n urls (st, j) = Raise e s →
  e = KeyError ∨ e = TypeError.
Proof.
  revert st j s. induction n as [| n IH]; intros st j s Hn; [lia |].
  cbn [delete_bookmarks_rec].
  destruct j as [| | | | | d]; try (intros [= <- _]; by right).
  destruct (dget "type" d) as [ty |]; [| intros [= <- _]; by left].
  destruct (negb (is_str ty "folder")); [done |].
  destruct (dget "children" d) as [[| | | [] | children | []] |] eqn:Hc;
    try done; try (intros [= <- _]; by right);
    try (intros [= <- _]; by left).
  rewrite (delete_loop_sweep _ urls [] children).
  destruct (sweep _ urls children st) as [[st1 cs] | e1 [st1 cs]] eqn:Hsweep;
    [done |].
  simpl. intros [= <- _].
  apply sweep_raise in Hsweep as [H | (c & st0 & s0 & Hin & Hwalk)]; [done |].
  apply IH in Hwalk; [done |].
  apply json_depth_elem in Hin. apply json_depth_dget in Hc. lia.
Qed.

(** *** The pruned tree *)

Lemma is_str_url_not_folder ty : is_str ty "url" = true → is_str ty "folder" = false.
Proof.
  destruct ty; simpl; try done. intros H%bool_decide_eq_true. by subst.
Qed.

Lemma prune_not_folder urls d : is_folder d = false → prune urls (JObj d) = JObj d.
Proof. intros H. simpl. by rewrite H. Qed.

Lemma prune_folder_omap urls d children :
  is_folder d = true →
  dget "children" d = Some (JArr children) →
  prune urls (JObj d)
  = JObj (dset "children"
            (JArr (omap (λ c, if doomed urls c then None
                              else Some (prune urls c)) children)) d).
Proof.
  intros Hf Hc. simpl. rewrite Hf. f_equal. clear Hf.
  induction d as [| [k v] d IH]; simpl in *; [done |].
  destruct (decide ("children" = k)) as [<- |].
  - by injection Hc as ->.
  - f_equal. by apply IH.
Qed.

Lemma prune_folder_no_list urls d v :
  dget "children" d = Some v →
  (∀ children, v ≠ JArr children) →
  prune urls (JObj d) = JObj d.
Proof.
  intros Hc Hv. simpl. destruct (is_folder d); [| done]. f_equal.
  induction d as [| [k v'] d IH]; simpl in *; [done |].
  destruct (decide ("children" = k)) as [<- |].
  - injection Hc as ->. destruct v; try done. by destruct (Hv l).
  - f_equal. by apply IH.
Qed.

Lemma omap_prune_filter urls (children : list json) :
  omap (λ c, if doomed urls c then None else Some (prune urls c)) children
  = prune urls <$> filter (λ c, doomed urls c = false) children.
Proof.
  induction children as [| c children IH]; [done |].
  rewrite filter_cons. simpl. destruct (doomed urls c); simpl.
  - apply IH.
  - f_equal. apply IH.
Qed.

(** What a normal sweep returns, given what the walks of the children
    return. *)
Lemma sweep_prunes walk urls children st st' children' :
  (∀ c st st' c', c ∈ children →
     walk (st, c) = Ok (st', c') → c' = prune urls c) →
  sweep walk urls children st = Ok (st', children') →
  children' = omap (λ c, if doomed urls c then None
                         else Some (prune urls c)) children.
Proof.
  revert st' children'.
  induction children as [| c rest IH]; intros st' children' Hw; simpl.
  - by intros [= _ <-].
  - destruct (sweep walk urls rest st) as [[st1 rest'] | e [st1 rest']];
      [| done].
    assert (Hrest : rest' = omap (λ c, if doomed urls c then None
                                       else Some (prune urls c)) rest).
    { apply (IH st1); [| done]. intros; eapply Hw; [by right | done]. }
    subst rest'. clear IH.
    unfold delete_step. simpl.
    destruct c as [| | | | | d]; try done. simpl.
    destruct (dget "type" d) as [ty |] eqn:Hty; [| done].
    destruct (is_str ty "url") eqn:Hurl.
    + assert (Hnf : is_folder d = false).
      { unfold is_folder. rewrite Hty. by apply is_str_url_not_folder. }
      rewrite Hnf.
      destruct (dget "url" d) as [[| | | url | |] |]; simpl;
        try (by intros [= _ <-]).
      destruct (bool_decide (url ∈ urls)); simpl; by intros [= _ <-].
    + assert (Hd : (match dget "url" d with
                    | Some (JStr url) => false && bool_decide (url ∈ urls)
                    | _ => false
                    end) = false).
      { by destruct (dget "url" d) as [[| | | ? | |] |]. }
      rewrite Hd.
      destruct (walk (st1, JObj d)) as [[st2 c'] | e [st2 c']] eqn:Hwalk;
        simpl; [| done].
      intros [= _ <-]. apply Hw in Hwalk; [| left]. simpl in Hwalk.
      by rewrite Hwalk.
Qed.

(** On a well-formed list of children the sweep returns normally. *)
Lemma sweep_total walk urls children st :
  Forall bookmark_node children →
  (∀ c st, c ∈ children → bookmark_node c →
     ∃ st', walk (st, c) = Ok (st', prune urls c)) →
  ∃ st', sweep walk urls children st
         = Ok (st', omap (λ c, if doomed urls c then None
                               else Some (prune urls c)) children).
Proof.
  induction children as [| c rest IH]; intros Hwf Hw; simpl.
  - by eexists.
  - apply Forall_cons in Hwf as [Hc Hrest].
    destruct IH as [st1 ->]; [done | intros; apply Hw; [by right | done] |].
    unfold delete_step. simpl.
    inversion Hc as [d name url Hty Hname Hurl | d name cs Hty Hname Hcs Hall];
      subst c; simpl; rewrite Hty; simpl.
    + rewrite Hurl. unfold is_folder. rewrite Hty. simpl.
      destruct (bool_decide (url ∈ urls)); simpl; by eexists.
    + assert (Hd : (match dget "url" d with
                    | Some (JStr url) => false
                    | _ => false
                    end) = false).
      { by destruct (dget "url" d) as [[| | | ? | |] |]. }
      rewrite Hd.
      destruct (Hw (JObj d) st1) as [st2 Hwalk]; [left | done |].
      rewrite Hwalk. simpl. simpl in Hwalk. by eexists.
Qed.

Lemma bookmark_node_url name url : bookmark_node (url_node name url).
Proof. by eapply url_bookmark. Qed.

Lemma bookmark_node_folder name children :
  Forall bookmark_node children → bookmark_node (folder_node name children).
Proof. intros H. by eapply folder_bookmark. Qed.

(** C2: the walk, which visits the child indices of a folder from the last
    to the first and removes by index, leaves the pruned tree. Whenever it
    returns, the node it returns is [prune] of the node it was given; on a
    well-formed tree it does return; in the pruned folder the children are
    those that are not url-type with a URL in the delete set, in their
    original order, each pruned in turn; and no index it uses is ever out of
    range. *)
Theorem deletion_walk_prunes urls :
  (∀ st j st' j',
     _delete_bookmarks_in_one_folder urls (st, j) = Ok (st', j') →
     j' = prune urls j)
  ∧ (∀ st j,
       bookmark_node j →
       ∃ st', _delete_bookmarks_in_one_folder urls (st, j)
              = Ok (st', prune urls j))
  ∧ (∀ d (children : list json),
       is_folder d = true →
       dget "children" d = Some (JArr children) →
       prune urls (JObj d)
       = JObj (dset "children"
                 (JArr (prune urls <$>
                          filter (λ c, doomed urls c = false) children)) d))
  ∧ (∀ st j e s,
       _delete_bookmarks_in_one_folder urls (st, j) = Raise e s →
       e ≠ IndexError).
Proof.
  split; [| split; [| split]];
    [| | | intros st j e s Hrun;
           unfold _delete_bookmarks_in_one_folder in Hrun; cbn [snd] in Hrun;
           apply delete_bookmarks_rec_raise in Hrun; [| lia];
           by destruct Hrun as [-> | ->]].
  - intros st j. revert st.
    induction j as [j IH] using json_depth_ind. intros st st' j'.
    destruct j as [| | | | | d];
      try (unfold _delete_bookmarks_in_one_folder; simpl; done).
    destruct (is_folder d) eqn:Hf.
    + destruct (dget "children" d) as [v |] eqn:Hc.
      * destruct v as [| | | s | children | cd];
          try (unfold _delete_bookmarks_in_one_folder, is_folder in *;
               cbn [snd delete_bookmarks_rec];
               destruct (dget "type" d); [| done]; rewrite Hf, Hc; done).
        -- unfold _delete_bookmarks_in_one_folder, is_folder in *.
           cbn [snd delete_bookmarks_rec].
           destruct (dget "type" d) eqn:Hty; [| done]. rewrite Hf, Hc.
           destruct s; [| done]. intros [= <- <-]. symmetry.
           eapply prune_folder_no_list; done.
        -- rewrite delete_folder_unfold with (children := children) by done.
           destruct (sweep _ urls children st) as [[st1 cs'] | e [st1 cs']]
             eqn:Hsweep; [| done].
           cbn [on_state]. intros [= <- <-].
           rewrite prune_folder_omap with (children := children) by done.
           do 3 f_equal. eapply sweep_prunes; [| done].
           intros c st2 st3 c' Hin. apply IH.
           apply json_depth_elem in Hin. apply json_depth_dget in Hc. lia.
        -- unfold _delete_bookmarks_in_one_folder, is_folder in *.
           cbn [snd delete_bookmarks_rec].
           destruct (dget "type" d) eqn:Hty; [| done]. rewrite Hf, Hc.
           destruct cd; [| done]. intros [= <- <-]. symmetry.
           eapply prune_folder_no_list; done.
      * unfold _delete_bookmarks_in_one_folder, is_folder in *.
        cbn [snd delete_bookmarks_rec].
        destruct (dget "type" d); [| done]. by rewrite Hf, Hc.
    + rewrite prune_not_folder by done.
      unfold _delete_bookmarks_in_one_folder, is_folder in *.
      cbn [snd delete_bookmarks_rec].
      destruct (dget "type" d); [| done]. rewrite Hf. simpl.
      by intros [= <- <-].
  - intros st j. revert st.
    induction j as [j IH] using json_depth_ind. intros st Hwf.
    inversion Hwf as [d name url Hty Hname Hurl | d name cs Hty Hname Hcs Hall];
      subst j.
    + assert (Hf : is_folder d = false) by (unfold is_folder; by rewrite Hty).
      rewrite prune_not_folder, delete_non_folder by (by rewrite ?Hty).
      by eexists.
    + assert (Hf : is_folder d = true) by (unfold is_folder; by rewrite Hty).
      rewrite delete_folder_unfold with (children := cs) by done.
      rewrite prune_folder_omap with (children := cs) by done.
      destruct (sweep_total (_delete_bookmarks_in_one_folder urls) urls cs st)
        as [st' ->]; [done | | by eexists].
      intros c st1 Hin Hc. apply IH; [| done].
      apply json_depth_elem in Hin. apply json_depth_dget in Hcs. lia.
  - intros d children Hf Hc.
    rewrite prune_folder_omap with (children := children) by done.
    by rewrite omap_prune_filter.
Qed.

(** Deleting the two adjacent URL children at indices 2 and 3 of a
    five-child folder leaves the other three in their order. *)
Lemma deletion_walk_prunes_witness :
  ∃ st',
    _delete_bookmarks_in_one_folder ["http://b.example"; "http://c.example"]
      ((∅, default_profile), bar_five)
    = Ok (st', bar_three).
Proof.
  apply (proj1 (proj2 (deletion_walk_prunes
                         ["http://b.example"; "http://c.example"]))
           (∅, default_profile) bar_five).
  repeat first [apply bookmark_node_url | apply bookmark_node_folder
               | constructor].
Defined.

(** ** The aggregation walk *)

Lemma py_iter_depth v children c :
  py_iter v = inr children → c ∈ children → (json_depth c ≤ json_depth v)%nat.
Proof.
  destruct v as [| | | s | l | d]; simpl; try done; intros [= <-] Hc.
  - apply list_elem_of_fmap in Hc as (? & -> & _). simpl. lia.
  - apply json_depth_elem in Hc. simpl in Hc. lia.
  - apply list_elem_of_fmap in Hc as (? & -> & _). simpl. lia.
Qed.

Lemma fetch_bookmarks_rec_fuel n m j path_ls st :
  json_depth j < n → json_depth j < m →
  fetch_bookmarks_rec n j path_ls st = fetch_bookmarks_rec m j path_ls st.
Proof.
  revert m j path_ls st.
  induction n as [| n IH]; intros m j path_ls st Hn Hm; [lia |].
  destruct m as [| m]; [lia |]. simpl.
  destruct j as [| | | | | d]; try done.
  destruct (dget "type" d) as [ty |]; [| done].
  destruct (is_str ty "url"); [done |].
  destruct (is_str ty "folder"); [| done].
  destruct (dget "name" d) as [name |]; [| done].
  destruct (dget "children" d) as [v |] eqn:Hc; [| done].
  destruct (py_iter v) as [e | children] eqn:Hiter; [done |]. simpl.
  apply for_each_ext. intros c st' Hin.
  pose proof (py_iter_depth _ _ _ Hiter Hin).
  apply json_depth_dget in Hc. apply IH; lia.
Qed.

(** The walk of a url node and of a folder. *)
Lemma fetch_url_unfold d path_ls st :
  is_url d = true →
  _fetch_bookmarks_from_one_type (JObj d) path_ls st
  = record_bookmark d path_ls st.
Proof.
  unfold is_url, _fetch_bookmarks_from_one_type. intros H.
  cbn [fetch_bookmarks_rec].
  destruct (dget "type" d); [| done]. by rewrite H.
Qed.

Lemma fetch_rec_folder n d name children path_ls st :
  is_folder d = true →
  dget "name" d = Some name →
  dget "children" d = Some (JArr children) →
  fetch_bookmarks_rec (S n) (JObj d) path_ls st
  = for_each (λ c, fetch_bookmarks_rec n c (path_ls ++ [name])) children st.
Proof.
  unfold is_folder. intros Hf Hname Hc. cbn [fetch_bookmarks_rec].
  destruct (dget "type" d) as [ty |]; [| done].
  destruct (is_str ty "url") eqn:Hurl.
  { apply is_str_url_not_folder in Hurl. congruence. }
  by rewrite Hf, Hname, Hc.
Qed.

Lemma fetch_folder_unfold d name children path_ls st :
  is_folder d = true →
  dget "name" d = Some name →
  dget "children" d = Some (JArr children) →
  _fetch_bookmarks_from_one_type (JObj d) path_ls st
  = for_each (λ c, _fetch_bookmarks_from_one_type c (path_ls ++ [name]))
      children st.
Proof.
  intros Hf Hname Hc. unfold _fetch_bookmarks_from_one_type at 1.
  rewrite (fetch_rec_folder _ d name children) by done.
  apply for_each_ext. intros c st' Hin.
  unfold _fetch_bookmarks_from_one_type.
  apply json_depth_elem in Hin. apply json_depth_dget in Hc.
  apply fetch_bookmarks_rec_fuel; lia.
Qed.

Lemma join_path_strings names : join_path (JStr <$> names) = inr (slash_join names).
Proof.
  induction names as [| s names IH]; [done |].
  destruct names as [| s' names]; [done |].
  change (join_path (JStr <$> s :: s' :: names))
    with (let? r := join_path (JStr <$> s' :: names) in
          inr (s +:+ "/" +:+ r)).
  by rewrite IH.
Qed.

Lemma url_paths_url d ancestors url :
  is_url d = true → dget "url" d = Some (JStr url) →
  url_paths (JObj d) ancestors = [(url, ancestors)].
Proof. intros H1 H2. simpl. by rewrite H1, H2. Qed.

Lemma url_paths_folder d ancestors name (children : list json) :
  is_folder d = true →
  dget "name" d = Some (JStr name) →
  dget "children" d = Some (JArr children) →
  url_paths (JObj d) ancestors
  = c ← children; url_paths c (ancestors ++ [name]).
Proof.
  intros Hf Hname Hc. simpl.
  assert (Hu : is_url d = false).
  { unfold is_url, is_folder in *. destruct (dget "type" d) as [ty |]; [| done].
    destruct (is_str ty "url") eqn:Hurl; [| done].
    apply is_str_url_not_folder in Hurl. congruence. }
  rewrite Hu, Hf, Hname. clear Hu Hf Hname.
  induction d as [| [k v] d IH]; simpl in *; [done |].
  destruct (decide ("children" = k)) as [<- |].
  - by injection Hc as ->.
  - by apply IH.
Qed.

(** *** Recording a url node *)

Lemma record_bookmark_effect d name url ancestors st :
  dget "name" d = Some name →
  dget "url" d = Some (JStr url) →
  ∃ st',
    record_bookmark d (JStr <$> ancestors) st = Ok st'
    ∧ Profile.bookmarks st'.2
      = <[url := slash_join ancestors]> (Profile.bookmarks st.2)
    ∧ Profile.id st'.2 = Profile.id st.2
    ∧ (∃ b, st'.1 !! url = Some b
            ∧ Bookmark.profiles b !! Profile.id st.2
              = Some (slash_join ancestors))
    ∧ (∀ url', url' ≠ url → st'.1 !! url' = st.1 !! url').
Proof.
  intros Hname Hurl. destruct st as [idx p]. unfold record_bookmark.
  rewrite Hurl, join_path_strings. simpl.
  destruct (idx !! url) as [b |] eqn:Hb.
  - eexists. split; [done |]. simpl. repeat split.
    + eexists. rewrite lookup_insert_eq. split; [done |]. simpl.
      by rewrite lookup_insert_eq.
    + intros url' Hne. by rewrite lookup_insert_ne.
  - rewrite Hname. eexists. split; [done |]. simpl. repeat split.
    + eexists. rewrite lookup_insert_eq. split; [done |]. simpl.
      by rewrite lookup_singleton_eq.
    + intros url' Hne. by rewrite lookup_insert_ne.
Qed.

Lemma indexed_app st found1 found2 :
  indexed st found1 → indexed st found2 → indexed st (found1 ++ found2).
Proof.
  intros H1 H2 url names Hin. apply elem_of_app in Hin as [Hin | Hin]; eauto.
Qed.

Lemma record_paths_app m found1 found2 :
  record_paths m (found1 ++ found2)
  = record_paths (record_paths m found1) found2.
Proof. apply foldl_app. Qed.

Lemma walk_records_url d name url :
  is_url d = true →
  dget "name" d = Some name →
  dget "url" d = Some (JStr url) →
  walk_records (_fetch_bookmarks_from_one_type (JObj d)) (url_paths (JObj d)).
Proof.
  intros Hu Hname Hurl ancestors st.
  rewrite fetch_url_unfold, (url_paths_url d ancestors url) by done.
  destruct (record_bookmark_effect d name url ancestors st)
    as (st' & -> & Hbm & Hid & (b & Hb & Hpath) & Hother); [done.. |].
  exists st'. repeat split; try done.
  intros found Hfound url' names Hin.
  destruct (decide (url' = url)) as [-> | Hne].
  - exists b, (slash_join ancestors). rewrite Hbm, Hid, lookup_insert_eq. done.
  - apply elem_of_app in Hin as [Hin | Hin];
      [| apply list_elem_of_singleton in Hin; congruence].
    destruct (Hfound url' names Hin) as (b' & path & H1 & H2 & H3).
    exists b', path. rewrite Hother, Hbm, Hid, lookup_insert_ne by done. done.
Qed.

Lemma walk_records_children (children : list json) ancestors st :
  Forall (λ c, walk_records (_fetch_bookmarks_from_one_type c) (url_paths c))
         children →
  ∃ st',
    for_each (λ c, _fetch_bookmarks_from_one_type c (JStr <$> ancestors))
      children st = Ok st'
    ∧ Profile.bookmarks st'.2
      = record_paths (Profile.bookmarks st.2)
          (c ← children; url_paths c ancestors)
    ∧ Profile.id st'.2 = Profile.id st.2
    ∧ ∀ found, indexed st found →
        indexed st' (found ++ (c ← children; url_paths c ancestors)).
Proof.
  revert st. induction children as [| c children IH]; intros st Hall.
  - exists st. simpl. repeat split; try done. intros found.
    by rewrite app_nil_r.
  - apply Forall_cons in Hall as [Hc Hall].
    destruct (Hc ancestors st) as (st1 & Hrun & Hbm1 & Hid1 & Hidx1).
    destruct (IH st1 Hall) as (st' & Hrest & Hbm & Hid & Hidx).
    exists st'. simpl. rewrite Hrun. simpl. split; [done |].
    rewrite record_paths_app, <- Hbm1, Hbm, Hid, Hid1. repeat split.
    intros found Hfound. rewrite app_assoc. by apply Hidx, Hidx1.
Qed.

Lemma walk_records_node j :
  bookmark_node j →
  walk_records (_fetch_bookmarks_from_one_type j) (url_paths j).
Proof.
  induction j as [j IH] using json_depth_ind. intros Hwf.
  inversion Hwf as [d name url Hty Hname Hurl | d name cs Hty Hname Hcs Hall];
    subst j.
  - eapply walk_records_url; [| done..]. unfold is_url. by rewrite Hty.
  - assert (Hf : is_folder d = true) by (unfold is_folder; by rewrite Hty).
    intros ancestors st.
    rewrite fetch_folder_unfold with (name := JStr name) (children := cs)
      by done.
    rewrite url_paths_folder with (name := name) (children := cs) by done.
    replace ((JStr <$> ancestors) ++ [JStr name])
      with (JStr <$> (ancestors ++ [name])) by by rewrite fmap_app.
    apply walk_records_children.
    rewrite Forall_forall in Hall. apply Forall_forall. intros c Hin.
    apply IH; [| by apply Hall].
    apply json_depth_elem in Hin. apply json_depth_dget in Hcs. lia.
Qed.

Lemma record_bookmark_raise d path_ls st e s :
  record_bookmark d path_ls st = Raise e s → e = KeyError ∨ e = TypeError.
Proof.
  unfold record_bookmark, attempt. destruct st as [idx p].
  destruct (dget "url" d) as [url |]; [| intros [= <- _]; by left].
  destruct (join_path path_ls) as [e' | path] eqn:Hjoin.
  { intros [= <- _]. right. clear -Hjoin. revert e' Hjoin.
    induction path_ls as [| x l IH]; intros e'; [done |].
    destruct x as [| | | x | |]; try (destruct l; by intros [= <-]).
    destruct l as [| y l]; [done |].
    change (join_path (JStr x :: y :: l))
      with (let? r := join_path (y :: l) in inr (x +:+ "/" +:+ r)).
    destruct (join_path (y :: l)) as [e1 | r]; [| done].
    intros [= <-]. by apply IH. }
  destruct url as [| | | url | |]; try (intros [= <- _]; by right).
  destruct (idx !! url); [done |].
  destruct (dget "name" d); [done |]. intros [= <- _]. by left.
Qed.

(** The aggregation walk raises nothing but [KeyError] and [TypeError]:
    the depth of the document bounds the recursion. *)
Lemma fetch_bookmarks_rec_raise n j path_ls st e s :
  json_depth j < n →
  fetch_bookmarks_rec n j path_ls st = Raise e s →
  e = KeyError ∨ e = TypeError.
Proof.
  revert j path_ls st s.
  induction n as [| n IH]; intros j path_ls st s Hn; [lia |].
  cbn [fetch_bookmarks_rec].
  destruct j as [| | | | | d]; try (intros [= <- _]; by right).
  destruct (dget "type" d) as [ty |]; [| intros [= <- _]; by left].
  destruct (is_str ty "url"); [apply record_bookmark_raise |].
  destruct (is_str ty "folder"); [| done].
  destruct (dget "name" d) as [name |]; [| intros [= <- _]; by left].
  destruct (dget "children" d) as [v |] eqn:Hv; [| intros [= <- _]; by left].
  destruct (py_iter v) as [e' | children] eqn:Hiter.
  { destruct v; try done; simpl in Hiter; injection Hiter as <-;
      intros [= <- _]; by right. }
  cbn [attempt]. intros Hloop.
  apply for_each_raise in Hloop as (c & s0 & Hin & Hc).
  apply IH in Hc; [done |].
  pose proof (py_iter_depth _ _ _ Hiter Hin). apply json_depth_dget in Hv. lia.
Qed.

(** *** What a walk that returns has recorded *)

Lemma fetch_rec_folder_iter n d name v children path_ls st :
  is_folder d = true →
  dget "name" d = Some name →
  dget "children" d = Some v →
  py_iter v = inr children →
  fetch_bookmarks_rec (S n) (JObj d) path_ls st
  = for_each (λ c, fetch_bookmarks_rec n c (path_ls ++ [name])) children st.
Proof.
  unfold is_folder. intros Hf Hname Hc Hiter. cbn [fetch_bookmarks_rec].
  destruct (dget "type" d) as [ty |]; [| done].
  destruct (is_str ty "url") eqn:Hurl.
  { apply is_str_url_not_folder in Hurl. congruence. }
  by rewrite Hf, Hname, Hc, Hiter.
Qed.

Lemma fetch_folder_iter_unfold d name v children path_ls st :
  is_folder d = true →
  dget "name" d = Some name →
  dget "children" d = Some v →
  py_iter v = inr children →
  _fetch_bookmarks_from_one_type (JObj d) path_ls st
  = for_each (λ c, _fetch_bookmarks_from_one_type c (path_ls ++ [name]))
      children st.
Proof.
  intros Hf Hname Hc Hiter. unfold _fetch_bookmarks_from_one_type at 1.
  rewrite (fetch_rec_folder_iter _ d name v children) by done.
  apply for_each_ext. intros c st' Hin.
  unfold _fetch_bookmarks_from_one_type.
  pose proof (py_iter_depth _ _ _ Hiter Hin). apply json_depth_dget in Hc.
  apply fetch_bookmarks_rec_fuel; lia.
Qed.

(** A walk that returns went through a url node or a folder with a name
    and children, or a node of another type. *)
Lemma fetch_ok_cases d path_ls st st' :
  _fetch_bookmarks_from_one_type (JObj d) path_ls st = Ok st' →
  (is_url d = true ∧ record_bookmark d path_ls st = Ok st')
  ∨ (is_url d = false ∧ is_folder d = true
     ∧ ∃ name v children,
         dget "name" d = Some name ∧ dget "children" d = Some v
         ∧ py_iter v = inr children
         ∧ for_each (λ c, _fetch_bookmarks_from_one_type c (path_ls ++ [name]))
             children st = Ok st')
  ∨ (is_url d = false ∧ is_folder d = false ∧ st' = st).
Proof.
  intros Hrun. destruct (is_url d) eqn:Hu.
  { left. split; [done |]. by rewrite fetch_url_unfold in Hrun. }
  right. destruct (is_folder d) eqn:Hf.
  - left. split; [done |]. split; [done |].
    destruct (dget "name" d) as [name |] eqn:Hname.
    2:{ unfold _fetch_bookmarks_from_one_type in Hrun.
        cbn [fetch_bookmarks_rec] in Hrun. unfold is_url, is_folder in Hu, Hf.
        destruct (dget "type" d) as [ty |]; [| done].
        by rewrite Hu, Hf, Hname in Hrun. }
    destruct (dget "children" d) as [v |] eqn:Hv.
    2:{ unfold _fetch_bookmarks_from_one_type in Hrun.
        cbn [fetch_bookmarks_rec] in Hrun. unfold is_url, is_folder in Hu, Hf.
        destruct (dget "type" d) as [ty |]; [| done].
        by rewrite Hu, Hf, Hname, Hv in Hrun. }
    destruct (py_iter v) as [e | children] eqn:Hiter.
    { unfold _fetch_bookmarks_from_one_type in Hrun.
      cbn [fetch_bookmarks_rec] in Hrun. unfold is_url, is_folder in Hu, Hf.
      destruct (dget "type" d) as [ty |]; [| done].
      by rewrite Hu, Hf, Hname, Hv, Hiter in Hrun. }
    exists name, v, children. repeat split; try done.
    by rewrite (fetch_folder_iter_unfold d name v children) in Hrun.
  - right. split; [done |]. split; [done |].
    unfold _fetch_bookmarks_from_one_type in Hrun.
    cbn [fetch_bookmarks_rec] in Hrun. unfold is_url, is_folder in Hu, Hf.
    destruct (dget "type" d) as [ty |]; [| done]. rewrite Hu, Hf in Hrun.
    by injection Hrun as <-.
Qed.

Lemma fetch_ok_object j path_ls st st' :
  _fetch_bookmarks_from_one_type j path_ls st = Ok st' → ∃ d, j = JObj d.
Proof.
  unfold _fetch_bookmarks_from_one_type.
  destruct j; try done. intros _. by eexists.
Qed.

Lemma join_path_inr path_ls path :
  join_path path_ls = inr path →
  ∃ names, path_ls = JStr <$> names ∧ path = slash_join names.
Proof.
  revert path. induction path_ls as [| x path_ls IH]; intros path.
  - intros [= <-]. by exists [].
  - destruct x as [| | | s | |]; try (by destruct path_ls).
    destruct path_ls as [| y path_ls].
    + intros [= <-]. by exists [s].
    + change (join_path (JStr s :: y :: path_ls))
        with (let? r := join_path (y :: path_ls) in inr (s +:+ "/" +:+ r)).
      destruct (join_path (y :: path_ls)) as [e | r]; [done |].
      intros [= <-]. destruct (IH r eq_refl) as (names & Hnames & ->).
      exists (s :: names). split; [by rewrite Hnames |].
      destruct names; [done |]. done.
Qed.

(** Below a folder whose name is not a string no url node can be recorded:
    a walk that returns has visited none and changed nothing. *)
Lemma fetch_ok_unjoinable j path_ls st st' :
  (∀ names, path_ls ≠ JStr <$> names) →
  _fetch_bookmarks_from_one_type j path_ls st = Ok st' → st' = st.
Proof.
  revert path_ls st st'. induction j as [j IH] using json_depth_ind.
  intros path_ls st st' Hbad Hrun.
  destruct (fetch_ok_object _ _ _ _ Hrun) as [d ->].
  destruct (fetch_ok_cases _ _ _ _ Hrun)
    as [[_ Hrec] | [(_ & _ & name & v & cs & Hname & Hv & Hiter & Hloop)
                   | (_ & _ & ->)]]; [| | done].
  - unfold record_bookmark, attempt in Hrec.
    destruct (dget "url" d); [| done].
    destruct (join_path path_ls) as [e | path] eqn:Hjoin; [done |].
    apply join_path_inr in Hjoin as (names & -> & _). by destruct (Hbad names).
  - symmetry.
    pose proof (for_each_rel_in eq true
                  (λ c, _fetch_bookmarks_from_one_type c (path_ls ++ [name]))
                  cs st) as H.
    rewrite Hloop in H. apply H; [| done].
    intros c s Hin Hcov.
    destruct (_fetch_bookmarks_from_one_type c (path_ls ++ [name]) s)
      as [s' | e s'] eqn:Hc; [| by specialize (Hcov eq_refl)].
    simpl. symmetry. eapply IH; [| | exact Hc].
    + pose proof (py_iter_depth _ _ _ Hiter Hin).
      apply json_depth_dget in Hv. lia.
    + intros names Heq.
      destruct names as [| n names _] using rev_ind.
      { by destruct path_ls. }
      rewrite fmap_app in Heq. apply app_inj_tail in Heq as [Heq _].
      by apply (Hbad names).
Qed.

Lemma recorded_nil st : recorded st st [].
Proof.
  split; [done |]. split; [done |]. intros before. by rewrite app_nil_r.
Qed.

Lemma recorded_app st st1 st2 found1 found2 :
  recorded st st1 found1 → recorded st1 st2 found2 →
  recorded st st2 (found1 ++ found2).
Proof.
  intros (Hbm1 & Hid1 & Hidx1) (Hbm2 & Hid2 & Hidx2). split; [| split].
  - by rewrite record_paths_app, <- Hbm1.
  - congruence.
  - intros before Hbefore. rewrite app_assoc. by apply Hidx2, Hidx1.
Qed.

Lemma record_bookmark_ok d ancestors st st' :
  record_bookmark d (JStr <$> ancestors) st = Ok st' →
  ∃ url, dget "url" d = Some (JStr url) ∧ recorded st st' [(url, ancestors)].
Proof.
  destruct st as [idx p]. unfold record_bookmark.
  destruct (dget "url" d) as [[| | | url | |] |]; try done;
    rewrite join_path_strings; try done.
  cbn [attempt]. intros Hrun. exists url. split; [done |].
  assert (Hgoal : ∀ b,
            Bookmark.profiles b !! Profile.id p = Some (slash_join ancestors) →
            recorded (idx, p)
              (<[url := b]> idx,
               Profile.set_bookmarks
                 (<[url := slash_join ancestors]> (Profile.bookmarks p)) p)
              [(url, ancestors)]).
  { intros b Hb. split; [done |]. split; [done |].
    intros before Hbefore url' names Hin. simpl.
    destruct (decide (url' = url)) as [-> | Hne].
    - exists b, (slash_join ancestors). by rewrite !lookup_insert_eq.
    - apply elem_of_app in Hin as [Hin | Hin];
        [| apply list_elem_of_singleton in Hin; congruence].
      destruct (Hbefore url' names Hin) as (b' & path & H1 & H2 & H3).
      exists b', path. by rewrite !lookup_insert_ne. }
  destruct (idx !! url) as [b |].
  - injection Hrun as <-. apply Hgoal. simpl. by rewrite lookup_insert_eq.
  - destruct (dget "name" d) as [name |]; [| done].
    injection Hrun as <-. apply Hgoal. simpl. by rewrite lookup_singleton_eq.
Qed.

Lemma url_paths_neither d ancestors :
  is_url d = false → is_folder d = false → url_paths (JObj d) ancestors = [].
Proof. intros H1 H2. simpl. by rewrite H1, H2. Qed.

Lemma url_paths_folder_no_name d ancestors name :
  is_url d = false →
  dget "name" d = Some name → (∀ s, name ≠ JStr s) →
  url_paths (JObj d) ancestors = [].
Proof.
  intros Hu Hname Hns. simpl. rewrite Hu, Hname.
  destruct (is_folder d); [| done]. destruct name; try done. by destruct (Hns s).
Qed.

Lemma url_paths_folder_no_list d ancestors v :
  is_url d = false →
  dget "children" d = Some v → (∀ l, v ≠ JArr l) →
  url_paths (JObj d) ancestors = [].
Proof.
  intros Hu Hv Hnl. simpl. rewrite Hu.
  destruct (is_folder d); [| done].
  destruct (dget "name" d) as [[| | | name | |] |]; try done.
  clear Hu. induction d as [| [k v'] d IH]; simpl in *; [done |].
  destruct (decide ("children" = k)) as [<- |].
  - injection Hv as ->. destruct v; try done. by destruct (Hnl l).
  - by apply IH.
Qed.

Lemma py_iter_no_list v children :
  py_iter v = inr children → (∀ l, v ≠ JArr l) →
  ∀ c, c ∈ children → ∃ s, c = JStr s.
Proof.
  destruct v as [| | | s | l | d]; simpl; try done; intros [= <-] Hnl c Hc.
  - apply list_elem_of_fmap in Hc as (? & -> & _). by eexists.
  - by destruct (Hnl l).
  - apply list_elem_of_fmap in Hc as (? & -> & _). by eexists.
Qed.

Lemma json_str_cases x : (∃ s, x = JStr s) ∨ (∀ s, x ≠ JStr s).
Proof. destruct x; try (by right); left; by eexists. Qed.

Lemma json_arr_cases x : (∃ l, x = JArr l) ∨ (∀ l, x ≠ JArr l).
Proof. destruct x; try (by right); left; by eexists. Qed.

(** Whatever the document, a walk that returns has recorded the url nodes
    of [url_paths], in order. *)
Lemma fetch_ok_records j ancestors st st' :
  _fetch_bookmarks_from_one_type j (JStr <$> ancestors) st = Ok st' →
  recorded st st' (url_paths j ancestors).
Proof.
  revert ancestors st st'. induction j as [j IH] using json_depth_ind.
  intros ancestors st st' Hrun.
  destruct (fetch_ok_object _ _ _ _ Hrun) as [d ->].
  destruct (fetch_ok_cases _ _ _ _ Hrun)
    as [[Hu Hrec] | [(Hu & Hf & name & v & cs & Hname & Hv & Hiter & Hloop)
                    | (Hu & Hf & ->)]].
  - destruct (record_bookmark_ok _ _ _ _ Hrec) as (url & Hurl & Hrecorded).
    by rewrite (url_paths_url d ancestors url).
  - destruct (json_str_cases name) as [[n ->] | Hns].
    2:{ rewrite (url_paths_folder_no_name d ancestors name) by done.
        assert (st' = st) as ->; [| apply recorded_nil]. symmetry.
        pose proof (for_each_rel_in eq true
                      (λ c, _fetch_bookmarks_from_one_type c
                              ((JStr <$> ancestors) ++ [name])) cs st) as H.
        rewrite Hloop in H. apply H; [| done]. clear H.
        intros c s Hin Hcov.
        destruct (_fetch_bookmarks_from_one_type c _ s) as [s' | e s'] eqn:Hc;
          [| by specialize (Hcov eq_refl)].
        simpl. symmetry. eapply fetch_ok_unjoinable; [| exact Hc].
        intros names Heq.
        destruct names as [| n names _] using rev_ind.
        { by destruct (JStr <$> ancestors). }
        rewrite fmap_app in Heq. apply app_inj_tail in Heq as [_ Heq].
        by apply (Hns n). }
    destruct (json_arr_cases v) as [[l ->] | Hnl].
    2:{ rewrite (url_paths_folder_no_list d ancestors v) by done.
        assert (st' = st) as ->; [| apply recorded_nil]. symmetry.
        pose proof (for_each_rel_in eq true
                      (λ c, _fetch_bookmarks_from_one_type c
                              ((JStr <$> ancestors) ++ [JStr n])) cs st) as H.
        rewrite Hloop in H. apply H; [| done]. clear H.
        intros c s Hin Hcov.
        destruct (py_iter_no_list _ _ Hiter Hnl c Hin) as [s0 ->].
        by specialize (Hcov eq_refl). }
    injection Hiter as <-.
    rewrite (url_paths_folder d ancestors n l) by done.
    replace ((JStr <$> ancestors) ++ [JStr n])
      with (JStr <$> (ancestors ++ [n])) in Hloop by by rewrite fmap_app.
    assert (Hchildren : ∀ c, c ∈ l → ∀ st st',
              _fetch_bookmarks_from_one_type c (JStr <$> (ancestors ++ [n])) st
              = Ok st' →
              recorded st st' (url_paths c (ancestors ++ [n]))).
    { intros c Hin. apply IH.
      apply json_depth_elem in Hin. apply json_depth_dget in Hv. lia. }
    clear IH Hrun Hv. revert st Hloop.
    induction l as [| c l IHl]; intros st Hloop.
    + injection Hloop as <-. apply recorded_nil.
    + simpl in Hloop.
      destruct (_fetch_bookmarks_from_one_type c _ st) as [st1 | e st1] eqn:Hc;
        [| done].
      simpl in Hloop. change (c :: l) with ([c] ++ l). rewrite bind_app.
      simpl. rewrite app_nil_r. eapply recorded_app.
      * apply Hchildren; [left | done].
      * apply IHl; [| done]. intros c' Hin. apply Hchildren. by right.
  - rewrite url_paths_neither by done. apply recorded_nil.
Qed.

Lemma for_each_fmap {A B S} (g : A → B) (body : B → S → result S) l s :
  for_each (λ x, body (g x)) l s = for_each body (g <$> l) s.
Proof.
  revert s. induction l as [| x l IH]; intros s; simpl; [done |].
  destruct (body (g x) s); simpl; [apply IH | done].
Qed.

Lemma indexed_nil st : indexed st [].
Proof. intros url names Hin. by apply elem_of_nil in Hin. Qed.

(** C9: a walk that returns has recorded, for every url node in visiting
    order, the ['/']-join of the ancestor list: the list the walk was started
    with, extended by one name per enclosing folder; the index holds the same
    path for the profile. On a well-formed tree the walk does return. Each
    root of a bookmark file is walked from the single empty name. *)
Theorem folder_paths_recorded :
  (∀ j ancestors st st',
     _fetch_bookmarks_from_one_type j (JStr <$> ancestors) st = Ok st' →
     Profile.bookmarks st'.2
     = record_paths (Profile.bookmarks st.2) (url_paths j ancestors)
     ∧ indexed st' (url_paths j ancestors))
  ∧ (∀ j ancestors st,
       bookmark_node j →
       ∃ st', _fetch_bookmarks_from_one_type j (JStr <$> ancestors) st = Ok st')
  ∧ (∀ fs idx profile data roots,
       fs_files fs !! (Profile.profile_dir profile // "Bookmarks")
       = Some (Json data) →
       bookmark_roots data roots →
       ∃ st',
         fetch_bookmarks_of_profile fs (idx, profile) = Ok st'
         ∧ Profile.bookmarks st'.2
           = record_paths (Profile.bookmarks profile)
               (root ← roots.*2; url_paths root [""])
         ∧ indexed st' (root ← roots.*2; url_paths root [""]))
  ∧ (∀ d ancestors url,
       is_url d = true → dget "url" d = Some (JStr url) →
       url_paths (JObj d) ancestors = [(url, ancestors)])
  ∧ (∀ d ancestors name (children : list json),
       is_folder d = true →
       dget "name" d = Some (JStr name) →
       dget "children" d = Some (JArr children) →
       url_paths (JObj d) ancestors
       = c ← children; url_paths c (ancestors ++ [name])).
Proof.
  split; [| split; [| split; [| split]]].
  - intros j ancestors st st' Hrun.
    destruct (fetch_ok_records _ _ _ _ Hrun) as (Hbm & _ & Hidx).
    split; [done |]. apply (Hidx []), indexed_nil.
  - intros j ancestors st Hwf.
    destruct (walk_records_node j Hwf ancestors st) as (st' & Hrun & _).
    by exists st'.
  - intros fs idx profile data roots Hfile [Hroots Hwf].
    unfold fetch_bookmarks_of_profile.
    assert (Hisfile : is_file fs (Profile.profile_dir profile // "Bookmarks")
                      = true).
    { unfold is_file. apply bool_decide_eq_true. by rewrite Hfile. }
    rewrite Hisfile. cbn [negb]. unfold walk_bookmark_file, read_json.
    rewrite Hfile, Hroots.
    cbn [items attempt].
    rewrite for_each_ext
      with (g := λ x, _fetch_bookmarks_from_one_type x.2 (JStr <$> [""]))
      by (by intros [? ?] ? _).
    rewrite (for_each_fmap snd (λ c, _fetch_bookmarks_from_one_type c
                                       (JStr <$> [""]))).
    edestruct (walk_records_children (roots.*2) [""]) as
      (st' & -> & Hbm & _ & Hidx).
    { apply Forall_fmap. eapply Forall_impl; [exact Hwf |].
      intros [k root] Hroot. by apply walk_records_node. }
    exists st'. split; [done |]. split; [exact Hbm |].
    apply (Hidx []), indexed_nil.
  - intros. by apply url_paths_url.
  - intros. by apply url_paths_folder.
Qed.

(** A URL nested under the folders [Bar] then [Work] is recorded with the
    folder path ["/Bar/Work"]. *)
Lemma folder_paths_recorded_witness :
  ∃ st',
    fetch_bookmarks_of_profile fs_sample (∅, default_profile) = Ok st'
    ∧ Profile.bookmarks st'.2 !! "http://x.example" = Some "/Bar/Work".
Proof.
  destruct (proj1 (proj2 (proj2 folder_paths_recorded)) fs_sample ∅
              default_profile
              default_bookmarks
              [("bookmark_bar", bar_five)])
    as (st' & Hrun & Hbm & _).
  - reflexivity.
  - split; [reflexivity |].
    repeat first [apply bookmark_node_url | apply bookmark_node_folder
                 | constructor].
  - exists st'. split; [exact Hrun |]. rewrite Hbm. reflexivity.
Defined.

(** ** Resync: running a discovery twice *)

(** *** Statements that accumulate into one component *)

Section AccumulatorFacts.
Context {S V X : Type} (get : V → X) (put : X → V → V) (op : X → X → X)
        (unit : X).
Hypothesis put_get : ∀ v, put (get v) v = v.
Hypothesis get_put : ∀ x v, get (put x v) = x.
Hypothesis put_put : ∀ x y v, put x (put y v) = put x v.
Hypothesis op_unit : ∀ x, op unit x = x.
Hypothesis op_absorb : ∀ x y, op x (op x y) = op x y.




End AccumulatorFacts.


(** *** Extension discovery accumulates into the profile's extension set *)










(** *** Bookmark discovery accumulates into the profile's URL mapping *)











(** *** The three discovery operations *)





(** *** The index is rebuilt from the files *)


Section RebuildFacts.
Context {S V X : Type} (get : V → X) (put : X → V → V) (op : X → X → X)
        (unit : X).
Hypothesis put_get : ∀ v, put (get v) v = v.
Hypothesis get_put : ∀ x v, get (put x v) = x.
Hypothesis put_put : ∀ x y v, put x (put y v) = put x v.
Hypothesis op_unit : ∀ x, op unit x = x.


End RebuildFacts.






(** ** Index invariants *)

Lemma for_each_value_rel {S V} (R : S → S → Prop) `{!PreOrder R} strict
    (body : S * V → result (S * V)) d s :
  (∀ s v, covers strict (body (s, v)) → R s (state_of (body (s, v))).1) →
  covers strict (for_each_value body d s) →
  R s (state_of (for_each_value body d s)).1.
Proof.
  intros Hbody. revert s. induction d as [| [k v] d IH]; intros s Hcov; simpl.
  - done.
  - simpl in Hcov. specialize (Hbody s v).
    destruct (body (s, v)) as [[s1 v1] | e [s1 v1]]; simpl in *.
    + etrans; [apply Hbody; by intros _ |].
      specialize (IH s1).
      destruct (for_each_value body d s1) as [[s2 d2] | e [s2 d2]];
        simpl in *; by apply IH.
    + by apply Hbody.
Qed.

Lemma dget_elem_of {V} k v (d : list (string * V)) :
  NoDup (dkeys d) → (k, v) ∈ d → dget k d = Some v.
Proof.
  unfold dkeys. induction d as [| [k0 v0] d IH]; simpl; intros Hnd Hin.
  - by apply elem_of_nil in Hin.
  - apply NoDup_cons in Hnd as [Hk0 Hnd].
    apply elem_of_cons in Hin as [[= -> ->] | Hin].
    + by rewrite decide_True.
    + rewrite decide_False; [by apply IH |].
      intros ->. apply Hk0. apply list_elem_of_fmap. by exists (k0, v).
Qed.

Lemma dget_split {V} k v (d : list (string * V)) :
  dget k d = Some v →
  ∃ pre rest, d = pre ++ (k, v) :: rest ∧ (k ∉ dkeys pre)
              ∧ ∀ v', dset k v' d = pre ++ (k, v') :: rest.
Proof.
  induction d as [| [k0 v0] d IH]; simpl; [done |].
  destruct (decide (k = k0)) as [-> | Hne]; intros H.
  - injection H as ->. exists [], d. split; [done |].
    split; [apply not_elem_of_nil | done].
  - destruct (IH H) as (pre & rest & -> & Hpre & Hset).
    exists ((k0, v0) :: pre), rest. split; [done |]. split.
    + unfold dkeys in *. simpl. by apply not_elem_of_cons.
    + intros v'. by rewrite Hset.
Qed.

Section IntegrityFacts.
Context {I K : Type}.
Context (own : I → string → K → Prop) (holds : Profile.t → K → Prop)
        (good : I → Prop).

#[global] Instance sound_preorder : PreOrder (sound own holds good).
Proof.
  split.
  - intros st. split; [done |]. split; [done |]. split; auto.
  - intros st1 st2 st3 (Hid1 & Ho1 & Hg1 & Ha1) (Hid2 & Ho2 & Hg2 & Ha2).
    split; [congruence |]. split; [| split; auto].
    intros pid k Hne. rewrite Ho2 by congruence. by apply Ho1.
Qed.

(** A sound step on the profile in the middle of the dict keeps the whole
    consistent. *)
Lemma sound_middle pre k p rest idx idx' p' :
  consistent own holds good (pre ++ (k, p) :: rest) idx →
  sound own holds good (idx, p) (idx', p') →
  consistent own holds good (pre ++ (k, p') :: rest) idx'.
Proof.
  intros ((Hnodup & Hkeys) & Hagree & Hgood & Hknown)
         (Hid & Hothers & Hg & Ha). simpl in *.
  assert (Hk : Profile.id p = k).
  { apply Hkeys. apply elem_of_app. right. left. }
  assert (Hdkeys : dkeys (pre ++ (k, p') :: rest)
                   = dkeys (pre ++ (k, p) :: rest)).
  { unfold dkeys. by rewrite !fmap_app. }
  assert (Hother : ∀ k' q, (k', q) ∈ pre ++ rest → Profile.id q ≠ Profile.id p).
  { intros k' q Hin.
    assert (Hq : Profile.id q = k').
    { apply Hkeys. apply elem_of_app in Hin as [Hin | Hin];
        apply elem_of_app; [by left | right; by right]. }
    rewrite Hq, Hk. intros ->.
    unfold dkeys in Hnodup. rewrite fmap_app in Hnodup. simpl in Hnodup.
    apply NoDup_app in Hnodup as (_ & Hdisj & Hright).
    apply NoDup_cons in Hright as [Hnotin _].
    apply elem_of_app in Hin as [Hin | Hin].
    - apply (Hdisj k); [| left].
      apply list_elem_of_fmap. by exists (k, q).
    - apply Hnotin. apply list_elem_of_fmap. by exists (k, q). }
  repeat split.
  - by rewrite Hdkeys.
  - intros k' q Hin. apply elem_of_app in Hin as [Hin | Hin].
    + apply Hkeys. apply elem_of_app. by left.
    + apply elem_of_cons in Hin as [[= -> ->] | Hin]; [congruence |].
      apply Hkeys. apply elem_of_app. right. by right.
  - rewrite Forall_app, Forall_cons in Hagree.
    destruct Hagree as (Hpre & Hp & Hrest).
    assert (Hkeep : ∀ l, (∀ kq, kq ∈ l → kq ∈ pre ++ rest) →
              Forall (λ kp, agrees own holds idx kp.2) l →
              Forall (λ kp, agrees own holds idx' kp.2) l).
    { intros l Hl. rewrite !Forall_forall. intros Hall [k' q] Hin j.
      specialize (Hall _ Hin j). simpl in *. rewrite Hall.
      symmetry. apply Hothers. eapply Hother, Hl, Hin. }
    rewrite Forall_app, Forall_cons. split; [| split].
    + apply Hkeep; [| done]. intros kq Hin. apply elem_of_app. by left.
    + by apply Ha.
    + apply Hkeep; [| done]. intros kq Hin. apply elem_of_app. by right.
  - by apply Hg.
  - intros pid j Hown. rewrite Hdkeys.
    destruct (decide (pid = Profile.id p)) as [-> | Hne].
    + rewrite Hk. unfold dkeys. rewrite fmap_app. apply elem_of_app.
      right. left.
    + eapply Hknown. by apply Hothers.
Qed.

(** A loop over the profiles whose body is sound keeps the whole
    consistent. *)
Lemma traversal_consistent strict
    (body : I * Profile.t → result (I * Profile.t)) pre ps idx :
  (∀ idx p, covers strict (body (idx, p)) →
     sound own holds good (idx, p) (state_of (body (idx, p)))) →
  consistent own holds good (pre ++ ps) idx →
  covers strict (for_each_value body ps idx) →
  let st := state_of (for_each_value body ps idx) in
  consistent own holds good (pre ++ st.2) st.1.
Proof.
  intros Hbody. revert pre idx.
  induction ps as [| [k p] ps IH]; intros pre idx Hcons Hcov; simpl; [done |].
  simpl in Hcov. specialize (Hbody idx p).
  destruct (body (idx, p)) as [[idx1 p1] | e [idx1 p1]]; simpl in *.
  - assert (Hmid : consistent own holds good ((pre ++ [(k, p1)]) ++ ps) idx1).
    { rewrite <- app_assoc. eapply sound_middle; [done |].
      apply Hbody. by intros _. }
    specialize (IH (pre ++ [(k, p1)]) idx1 Hmid).
    destruct (for_each_value body ps idx1) as [[idx2 ps2] | e [idx2 ps2]];
      simpl in *; rewrite <- app_assoc in IH; by apply IH.
  - eapply sound_middle; [done |]. by apply Hbody.
Qed.

(** Writing back a profile after a sound step keeps the whole consistent. *)
Lemma commit_consistent ps idx pid p idx' p' :
  consistent own holds good ps idx →
  dget pid ps = Some p →
  sound own holds good (idx, p) (idx', p') →
  consistent own holds good (dset pid p' ps) idx'.
Proof.
  intros Hcons Hget Hsound.
  destruct (dget_split _ _ _ Hget) as (pre & rest & -> & _ & Hset).
  rewrite Hset. by eapply sound_middle.
Qed.

End IntegrityFacts.

#[global] Instance on_fst_preorder {A B} (R : A → A → Prop) `{!PreOrder R} :
  PreOrder (@on_fst A B R).
Proof.
  split.
  - intros s. unfold on_fst. reflexivity.
  - intros s1 s2 s3. unfold on_fst. apply transitivity.
Qed.

Lemma state_of_on_state {S T} (f : S → T) r :
  state_of (on_state f r) = f (state_of r).
Proof. by destruct r. Qed.

Lemma returns_on_state {S T} (f : S → T) r : returns (on_state f r) = returns r.
Proof. by destruct r. Qed.

Lemma for_each_inv {A S} (P : S → Prop) (step : A → S → result S) l s :
  (∀ a s, P s → P (state_of (step a s))) →
  P s → P (state_of (for_each step l s)).
Proof.
  intros Hstep. revert s. induction l as [| a l IH]; intros s Hs; simpl; [done |].
  specialize (Hstep a s Hs). destruct (step a s); simpl in *; [by apply IH | done].
Qed.

(** *** What profile discovery leaves *)

Lemma elem_of_dset {V} k v k' v' (d : list (string * V)) :
  (k', v') ∈ dset k v d → (k' = k ∧ v' = v) ∨ (k', v') ∈ d.
Proof.
  induction d as [| [k0 v0] d IH]; simpl.
  - intros Hin. apply list_elem_of_singleton in Hin as [= -> ->]. by left.
  - destruct (decide (k = k0)) as [-> |]; intros Hin;
      apply elem_of_cons in Hin as [[= -> ->] | Hin].
    + by left.
    + right. by right.
    + right. left.
    + destruct (IH Hin) as [H | H]; [by left | right; by right].
Qed.

Lemma dkeys_dset_new {V} k v (d : list (string * V)) :
  dget k d = None → dkeys (dset k v d) = dkeys d ++ [k].
Proof.
  unfold dkeys. induction d as [| [k0 v0] d IH]; simpl; [done |].
  destruct (decide (k = k0)); [done |]. simpl. intros H. f_equal. by apply IH.
Qed.

Lemma dset_well_keyed ps k p :
  well_keyed ps → Profile.id p = k → well_keyed (dset k p ps).
Proof.
  intros [Hnodup Hkeys] Hid. split.
  - destruct (dget k ps) as [q |] eqn:Hget.
    + rewrite dkeys_dset; [done | by rewrite Hget].
    + rewrite dkeys_dset_new by done. apply NoDup_app. split; [done |].
      split; [| apply NoDup_singleton].
      intros x Hx Hx'. apply list_elem_of_singleton in Hx' as ->.
      by apply dget_None in Hget.
  - intros k' q Hin. apply elem_of_dset in Hin as [[-> ->] | Hin]; [done |].
    by apply Hkeys.
Qed.

(** Profile discovery either leaves the profile set as it was or leaves a
    well-keyed set of profiles that record nothing yet. *)
Lemma fetch_all_profiles_fresh fs self :
  let ps := profiles (state_of (fetch_all_profiles fs self)) in
  ps = profiles self ∨ (well_keyed ps ∧ fresh ps).
Proof.
  unfold fetch_all_profiles.
  repeat (case_match; try (by left)); right.
  all: try (split; [split; [apply NoDup_nil_2 | intros ? ? Hin]
                   | intros ? ? Hin]; by apply elem_of_nil in Hin).
  all: apply (for_each_inv (λ s, well_keyed (profiles s) ∧ fresh (profiles s)));
    [| split; [split; [apply NoDup_nil_2 | intros ? ? Hin]
              | intros ? ? Hin]; by apply elem_of_nil in Hin].
  all: intros [profile_id profile_info] self0 [Hkeyed Hfresh];
    unfold make_profile;
    repeat (case_match; try done); simpl.
  all: match goal with H : inr _ = inr _ |- _ => injection H as <- end.
  all: split; [by apply dset_well_keyed |].
  all: intros k p Hin; apply elem_of_dset in Hin as [[-> ->] | Hin];
    [done | by apply (Hfresh k)].
Qed.

(** *** Bookmarks: the steps are sound *)

Lemma record_bookmark_sound d path_ls st :
  covers true (record_bookmark d path_ls st) →
  bmk_sound st (state_of (record_bookmark d path_ls st)).
Proof.
  intros Hcov. specialize (Hcov eq_refl). destruct st as [idx p].
  unfold record_bookmark, attempt in *.
  destruct (dget "url" d) as [url |]; [| done].
  destruct (join_path path_ls) as [e | path]; [done |].
  destruct url as [| | | url | |]; try done.
  assert (Hgoal : ∀ b',
            (∀ pid, pid ≠ Profile.id p →
               Bookmark.profiles b' !! pid
               = (idx !! url) ≫= (λ b, Bookmark.profiles b !! pid)) →
            Bookmark.profiles b' !! Profile.id p = Some path →
            bmk_sound (idx, p)
              (<[url := b']> idx,
               Profile.set_bookmarks (<[url := path]> (Profile.bookmarks p)) p)).
  { intros b' Hothers Hself. split; [done |]. simpl. split; [| split].
    - intros pid [url' path'] Hne. unfold bmk_own. simpl.
      destruct (decide (url' = url)) as [-> | Hurl].
      + rewrite lookup_insert_eq. specialize (Hothers pid Hne).
        split.
        * intros (b & [= <-] & Hb). rewrite Hothers in Hb.
          destruct (idx !! url) as [b0 |]; [| done]. by exists b0.
        * intros (b & Hb & Hpath). exists b'. split; [done |].
          rewrite Hothers, Hb. done.
      + by rewrite lookup_insert_ne.
    - intros Hgood url' b. destruct (decide (url' = url)) as [-> | Hurl].
      + rewrite lookup_insert_eq. intros [= <-] Hempty.
        by rewrite Hempty in Hself.
      + rewrite lookup_insert_ne by done. apply Hgood.
    - intros Hagree [url' path']. unfold bmk_holds, bmk_own. simpl.
      destruct (decide (url' = url)) as [-> | Hurl].
      + rewrite !lookup_insert_eq. split.
        * intros [= <-]. by exists b'.
        * intros (b & [= <-] & Hb). congruence.
      + rewrite !lookup_insert_ne by done. apply (Hagree (url', path')). }
  cbn. destruct (idx !! url) as [b |] eqn:Hb.
  - apply Hgoal; simpl.
    + intros pid Hne. by rewrite lookup_insert_ne.
    + by rewrite lookup_insert_eq.
  - destruct (dget "name" d) as [name |]; [| done]. apply Hgoal; simpl.
    + intros pid Hne. by rewrite lookup_insert_ne.
    + by rewrite lookup_insert_eq.
Qed.

Lemma forget_bookmark_sound url st : bmk_sound st (forget_bookmark url st).
Proof.
  destruct st as [idx p].
  assert (Hgoal : ∀ idx',
            (∀ url', url' ≠ url → idx' !! url' = idx !! url') →
            (∀ b', idx' !! url = Some b' →
               (bmk_good idx → Bookmark.profiles b' ≠ ∅)
               ∧ Bookmark.profiles b' !! Profile.id p = None
               ∧ ∃ b, idx !! url = Some b
                      ∧ ∀ pid, pid ≠ Profile.id p →
                          Bookmark.profiles b' !! pid
                          = Bookmark.profiles b !! pid) →
            (idx' !! url = None →
             ∀ b pid, idx !! url = Some b → pid ≠ Profile.id p →
                      Bookmark.profiles b !! pid = None) →
            bmk_sound (idx, p)
              (idx',
               Profile.set_bookmarks (delete url (Profile.bookmarks p)) p)).
  { intros idx' Hother Hsome Hnone. split; [done |]. simpl.
    split; [| split].
    - intros pid [url' path'] Hne. unfold bmk_own. simpl.
      destruct (decide (url' = url)) as [-> | Hurl];
        [| by rewrite Hother].
      split.
      + intros (b' & Hb' & Hpath).
        destruct (Hsome b' Hb') as (_ & _ & b & Hb & Hsame).
        exists b. by rewrite <- Hsame.
      + intros (b & Hb & Hpath).
        destruct (idx' !! url) as [b' |] eqn:Hb'.
        * destruct (Hsome b' eq_refl) as (_ & _ & b0 & Hb0 & Hsame).
          exists b'. split; [done |]. rewrite Hsame by done. congruence.
        * rewrite (Hnone eq_refl b pid Hb Hne) in Hpath. done.
    - intros Hgood url' b'. destruct (decide (url' = url)) as [-> | Hurl].
      + intros Hb'. destruct (Hsome b' Hb') as [Hne _]. by apply Hne.
      + rewrite Hother by done. apply Hgood.
    - intros Hagree [url' path']. unfold bmk_holds, bmk_own. simpl.
      destruct (decide (url' = url)) as [-> | Hurl].
      + rewrite lookup_delete_eq. split; [done |].
        intros (b' & Hb' & Hpath).
        destruct (Hsome b' Hb') as (_ & Hself & _). congruence.
      + rewrite lookup_delete_ne, Hother by done. apply (Hagree (url', path')). }
  unfold forget_bookmark.
  destruct (idx !! url) as [b |] eqn:Hb.
  2:{ apply Hgoal; [done | congruence | congruence]. }
  destruct (bool_decide (is_Some (Bookmark.profiles b !! Profile.id p)))
    eqn:Hin.
  2:{ apply bool_decide_eq_false in Hin.
      apply eq_None_not_Some in Hin.
      apply Hgoal; [done | | congruence].
      intros b' Hb'. rewrite Hb in Hb'. injection Hb' as <-.
      split; [| split; [done | by exists b]].
      intros Hgood. by apply (Hgood url). }
  cbn zeta.
  destruct (decide (size (delete (Profile.id p) (Bookmark.profiles b)) = 0))
    as [Hsize | Hsize].
  - apply map_size_empty_inv in Hsize. apply Hgoal.
    + intros url' Hne. by rewrite lookup_delete_ne.
    + intros b'. by rewrite lookup_delete_eq.
    + intros _ b0 pid [= <-] Hne.
      rewrite <- (lookup_delete_ne (Bookmark.profiles b) (Profile.id p) pid)
        by done.
      by rewrite Hsize.
  - apply Hgoal.
    + intros url' Hne. by rewrite lookup_insert_ne.
    + intros b'. rewrite lookup_insert_eq. intros [= <-]. simpl.
      split; [| split; [by rewrite lookup_delete_eq |]].
      * intros _ Hempty. apply Hsize. rewrite Hempty. apply map_size_empty.
      * exists b. split; [done |]. intros pid Hne.
        by rewrite lookup_delete_ne.
    + by rewrite lookup_insert_eq.
Qed.

Lemma fetch_bookmarks_rec_sound fuel j path_ls st :
  covers true (fetch_bookmarks_rec fuel j path_ls st) →
  bmk_sound st (state_of (fetch_bookmarks_rec fuel j path_ls st)).
Proof.
  revert j path_ls st.
  induction fuel as [| fuel IH]; intros j path_ls st;
    [intros Hcov; by specialize (Hcov eq_refl) |].
  cbn [fetch_bookmarks_rec].
  destruct j as [| | | | | d];
    try (intros Hcov; by specialize (Hcov eq_refl)).
  destruct (dget "type" d) as [ty |];
    [| intros Hcov; by specialize (Hcov eq_refl)].
  destruct (is_str ty "url"); [apply record_bookmark_sound |].
  destruct (is_str ty "folder"); [| reflexivity].
  destruct (dget "name" d) as [name |];
    [| intros Hcov; by specialize (Hcov eq_refl)].
  destruct (dget "children" d) as [v |];
    [| intros Hcov; by specialize (Hcov eq_refl)].
  destruct (py_iter v) as [e | children];
    [intros Hcov; by specialize (Hcov eq_refl) |].
  cbn [attempt].
  apply (for_each_rel bmk_sound true
           (λ c, fetch_bookmarks_rec fuel c (path_ls ++ [name]))).
  intros c st'. apply IH.
Qed.

Lemma walk_bookmark_file_sound fs bookmark_file st :
  covers true (walk_bookmark_file fs bookmark_file st) →
  bmk_sound st (state_of (walk_bookmark_file fs bookmark_file st)).
Proof.
  unfold walk_bookmark_file.
  destruct (read_json fs bookmark_file) as [[] | data];
    try (intros Hcov; by specialize (Hcov eq_refl)); try reflexivity.
  assert (H : ∀ info,
            covers true
              (attempt (items info) st (λ roots,
                 for_each (λ '(bmk_type, bookmark_info),
                             _fetch_bookmarks_from_one_type bookmark_info
                               [JStr ""]) roots st)) →
            bmk_sound st
              (state_of
                 (attempt (items info) st (λ roots,
                    for_each (λ '(bmk_type, bookmark_info),
                                _fetch_bookmarks_from_one_type bookmark_info
                                  [JStr ""]) roots st)))).
  { intros info. destruct (items info) as [e | roots]; cbn [attempt];
      [intros Hcov; by specialize (Hcov eq_refl) |].
    apply (for_each_rel bmk_sound true).
    intros [k info'] st'. apply fetch_bookmarks_rec_sound. }
  destruct (get_with_chained_keys data ["roots"]) eqn:E;
    try reflexivity; rewrite <- E; apply H.
Qed.

Lemma fetch_bookmarks_of_profile_sound fs idx p :
  covers true (fetch_bookmarks_of_profile fs (idx, p)) →
  bmk_sound (idx, p) (state_of (fetch_bookmarks_of_profile fs (idx, p))).
Proof.
  unfold fetch_bookmarks_of_profile.
  destruct (negb (is_file fs _)); [reflexivity |].
  intros Hcov. etrans; [| by apply walk_bookmark_file_sound].
  split; [done |]. split; [done |]. split; [done |]. by destruct p.
Qed.

(** *** Bookmarks: deletion is sound whatever its outcome *)

Lemma delete_step_sound walk urls i s :
  (∀ s, bmk_sound s.1 (state_of (walk s)).1) →
  on_fst bmk_sound s (state_of (delete_step walk urls i s)).
Proof.
  intros Hwalk. destruct s as [st children]. unfold delete_step, on_fst.
  destruct (children !! i) as [[| | | | | child] |]; try reflexivity.
  destruct (dget "type" child) as [ty |]; [| reflexivity].
  destruct (is_str ty "url").
  - destruct (dget "url" child) as [[| | | url | |] |]; try reflexivity.
    destruct (bool_decide (url ∈ urls)); [| reflexivity].
    apply forget_bookmark_sound.
  - rewrite state_of_on_state. specialize (Hwalk (st, JObj child)).
    by destruct (state_of (walk (st, JObj child))).
Qed.

Lemma delete_bookmarks_rec_sound fuel urls s :
  bmk_sound s.1 (state_of (delete_bookmarks_rec fuel urls s)).1.
Proof.
  revert s. induction fuel as [| fuel IH]; intros s; [reflexivity |].
  cbn [delete_bookmarks_rec]. destruct s as [st j].
  destruct j as [| | | | | d]; try reflexivity.
  destruct (dget "type" d) as [ty |]; [| reflexivity].
  destruct (negb (is_str ty "folder")); [reflexivity |].
  destruct (dget "children" d) as [[| | | [] | children | []] |];
    try reflexivity.
  rewrite state_of_on_state.
  pose proof (for_each_rel (on_fst bmk_sound) false
                (delete_step (delete_bookmarks_rec fuel urls) urls)
                (reverse (seq 0 (length children))) (st, children)) as H.
  unfold on_fst in H at 2.
  destruct (state_of (for_each _ _ _)) as [st' children']. apply H; [| done].
  intros i s _. by apply delete_step_sound.
Qed.

(** *** Bookmarks: the property and the invariant of the proofs *)

Lemma bmk_consistent_integrity self :
  consistent bmk_own bmk_holds bmk_good (profiles self) (bookmarks self) →
  bookmark_integrity self.
Proof.
  intros ((Hnodup & Hkeys) & Hagree & Hgood & Hknown).
  rewrite Forall_forall in Hagree. split; [| split].
  - intros k p url path Hin Hpath.
    by apply (Hagree (k, p) Hin (url, path)).
  - intros url b pid path Hb Hpath.
    assert (Hown : bmk_own (bookmarks self) pid (url, path)) by by exists b.
    pose proof (Hknown _ _ Hown) as Hpid.
    apply list_elem_of_fmap in Hpid as ([k p] & -> & Hin). simpl in *.
    exists p. split; [done |].
    apply (Hagree (k, p) Hin (url, path)). simpl.
    by rewrite (Hkeys k p Hin).
  - exact Hgood.
Qed.

Lemma bmk_integrity_consistent self :
  well_keyed (profiles self) →
  bookmark_integrity self →
  consistent bmk_own bmk_holds bmk_good (profiles self) (bookmarks self).
Proof.
  intros [Hnodup Hkeys] (Hfwd & Hback & Hgood).
  split; [done |]. split; [| split; [done |]].
  - apply Forall_forall. intros [k p] Hin [url path]. simpl. split.
    + intros Hpath. by apply (Hfwd k p).
    + intros (b & Hb & Hpath).
      destruct (Hback url b _ path Hb Hpath) as (p' & Hin' & Hp').
      rewrite (Hkeys k p Hin) in Hin'.
      pose proof (dget_elem_of _ _ _ Hnodup Hin) as H1.
      pose proof (dget_elem_of _ _ _ Hnodup Hin') as H2.
      assert (p' = p) as -> by congruence. done.
  - intros pid [url path] (b & Hb & Hpath).
    destruct (Hback url b pid path Hb Hpath) as (p & Hin & _).
    apply list_elem_of_fmap. by exists (pid, p).
Qed.

Lemma delete_bookmarks_of_profile_consistent urls pid w :
  consistent bmk_own bmk_holds bmk_good (profiles w.2) (bookmarks w.2) →
  let w' := state_of (delete_bookmarks_of_profile urls pid w) in
  consistent bmk_own bmk_holds bmk_good (profiles w'.2) (bookmarks w'.2).
Proof.
  destruct w as [fs self]. intros Hcons. cbn zeta. cbn [snd] in *.
  destruct (delete_bookmarks_of_profile_engine urls pid fs self)
    as [-> | (profile & roots & Hp & ->)]; [done |].
  unfold commit. simpl.
  eapply commit_consistent; [done | done |].
  pose proof (for_each_value_rel bmk_sound false
                (_delete_bookmarks_in_one_folder urls) roots
                (bookmarks self, profile)) as H.
  destruct (state_of (for_each_value _ _ _)).1 as [idx' p'] eqn:E.
  apply H; [| done].
  intros s v _. apply (delete_bookmarks_rec_sound _ urls (s, v)).
Qed.

(** Removing the only profile of a bookmark removes the bookmark. *)
Lemma forget_last_profile url idx p b :
  idx !! url = Some b →
  dom (Bookmark.profiles b) = {[Profile.id p]} →
  (forget_bookmark url (idx, p)).1 !! url = None.
Proof.
  intros Hb Hdom. unfold forget_bookmark. rewrite Hb.
  assert (Hin : is_Some (Bookmark.profiles b !! Profile.id p)).
  { apply elem_of_dom. rewrite Hdom. set_solver. }
  rewrite bool_decide_eq_true_2 by done. cbn zeta.
  assert (Hempty : delete (Profile.id p) (Bookmark.profiles b) = ∅).
  { apply dom_empty_inv_L. rewrite dom_delete_L, Hdom. set_solver. }
  rewrite Hempty, map_size_empty. simpl. apply lookup_delete_eq.
Qed.

(** C1 (amended): a bookmark discovery that starts from profiles whose
    URL-to-path mappings are empty, as profile discovery leaves them, and
    returns normally, establishes the property; a bookmark deletion, however
    it ends, preserves it. Under the property no bookmark of the index has an
    empty profile-path mapping: the deletion that removes the last profile
    entry of a bookmark removes the bookmark. *)
Theorem bookmark_integrity_maintained :
  (∀ fs self self',
     well_keyed (profiles self) →
     (∀ k p, (k, p) ∈ profiles self → Profile.bookmarks p = ∅) →
     fetch_bookmarks_from_all_profiles fs self = Ok self' →
     bookmark_integrity self' ∧ well_keyed (profiles self'))
  ∧ (∀ urls ids fs self,
       well_keyed (profiles self) →
       bookmark_integrity self →
       let w := state_of (delete_bookmarks_from_profiles urls ids (fs, self)) in
       bookmark_integrity w.2 ∧ well_keyed (profiles w.2))
  ∧ (∀ url idx p b,
       idx !! url = Some b →
       dom (Bookmark.profiles b) = {[Profile.id p]} →
       (forget_bookmark url (idx, p)).1 !! url = None).
Proof.
  split; [| split]; [| | apply forget_last_profile].
  - intros fs self self' Hkeyed Hempty Hrun.
    assert (Hcons : consistent bmk_own bmk_holds bmk_good
                      (profiles self') (bookmarks self')).
    { unfold fetch_bookmarks_from_all_profiles in Hrun. simpl in Hrun.
      pose proof (traversal_consistent bmk_own bmk_holds bmk_good true
                    (fetch_bookmarks_of_profile fs) [] (profiles self) ∅) as H.
      destruct (for_each_value _ _ _) as [[idx' ps'] | e [idx' ps']];
        [| done].
      injection Hrun as <-. simpl in *. apply H.
      - intros idx p. apply fetch_bookmarks_of_profile_sound.
      - split; [done |]. split; [| split].
        + apply Forall_forall. intros [k p] Hin [url path].
          unfold bmk_holds, bmk_own. simpl.
          rewrite (Hempty k p Hin), lookup_empty. split; [done |].
          by intros (b & Hb & _).
        + by intros url b.
        + by intros pid k (b & Hb & _).
      - done. }
    split; [by apply bmk_consistent_integrity | apply Hcons].
  - intros urls ids fs self Hkeyed Hint w.
    assert (Hcons : consistent bmk_own bmk_holds bmk_good
                      (profiles w.2) (bookmarks w.2)).
    { subst w. unfold delete_bookmarks_from_profiles.
      apply (for_each_inv
               (λ w, consistent bmk_own bmk_holds bmk_good
                       (profiles w.2) (bookmarks w.2))).
      - intros pid w. apply delete_bookmarks_of_profile_consistent.
      - by apply bmk_integrity_consistent. }
    split; [by apply bmk_consistent_integrity | apply Hcons].
Qed.

(** A second discovery after [Default] lost its bookmark file rebuilds the
    index without [Default], whose own mapping still holds its URLs. *)
Lemma bookmark_integrity_counterexample :
  ¬ bookmark_integrity
      (state_of (fetch_bookmarks_from_all_profiles fs_bookmarks_gone
                   engine_bookmarks)).
Proof.
  intros (Hfwd & _ & _).
  destruct (Hfwd "Default"
              (Profile.mk "Default" (JStr "Default") (JStr "") (JStr "")
                 (JStr "") "/ud" "/ud/Default" "/ud/Default/Bookmarks" ∅
                 (list_to_map
                    [("http://a.example", "/Bar");
                     ("http://x.example", "/Bar/Work");
                     ("http://b.example", "/Bar");
                     ("http://c.example", "/Bar");
                     ("http://d.example", "/Bar")]))
              "http://x.example" "/Bar/Work") as (b & Hb & _).
  - vm_compute. left.
  - reflexivity.
  - vm_compute in Hb. discriminate Hb.
Qed.

Lemma bookmark_integrity_maintained_witness :
  bookmark_integrity engine_after_deletion.
Proof.
  assert (H : bookmark_integrity engine_bookmarks
              ∧ well_keyed (profiles engine_bookmarks)).
  2:{ destruct H as [Hint Hkeyed].
      apply (proj1 (proj2 bookmark_integrity_maintained)
               ["http://a.example"; "http://x.example"] None fs_sample
               engine_bookmarks Hkeyed Hint). }
  apply (proj1 bookmark_integrity_maintained fs_sample engine_profiles
           engine_bookmarks).
  - split.
    + apply (bool_decide_unpack _). vm_compute. exact I.
    + intros k p Hin. vm_compute in Hin.
      repeat (apply elem_of_cons in Hin as [[= -> ->] | Hin]); try done.
      by apply elem_of_nil in Hin.
  - intros k p Hin. vm_compute in Hin.
    repeat (apply elem_of_cons in Hin as [[= -> ->] | Hin]); try done.
    by apply elem_of_nil in Hin.
  - vm_compute. reflexivity.
Defined.

(** *** Extensions: the steps are sound whatever their outcome *)

Lemma make_extension_fields fs ext_id pid manifest_data base ext :
  make_extension fs ext_id pid manifest_data base = inr ext →
  Extension.id ext = ext_id ∧ Extension.profiles ext = {[pid]}.
Proof.
  unfold make_extension, try_bind.
  repeat (case_match; try done). by intros [= <-].
Qed.

Lemma fetch_one_extension_sound fs entry st :
  ext_sound st (state_of (fetch_one_extension fs entry st)).
Proof.
  destruct entry as [ext_id ext_set]. destruct st as [exts p].
  assert (Hgoal : ∀ ext',
            (ext_good exts → Extension.id ext' = ext_id) →
            Profile.id p ∈ Extension.profiles ext' →
            (∀ pid, pid ≠ Profile.id p →
               pid ∈ Extension.profiles ext' ↔ ext_own exts pid ext_id) →
            ext_sound (exts, p)
              (<[ext_id := ext']> exts,
               Profile.set_extensions ({[ext_id]} ∪ Profile.extensions p) p)).
  { intros ext' Hid Hself Hothers. split; [done |]. simpl. split; [| split].
    - intros pid e Hne. unfold ext_own.
      destruct (decide (e = ext_id)) as [-> | He].
      + rewrite lookup_insert_eq. rewrite <- (Hothers pid Hne). split.
        * by intros (? & [= <-] & ?).
        * intros ?. by exists ext'.
      + by rewrite lookup_insert_ne.
    - intros Hgood e ext. destruct (decide (e = ext_id)) as [-> | He].
      + rewrite lookup_insert_eq. intros [= <-]. split; [by apply Hid |].
        intros Hempty. rewrite Hempty in Hself. set_solver.
      + rewrite lookup_insert_ne by done. apply Hgood.
    - intros Hagree e. unfold ext_holds, ext_own. simpl.
      destruct (decide (e = ext_id)) as [-> | He].
      + rewrite lookup_insert_eq. split; [| set_solver].
        intros _. by exists ext'.
      + rewrite lookup_insert_ne by done. rewrite <- (Hagree e).
        unfold ext_holds. set_solver. }
  unfold fetch_one_extension, attempt.
  destruct (exts !! ext_id) as [ext |] eqn:Hext.
  { apply Hgoal; simpl.
    - intros Hgood. by apply (Hgood ext_id).
    - set_solver.
    - intros pid Hne. unfold ext_own. rewrite Hext. split.
      + intros Hin. exists ext. split; [done |]. set_solver.
      + intros (? & [= <-] & ?). set_solver. }
  repeat (case_match; try reflexivity).
  simpl.
  match goal with
  | H : make_extension _ _ _ _ _ = inr _ |- _ =>
      apply make_extension_fields in H as [Hid Hprofiles]
  end.
  apply Hgoal.
  - done.
  - rewrite Hprofiles. set_solver.
  - intros pid Hne. rewrite Hprofiles. unfold ext_own. rewrite Hext. split.
    + set_solver.
    + by intros (? & ? & _).
Qed.

Lemma fetch_extensions_of_profile_sound fs st :
  ext_sound st (state_of (fetch_extensions_of_profile fs st)).
Proof.
  unfold fetch_extensions_of_profile.
  destruct (negb (is_file fs _)); [reflexivity |].
  destruct (read_json fs _) as [[] | data]; try reflexivity.
  assert (H : ∀ settings,
            ext_sound st
              (state_of (_fetch_extensions_from_one_profile fs settings st))).
  { intros settings. unfold _fetch_extensions_from_one_profile.
    destruct (items settings) as [e | entries]; [reflexivity |].
    cbn [attempt]. apply (for_each_rel ext_sound false); [| done].
    intros entry st' _. apply fetch_one_extension_sound. }
  destruct (get_with_chained_keys data ["extensions"; "settings"]) eqn:E;
    try reflexivity; rewrite <- E; apply H.
Qed.

Lemma ext_consistent_integrity self :
  consistent ext_own ext_holds ext_good (profiles self) (extensions self) →
  extension_integrity self.
Proof.
  intros ((Hnodup & Hkeys) & Hagree & Hgood & Hknown).
  rewrite Forall_forall in Hagree. split.
  - intros ext_id. split.
    + intros [ext Hext]. destruct (Hgood _ _ Hext) as [_ Hne].
      apply set_choose_L in Hne as [pid Hpid].
      assert (Hown : ext_own (extensions self) pid ext_id) by by exists ext.
      pose proof (Hknown _ _ Hown) as Hin.
      apply list_elem_of_fmap in Hin as ([k p] & -> & Hin). simpl in *.
      exists k, p. split; [done |].
      apply (Hagree (k, p) Hin ext_id). simpl. by rewrite (Hkeys k p Hin).
    + intros (k & p & Hin & Hp).
      apply (Hagree (k, p) Hin ext_id) in Hp as (ext & Hext & _). by eexists.
  - intros ext_id ext k p Hext Hin.
    destruct (Hgood _ _ Hext) as [Hid _].
    pose proof (Hagree (k, p) Hin ext_id) as Ha.
    unfold agrees, ext_holds, ext_own in Ha. simpl in Ha.
    rewrite Hid, Ha, Hext. split.
    + intros ?. by exists ext.
    + by intros (? & [= <-] & ?).
Qed.

(** C3 (amended): an extension discovery that starts from profiles whose
    extension-id sets are empty, as profile discovery leaves them, ends,
    however it ends, in a state where an identifier is in the index iff some
    profile's set contains it, and where a profile's identifier is in an
    extension's profile set iff the extension's identifier is in the
    profile's set. *)
Theorem extension_integrity_established fs self :
  well_keyed (profiles self) →
  (∀ k p, (k, p) ∈ profiles self → Profile.extensions p = ∅) →
  let self' := state_of (fetch_extensions_from_all_profiles fs self) in
  extension_integrity self' ∧ well_keyed (profiles self').
Proof.
  intros Hkeyed Hempty self'.
  assert (Hcons : consistent ext_own ext_holds ext_good
                    (profiles self') (extensions self')).
  { subst self'. unfold fetch_extensions_from_all_profiles. simpl.
    pose proof (traversal_consistent ext_own ext_holds ext_good false
                  (fetch_extensions_of_profile fs) [] (profiles self) ∅) as H.
    rewrite state_of_on_state.
    destruct (state_of (for_each_value _ _ _)) as [exts' ps'].
    simpl in *. apply H.
    - intros exts p _. apply fetch_extensions_of_profile_sound.
    - split; [done |]. split; [| split].
      + apply Forall_forall. intros [k p] Hin e.
        unfold ext_holds, ext_own. simpl.
        rewrite (Hempty k p Hin). split; [set_solver |].
        by intros (ext & Hext & _).
      + by intros e ext.
      + by intros pid e (ext & Hext & _).
    - done. }
  split; [by apply ext_consistent_integrity | apply Hcons].
Qed.

Lemma extension_integrity_established_witness :
  extension_integrity engine_extensions
  ∧ well_keyed (profiles engine_extensions).
Proof.
  apply (extension_integrity_established fs_sample engine_profiles).
  - split.
    + apply (bool_decide_unpack _). vm_compute. exact I.
    + intros k p Hin. vm_compute in Hin.
      repeat (apply elem_of_cons in Hin as [[= -> ->] | Hin]); try done.
      by apply elem_of_nil in Hin.
  - intros k p Hin. vm_compute in Hin.
    repeat (apply elem_of_cons in Hin as [[= -> ->] | Hin]); try done.
    by apply elem_of_nil in Hin.
Defined.

(** A second discovery after [Default] lost its preferences file rebuilds
    an empty index, while [Default]'s own set still holds the extension. *)
Lemma extension_integrity_counterexample :
  ¬ extension_integrity
      (state_of (fetch_extensions_from_all_profiles fs_preferences_gone
                   engine_extensions)).
Proof.
  intros [Hiff _]. destruct (proj2 (Hiff "abc")) as [ext Hext].
  - exists "Default",
      (Profile.mk "Default" (JStr "Default") (JStr "") (JStr "") (JStr "")
         "/ud" "/ud/Default" "" {["abc"]} ∅).
    split; [vm_compute; left | set_solver].
  - vm_compute in Hext. discriminate Hext.
Qed.
(** * Further properties of the engine *)

(** ** Bookmark search *)

Lemma prefix_occurs sub s :
  String.prefix sub s = true ↔ ∃ suf, s = sub +:+ suf.
Proof.
  revert s. induction sub as [| c sub IH]; intros s.
  - destruct s; (split; [intros _; by eexists | done]).
  - destruct s as [| c' s]; simpl; [split; [done | by intros [? ?]] |].
    destruct (Ascii.ascii_dec c c') as [<- | Hne].
    + rewrite IH. split; intros [suf H]; exists suf.
      * by rewrite H.
      * by injection H.
    + split; [done |]. intros [suf [= ? _]]. done.
Qed.

Lemma py_in_str_occurs sub s : py_in_str sub s = true ↔ occurs_in sub s.
Proof.
  unfold py_in_str, occurs_in. rewrite bool_decide_eq_true.
  induction s as [| c s IH].
  - destruct sub as [| c' sub]; simpl.
    + split; [intros _; by exists "", "" | by eexists].
    + split; [by intros [? ?] |].
      intros (pre & suf & H). by destruct pre.
  - change (String.index 0 sub (String c s))
      with (if String.prefix sub (String c s) then Some 0
            else match String.index 0 sub s with
                 | Some n => Some (S n)
                 | None => None
                 end).
    destruct (String.prefix sub (String c s)) eqn:Hp.
    + split; [intros _ | by eexists].
      apply prefix_occurs in Hp as [suf Hp]. by exists "", suf.
    + assert (Hiff : is_Some (match String.index 0 sub s with
                              | Some n => Some (S n)
                              | None => None
                              end) ↔ is_Some (String.index 0 sub s)).
      { destruct (String.index 0 sub s); split; intros [? ?]; by eexists. }
      rewrite Hiff, IH. split.
      * intros (pre & suf & ->). by exists (String c pre), suf.
      * intros (pre & suf & H). destruct pre as [| c' pre].
        -- simpl in H. assert (String.prefix sub (String c s) = true);
             [| congruence].
           apply prefix_occurs. by exists suf.
        -- injection H as _ ->. by exists pre, suf.
Qed.

Lemma string_app_assoc (a b c : string) : (a +:+ b) +:+ c = a +:+ b +:+ c.
Proof.
  induction a as [| x a IH]; [done |].
  change (String x ((a +:+ b) +:+ c) = String x (a +:+ b +:+ c)).
  by rewrite IH.
Qed.

Lemma occurs_in_trans a b c : occurs_in a b → occurs_in b c → occurs_in a c.
Proof.
  intros (p1 & s1 & ->) (p2 & s2 & ->).
  exists (p2 +:+ p1), (s1 +:+ s2). by rewrite !string_app_assoc.
Qed.

Lemma occurs_in_empty s : occurs_in "" s.
Proof. by exists "", s. Qed.

Lemma held_by_size ids (b : Bookmark.t) :
  size (dom (Bookmark.profiles b) ∩ list_to_set ids) ≠ 0 ↔ held_by ids b.
Proof.
  rewrite size_non_empty_iff. unfold held_by. split.
  - intros [pid Hpid]%set_choose.
    apply elem_of_intersection in Hpid as [Hdom Hin].
    exists pid. split; [by apply elem_of_list_to_set in Hin |].
    by apply elem_of_dom.
  - intros (pid & Hin & Hsome) Hempty.
    apply (not_elem_of_empty (C := gset string) pid). rewrite <- Hempty.
    apply elem_of_intersection. split; [by apply elem_of_dom |].
    by apply elem_of_list_to_set.
Qed.

Lemma search_bookmarks_lookup url_contains profile_ids self url b :
  search_bookmarks url_contains profile_ids self !! url = Some b
  ↔ bookmarks self !! url = Some b
    ∧ occurs_in url_contains url
    ∧ held_by (from_option id (dkeys (profiles self)) profile_ids) b.
Proof.
  unfold search_bookmarks. rewrite map_lookup_filter_Some. simpl.
  by rewrite py_in_str_occurs, held_by_size.
Qed.

(** X1: a search returns exactly the bookmarks of the index whose URL has
    the searched text as a substring and whose profile mapping has one of the
    given profile identifiers (every known profile, by default) as a key;
    each is returned as the index holds it. *)
Theorem search_bookmarks_finds url_contains profile_ids self url b :
  search_bookmarks url_contains profile_ids self !! url = Some b
  ↔ bookmarks self !! url = Some b
    ∧ occurs_in url_contains url
    ∧ held_by (from_option id (dkeys (profiles self)) profile_ids) b.
Proof.
  unfold search_bookmarks. rewrite map_lookup_filter_Some. cbn [fst snd].
  rewrite py_in_str_occurs, held_by_size. tauto.
Qed.

Lemma held_by_app ids1 ids2 b :
  held_by (ids1 ++ ids2) b ↔ held_by ids1 b ∨ held_by ids2 b.
Proof.
  unfold held_by. split.
  - intros (pid & [Hin | Hin]%elem_of_app & Hsome); [left | right];
      by exists pid.
  - intros [(pid & Hin & Hsome) | (pid & Hin & Hsome)]; exists pid;
      (split; [apply elem_of_app; by auto | done]).
Qed.

(** X2: how a search depends on its arguments. An explicit empty list of
    profiles finds nothing (it does not mean every profile); the default is
    the list of all known profiles; a search over two lists of profiles
    finds what the searches over each find; a longer text finds no more than
    a text that occurs in it. *)
Theorem search_bookmarks_arguments url_contains self :
  search_bookmarks url_contains (Some []) self = ∅
  ∧ search_bookmarks url_contains None self
    = search_bookmarks url_contains (Some (dkeys (profiles self))) self
  ∧ (∀ ids1 ids2,
       search_bookmarks url_contains (Some (ids1 ++ ids2)) self
       = search_bookmarks url_contains (Some ids1) self
         ∪ search_bookmarks url_contains (Some ids2) self)
  ∧ (∀ longer profile_ids,
       occurs_in url_contains longer →
       search_bookmarks longer profile_ids self
       ⊆ search_bookmarks url_contains profile_ids self).
Proof.
  split; [| split; [done |]; split].
  - apply map_empty. intros url. apply eq_None_not_Some. intros [b Hb].
    apply search_bookmarks_lookup in Hb as (_ & _ & pid & Hin & _).
    by apply elem_of_nil in Hin.
  - intros ids1 ids2. apply map_eq. intros url. apply option_eq. intros b.
    rewrite lookup_union_Some_raw, !search_bookmarks_lookup. simpl.
    rewrite held_by_app. split.
    + intros (Hb & Hocc & [H1 | H2]); [by left |].
      destruct (search_bookmarks url_contains (Some ids1) self !! url)
        as [b' |] eqn:Hfirst.
      * left. apply search_bookmarks_lookup in Hfirst as (Hb' & _ & H1).
        assert (b' = b) as -> by congruence. done.
      * by right.
    + intros [(Hb & Hocc & H1) | (_ & Hb & Hocc & H2)]; auto.
  - intros longer profile_ids Hocc. apply map_subseteq_spec. intros url b.
    rewrite !search_bookmarks_lookup. intros (Hb & Hlong & Hheld).
    split; [done |]. split; [| done]. by eapply occurs_in_trans.
Qed.

(** *** The sample engine *)

Lemma engine_profiles_well_keyed :
  well_keyed (profiles engine_profiles) ∧ fresh (profiles engine_profiles).
Proof.
  destruct (fetch_all_profiles_fresh fs_sample (ChromInstance_init "/ud"))
    as [H | H]; [| exact H].
  unfold engine_profiles. rewrite H. simpl. split; [split |].
  - apply NoDup_nil_2.
  - intros k p Hin. by apply elem_of_nil in Hin.
  - intros k p Hin. by apply elem_of_nil in Hin.
Qed.

(** A bookmark discovery that starts from empty per-profile mappings and
    returns leaves the profiles and the index in agreement. *)
Lemma fetch_bookmarks_consistent fs self self' :
  well_keyed (profiles self) →
  (∀ k p, (k, p) ∈ profiles self → Profile.bookmarks p = ∅) →
  fetch_bookmarks_from_all_profiles fs self = Ok self' →
  consistent bmk_own bmk_holds bmk_good (profiles self') (bookmarks self').
Proof.
  intros Hkeyed Hempty Hrun.
  unfold fetch_bookmarks_from_all_profiles in Hrun. simpl in Hrun.
  pose proof (traversal_consistent bmk_own bmk_holds bmk_good true
                (fetch_bookmarks_of_profile fs) [] (profiles self) ∅) as H.
  destruct (for_each_value _ _ _) as [[idx' ps'] | e [idx' ps']]; [| done].
  injection Hrun as <-. simpl in *. apply H.
  - intros idx p. apply fetch_bookmarks_of_profile_sound.
  - split; [done |]. split; [| split].
    + apply Forall_forall. intros [k p] Hin [url path].
      unfold bmk_holds, bmk_own. simpl.
      rewrite (Hempty k p Hin), lookup_empty. split; [done |].
      by intros (b & Hb & _).
    + by intros url b.
    + by intros pid k (b & Hb & _).
  - done.
Qed.

Lemma engine_bookmarks_consistent :
  consistent bmk_own bmk_holds bmk_good
    (profiles engine_bookmarks) (bookmarks engine_bookmarks).
Proof.
  destruct engine_profiles_well_keyed as [Hkeyed Hfresh].
  apply (fetch_bookmarks_consistent fs_sample engine_profiles).
  - done.
  - intros k p Hin. by destruct (Hfresh k p Hin).
  - vm_compute. reflexivity.
Qed.

(** *** The default search under the integrity property *)

Lemma integrity_held_by self url b :
  bookmark_integrity self →
  bookmarks self !! url = Some b →
  held_by (dkeys (profiles self)) b.
Proof.
  intros (_ & Hback & Hgood) Hb.
  destruct (map_choose (Bookmark.profiles b)) as (pid & path & Hp);
    [by eapply Hgood |].
  destruct (Hback _ _ _ _ Hb Hp) as (p & Hin & _).
  exists pid. split; [| by eexists].
  apply list_elem_of_fmap. by exists (pid, p).
Qed.

(** X3: in an engine whose profiles and bookmark index agree, as bookmark
    discovery and deletion leave them, a search with the default profile list
    returns every bookmark of the index whose URL contains the text; with the
    empty text it returns the whole index. *)
Theorem search_default_finds_all url_contains self :
  bookmark_integrity self →
  (∀ url b,
     search_bookmarks url_contains None self !! url = Some b
     ↔ bookmarks self !! url = Some b ∧ occurs_in url_contains url)
  ∧ search_bookmarks "" None self = bookmarks self.
Proof.
  intros Hint.
  assert (Hall : ∀ text url b,
            search_bookmarks text None self !! url = Some b
            ↔ bookmarks self !! url = Some b ∧ occurs_in text url).
  { intros text url b. rewrite search_bookmarks_lookup. simpl. split.
    - by intros (Hb & Hocc & _).
    - intros [Hb Hocc]. split; [done |]. split; [done |].
      by eapply integrity_held_by. }
  split; [apply Hall |].
  apply map_eq. intros url. apply option_eq. intros b. rewrite Hall.
  split; [by intros [Hb _] |]. intros Hb. split; [done |].
  apply occurs_in_empty.
Qed.

Lemma search_default_finds_all_witness :
  bookmark_integrity engine_bookmarks
  ∧ search_bookmarks "" None engine_bookmarks = bookmarks engine_bookmarks.
Proof.
  assert (Hint : bookmark_integrity engine_bookmarks)
    by apply bmk_consistent_integrity, engine_bookmarks_consistent.
  split; [exact Hint |].
  apply (search_default_finds_all "" engine_bookmarks Hint).
Defined.

(** ** The deletion walk and the aggregation walk together *)

#[local] Arguments delete_step : simpl never.

(** A walk that returns has left the pruned tree. *)
Lemma delete_ok_prunes urls st j st' j' :
  _delete_bookmarks_in_one_folder urls (st, j) = Ok (st', j') →
  j' = prune urls j.
Proof.
  revert st st' j'. induction j as [j IH] using json_depth_ind.
  intros st st' j'.
  destruct j as [| | | | | d];
    try (unfold _delete_bookmarks_in_one_folder; simpl; done).
  destruct (is_folder d) eqn:Hf.
  - destruct (dget "children" d) as [v |] eqn:Hc.
    + destruct (json_arr_cases v) as [[children ->] | Hnl].
      * rewrite delete_folder_unfold with (children := children) by done.
        destruct (sweep _ urls children st) as [[st1 cs'] | e [st1 cs']]
          eqn:Hsweep; [| done].
        cbn [on_state]. intros [= <- <-].
        rewrite prune_folder_omap with (children := children) by done.
        do 3 f_equal. eapply sweep_prunes; [| done].
        intros c st2 st3 c' Hin. apply IH.
        apply json_depth_elem in Hin. apply json_depth_dget in Hc. lia.
      * rewrite (prune_folder_no_list urls d v) by done.
        unfold _delete_bookmarks_in_one_folder, is_folder in *.
        cbn [snd delete_bookmarks_rec].
        destruct (dget "type" d) eqn:Hty; [| done]. rewrite Hf, Hc.
        cbn [negb].
        destruct v as [| | | [] | l | []]; try done;
          try (by intros [= <- <-]).
        by destruct (Hnl l).
    + unfold _delete_bookmarks_in_one_folder, is_folder in *.
      cbn [snd delete_bookmarks_rec].
      destruct (dget "type" d); [| done]. by rewrite Hf, Hc.
  - rewrite prune_not_folder by done.
    unfold _delete_bookmarks_in_one_folder, is_folder in *.
    cbn [snd delete_bookmarks_rec].
    destruct (dget "type" d); [| done]. rewrite Hf. simpl.
    by intros [= <- <-].
Qed.


(** What [url_paths] reads of a node: its type, url, name and children. *)
Lemma url_paths_obj d ancestors :
  url_paths (JObj d) ancestors
  = if is_url d then
      match dget "url" d with
      | Some (JStr url) => [(url, ancestors)]
      | _ => []
      end
    else if is_folder d then
      match dget "name" d, dget "children" d with
      | Some (JStr name), Some (JArr children) =>
          c ← children; url_paths c (ancestors ++ [name])
      | _, _ => []
      end
    else [].
Proof.
  simpl. destruct (is_url d); [done |]. destruct (is_folder d); [| done].
  destruct (dget "name" d) as [[| | | name | |] |]; try done.
  induction d as [| [k v] d IH]; simpl; [done |].
  destruct (decide ("children" = k)) as [<- |]; [| done].
  by destruct v.
Qed.

Lemma prune_folder_no_children urls d :
  dget "children" d = None → prune urls (JObj d) = JObj d.
Proof.
  intros Hc. simpl. destruct (is_folder d); [| done]. f_equal.
  induction d as [| [k v] d IH]; simpl in *; [done |].
  destruct (decide ("children" = k)) as [<- |]; [done |].
  f_equal. by apply IH.
Qed.

(** Pruning changes nothing of a node but the list of its children. *)
Lemma prune_obj urls d :
  ∃ d', prune urls (JObj d) = JObj d'
        ∧ ∀ k, k ≠ "children" → dget k d' = dget k d.
Proof.
  destruct (is_folder d) eqn:Hf.
  2:{ exists d. by rewrite prune_not_folder. }
  destruct (dget "children" d) as [v |] eqn:Hc.
  2:{ exists d. by rewrite prune_folder_no_children. }
  destruct (json_arr_cases v) as [[children ->] | Hnl].
  2:{ exists d. by rewrite (prune_folder_no_list urls d v). }
  eexists. split; [by apply prune_folder_omap |].
  intros k Hk. rewrite dget_dset. by rewrite decide_False.
Qed.

Lemma doomed_url_paths urls c ancestors :
  doomed urls c = true →
  ∃ url, url ∈ urls ∧ url_paths c ancestors = [(url, ancestors)].
Proof.
  destruct c as [| | | | | d]; try done. unfold doomed.
  destruct (dget "type" d) as [ty |] eqn:Hty; [| done].
  destruct (dget "url" d) as [[| | | url | |] |] eqn:Hurl; try done.
  intros [Hu Hin%bool_decide_eq_true]%andb_true_iff.
  exists url. split; [done |].
  apply url_paths_url; [| done]. unfold is_url. by rewrite Hty.
Qed.

(** The url nodes of the pruned tree are those of the tree whose URL is not
    in the delete set, in the same order and under the same folders. *)
Lemma url_paths_prune urls j ancestors :
  doomed urls j = false →
  url_paths (prune urls j) ancestors
  = filter (λ found, found.1 ∉ urls) (url_paths j ancestors).
Proof.
  revert ancestors. induction j as [j IH] using json_depth_ind.
  intros ancestors Hkeep.
  destruct j as [| | | | | d]; try done.
  destruct (is_url d) eqn:Hu.
  { assert (Hf : is_folder d = false).
    { unfold is_url, is_folder in *. destruct (dget "type" d); [| done].
      by apply is_str_url_not_folder. }
    rewrite prune_not_folder by done. rewrite url_paths_obj, Hu.
    destruct (dget "url" d) as [[| | | url | |] |] eqn:Hurl; try done.
    rewrite filter_cons_True, filter_nil; [done |]. simpl.
    unfold doomed, is_url in *. rewrite Hurl in Hkeep.
    destruct (dget "type" d); [| done]. rewrite Hu in Hkeep. simpl in Hkeep.
    by apply bool_decide_eq_false in Hkeep. }
  destruct (is_folder d) eqn:Hf.
  2:{ rewrite prune_not_folder by done.
      by rewrite url_paths_neither by done. }
  destruct (dget "children" d) as [v |] eqn:Hc.
  2:{ rewrite prune_folder_no_children by done.
      rewrite url_paths_obj, Hu, Hf, Hc. by destruct (dget "name" d) as [[] |]. }
  destruct (json_arr_cases v) as [[children ->] | Hnl].
  2:{ rewrite (prune_folder_no_list urls d v) by done.
      by rewrite (url_paths_folder_no_list d ancestors v) by done. }
  rewrite prune_folder_omap with (children := children) by done.
  rewrite !url_paths_obj.
  assert (Hty : ∀ v', dget "type" (dset "children" v' d) = dget "type" d).
  { intros v'. rewrite dget_dset. by rewrite decide_False. }
  unfold is_url, is_folder in *. rewrite Hty, Hu, Hf.
  rewrite !dget_dset, decide_False, decide_True, Hc by done.
  destruct (dget "name" d) as [[| | | name | |] |]; try done.
  assert (Hchildren : ∀ c, c ∈ children → doomed urls c = false →
            url_paths (prune urls c) (ancestors ++ [name])
            = filter (λ found, found.1 ∉ urls)
                (url_paths c (ancestors ++ [name]))).
  { intros c Hin. apply IH.
    apply json_depth_elem in Hin. apply json_depth_dget in Hc. lia. }
  clear IH Hc Hkeep.
  set (f := λ c, if doomed urls c then None else Some (prune urls c)).
  induction children as [| c children IHc]; [done |].
  rewrite bind_cons, filter_app.
  rewrite <- IHc by (intros; apply Hchildren; [by right | done]).
  destruct (doomed urls c) eqn:Hd.
  - replace (omap f (c :: children)) with (omap f children)
      by (unfold f; simpl; by rewrite Hd).
    destruct (doomed_url_paths urls c (ancestors ++ [name]) Hd)
      as (url & Hin & ->).
    by rewrite filter_cons_False, filter_nil by (simpl; tauto).
  - replace (omap f (c :: children)) with (prune urls c :: omap f children)
      by (unfold f; simpl; by rewrite Hd).
    rewrite bind_cons. by rewrite Hchildren by (left || done).
Qed.

(** X4: a discovery walk over the tree that a deletion walk returned
    records the url nodes of the original tree whose URL is not in the
    delete set, in their order and with their folder paths, and nothing
    else; the root itself, which a walk never removes, must not be a url node
    of the delete set. *)
Theorem discovery_after_deletion urls st j st' j' ancestors s s' :
  doomed urls j = false →
  _delete_bookmarks_in_one_folder urls (st, j) = Ok (st', j') →
  _fetch_bookmarks_from_one_type j' (JStr <$> ancestors) s = Ok s' →
  let kept := filter (λ found, found.1 ∉ urls) (url_paths j ancestors) in
  Profile.bookmarks s'.2 = record_paths (Profile.bookmarks s.2) kept
  ∧ indexed s' kept.
Proof.
  intros Hroot Hdel Hfetch kept.
  apply delete_ok_prunes in Hdel as ->.
  destruct (fetch_ok_records _ _ _ _ Hfetch) as (Hbm & _ & Hidx).
  rewrite url_paths_prune in Hbm, Hidx by done.
  split; [done |]. apply (Hidx []), indexed_nil.
Qed.

Lemma discovery_after_deletion_witness :
  let s' := state_of (_fetch_bookmarks_from_one_type bar_three [JStr ""]
                        (∅, default_profile)) in
  Profile.bookmarks s'.2 !! "http://x.example" = Some "/Bar/Work"
  ∧ Profile.bookmarks s'.2 !! "http://d.example" = Some "/Bar"
  ∧ Profile.bookmarks s'.2 !! "http://b.example" = None.
Proof.
  intros s'.
  destruct (discovery_after_deletion
              ["http://b.example"; "http://c.example"]
              (∅, default_profile) bar_five
              (state_of (_delete_bookmarks_in_one_folder
                           ["http://b.example"; "http://c.example"]
                           ((∅, default_profile), bar_five))).1
              bar_three [""] (∅, default_profile) s')
    as [Hbm _].
  - reflexivity.
  - vm_compute. reflexivity.
  - vm_compute. reflexivity.
  - rewrite Hbm. repeat split; vm_compute; reflexivity.
Defined.

(** *** Deleting again *)

Lemma dset_dset {V} k (v v' : V) (d : list (string * V)) :
  dset k v (dset k v' d) = dset k v d.
Proof.
  induction d as [| [k0 v0] d IH]; simpl.
  - by rewrite decide_True.
  - destruct (decide (k = k0)) as [-> |]; simpl.
    + by rewrite decide_True.
    + rewrite decide_False by done. by rewrite IH.
Qed.

Lemma omap_cons {A B} (f : A → option B) x (l : list A) :
  omap f (x :: l)
  = match f x with Some y => y :: omap f l | None => omap f l end.
Proof. done. Qed.

Lemma sweep_again walk urls children st st' children' :
  (∀ c st st' c', c ∈ children → walk (st, c) = Ok (st', c') →
     ∀ st2, walk (st2, prune urls c) = Ok (st2, prune urls c)) →
  sweep walk urls children st = Ok (st', children') →
  let pruned := omap (λ c, if doomed urls c then None
                           else Some (prune urls c)) children in
  ∀ st2, sweep walk urls pruned st2 = Ok (st2, pruned).
Proof.
  revert st' children'.
  induction children as [| c rest IH]; intros st' children' Hw; [done |].
  cbn [sweep].
  destruct (sweep walk urls rest st) as [[st1 rest'] | e [st1 rest']] eqn:Hrest;
    [| done].
  specialize (IH st1 rest' ltac:(intros; eapply Hw; [by right | done]) eq_refl).
  cbn zeta in IH |- *.
  set (f := λ c, if doomed urls c then None else Some (prune urls c)) in *.
  intros Hrun. unfold delete_step in Hrun. simpl in Hrun.
  destruct c as [| | | | | d]; try done.
  destruct (dget "type" d) as [ty |] eqn:Hty; [| done].
  assert (Hstep : ∀ st2,
            doomed urls (JObj d) = false →
            delete_step walk urls 0 (st2, [prune urls (JObj d)])
            = Ok (st2, [prune urls (JObj d)]) →
            sweep walk urls (omap f (JObj d :: rest)) st2
            = Ok (st2, omap f (JObj d :: rest))).
  { intros st2 Hd Hs. rewrite omap_cons.
    change (f (JObj d))
      with (if doomed urls (JObj d) then None
            else Some (prune urls (JObj d))).
    rewrite Hd. cbn [sweep]. rewrite IH, Hs. done. }
  destruct (is_str ty "url") eqn:Hurl.
  - assert (Hnf : is_folder d = false).
    { unfold is_folder. rewrite Hty. by apply is_str_url_not_folder. }
    assert (Hsame : ∀ st2,
              doomed urls (JObj d) = false →
              delete_step walk urls 0 (st2, [JObj d]) = Ok (st2, [JObj d]) →
              sweep walk urls (omap f (JObj d :: rest)) st2
              = Ok (st2, omap f (JObj d :: rest))).
    { intros st2 Hd Hs. apply Hstep; [done |].
      by rewrite prune_not_folder. }
    destruct (dget "url" d) as [[| | | url | |] |] eqn:Hu; try done;
      try (intros st2; apply Hsame;
           [by (unfold doomed; rewrite Hty, Hu)
           | by (unfold delete_step; simpl; rewrite Hty, Hurl, Hu)]).
    destruct (bool_decide (url ∈ urls)) eqn:Hin.
    + intros st2. rewrite omap_cons.
      change (f (JObj d))
        with (if doomed urls (JObj d) then None
              else Some (prune urls (JObj d))).
      unfold doomed. rewrite Hty, Hu, Hurl, Hin. apply IH.
    + intros st2. apply Hsame.
      * unfold doomed. by rewrite Hty, Hu, Hurl, Hin.
      * unfold delete_step. simpl. by rewrite Hty, Hurl, Hu, Hin.
  - destruct (walk (st1, JObj d)) as [[st2' c'] | e [st2' c']] eqn:Hwalk;
      [| done].
    intros st2. apply Hstep.
    + unfold doomed. rewrite Hty, Hurl.
      by destruct (dget "url" d) as [[| | | ? | |] |].
    + destruct (prune_obj urls d) as (d' & Hd' & Hkeys).
      rewrite Hd'. unfold delete_step. simpl.
      rewrite Hkeys, Hty, Hurl by done.
      rewrite <- Hd', (Hw _ _ _ _ ltac:(left) Hwalk st2). done.
Qed.

(** A walk that returned changes nothing when it is run on the tree it
    left, whatever the state. *)
Lemma delete_again urls st j st' j' :
  _delete_bookmarks_in_one_folder urls (st, j) = Ok (st', j') →
  ∀ st2, _delete_bookmarks_in_one_folder urls (st2, prune urls j)
         = Ok (st2, prune urls j).
Proof.
  revert st st' j'. induction j as [j IH] using json_depth_ind.
  intros st st' j'.
  destruct j as [| | | | | d];
    try (unfold _delete_bookmarks_in_one_folder; simpl; done).
  destruct (is_folder d) eqn:Hf.
  - destruct (dget "children" d) as [v |] eqn:Hc.
    + destruct (json_arr_cases v) as [[children ->] | Hnl].
      * rewrite delete_folder_unfold with (children := children) by done.
        destruct (sweep _ urls children st) as [[st1 cs'] | e [st1 cs']]
          eqn:Hsweep; [| done].
        intros _ st2.
        rewrite prune_folder_omap with (children := children) by done.
        set (pruned := omap _ children).
        rewrite delete_folder_unfold with (children := pruned).
        -- rewrite (sweep_again _ urls children st st1 cs'); [| | done].
           ++ cbn [on_state]. by rewrite dset_dset.
           ++ intros c s1 s2 c' Hin. apply IH.
              apply json_depth_elem in Hin. apply json_depth_dget in Hc. lia.
        -- unfold is_folder in *. rewrite dget_dset.
           by rewrite decide_False.
        -- rewrite dget_dset. by rewrite decide_True.
      * rewrite (prune_folder_no_list urls d v) by done.
        unfold _delete_bookmarks_in_one_folder, is_folder in *.
        cbn [snd delete_bookmarks_rec].
        destruct (dget "type" d) eqn:Hty; [| done]. rewrite Hf, Hc.
        cbn [negb].
        destruct v as [| | | [] | l | []]; try done.
        by destruct (Hnl l).
    + unfold _delete_bookmarks_in_one_folder, is_folder in *.
      cbn [snd delete_bookmarks_rec].
      destruct (dget "type" d); [| done]. by rewrite Hf, Hc.
  - rewrite prune_not_folder by done.
    unfold _delete_bookmarks_in_one_folder, is_folder in *.
    cbn [snd delete_bookmarks_rec].
    destruct (dget "type" d); [| done]. by rewrite Hf.
Qed.

(** X5: deleting is idempotent on the tree. A deletion walk run again, with
    the same delete set, on the tree that a first walk returned, returns that
    tree unchanged and leaves the index and the profile as they are. *)
Theorem deletion_walk_idempotent urls st j st' j' :
  _delete_bookmarks_in_one_folder urls (st, j) = Ok (st', j') →
  ∀ st2, _delete_bookmarks_in_one_folder urls (st2, j') = Ok (st2, j').
Proof.
  intros Hrun st2. rewrite (delete_ok_prunes _ _ _ _ _ Hrun).
  by eapply delete_again.
Qed.

Lemma deletion_walk_idempotent_witness :
  _delete_bookmarks_in_one_folder ["http://b.example"; "http://c.example"]
    ((bookmarks engine_bookmarks, default_profile), bar_three)
  = Ok ((bookmarks engine_bookmarks, default_profile), bar_three).
Proof.
  apply (deletion_walk_idempotent
           ["http://b.example"; "http://c.example"]
           (∅, default_profile) bar_five
           (state_of (_delete_bookmarks_in_one_folder
                        ["http://b.example"; "http://c.example"]
                        ((∅, default_profile), bar_five))).1
           bar_three).
  vm_compute. reflexivity.
Defined.

(** ** What a deletion changes, and what it leaves alone *)

(** *** Any property of the steps that forgetting a bookmark has *)

Section DeletionSteps.
Context (R : bmk_state → bmk_state → Prop) `{!PreOrder R}.
Context (urls : list string).
Hypothesis forget_rel : ∀ url st, url ∈ urls → R st (forget_bookmark url st).

Lemma delete_step_rel walk i s :
  (∀ s, R s.1 (state_of (walk s)).1) →
  on_fst R s (state_of (delete_step walk urls i s)).
Proof.
  intros Hwalk. destruct s as [st children]. unfold delete_step, on_fst.
  destruct (children !! i) as [[| | | | | child] |]; try reflexivity.
  destruct (dget "type" child) as [ty |]; [| reflexivity].
  destruct (is_str ty "url").
  - destruct (dget "url" child) as [[| | | url | |] |]; try reflexivity.
    destruct (bool_decide (url ∈ urls)) eqn:Hin; [| reflexivity].
    apply forget_rel. by apply bool_decide_eq_true in Hin.
  - rewrite state_of_on_state. specialize (Hwalk (st, JObj child)).
    by destruct (state_of (walk (st, JObj child))).
Qed.

Lemma delete_bookmarks_rec_rel fuel s :
  R s.1 (state_of (delete_bookmarks_rec fuel urls s)).1.
Proof.
  revert s. induction fuel as [| fuel IH]; intros s; [reflexivity |].
  cbn [delete_bookmarks_rec]. destruct s as [st j].
  destruct j as [| | | | | d]; try reflexivity.
  destruct (dget "type" d) as [ty |]; [| reflexivity].
  destruct (negb (is_str ty "folder")); [reflexivity |].
  destruct (dget "children" d) as [[| | | [] | children | []] |];
    try reflexivity.
  rewrite state_of_on_state.
  pose proof (for_each_rel (on_fst R) false
                (delete_step (delete_bookmarks_rec fuel urls) urls)
                (reverse (seq 0 (length children))) (st, children)) as H.
  unfold on_fst in H at 2.
  destruct (state_of (for_each _ _ _)) as [st' children']. apply H; [| done].
  intros i s _. by apply delete_step_rel.
Qed.

(** The loop over the roots of a bookmark file. *)
Lemma delete_roots_rel roots st :
  R st (state_of (for_each_value (_delete_bookmarks_in_one_folder urls)
                    roots st)).1.
Proof.
  apply (for_each_value_rel R false); [| done].
  intros s v _. apply (delete_bookmarks_rec_rel _ (s, v)).
Qed.

End DeletionSteps.

(** *** Deletion removes, and only what it was asked to *)

Lemma same_but_bookmarks_refl p : same_but_bookmarks p p.
Proof. by destruct p. Qed.

Lemma same_but_bookmarks_trans p1 p2 p3 :
  same_but_bookmarks p1 p2 → same_but_bookmarks p2 p3 →
  same_but_bookmarks p1 p3.
Proof. unfold same_but_bookmarks. intros -> ->. by destruct p1. Qed.

#[global] Instance index_shrunk_preorder : PreOrder index_shrunk.
Proof.
  split.
  - intros idx url b Hb. by exists b.
  - intros idx1 idx2 idx3 H12 H23 url b3 Hb3.
    destruct (H23 _ _ Hb3) as (b2 & Hb2 & Hn2 & Hu2 & Hp2).
    destruct (H12 _ _ Hb2) as (b1 & Hb1 & Hn1 & Hu1 & Hp1).
    exists b1. repeat split; try congruence. by etrans.
Qed.

#[global] Instance deleted_preorder urls : PreOrder (deleted urls).
Proof.
  split.
  - intros st. split; [apply same_but_bookmarks_refl |]. split; [done |].
    split; [reflexivity | done].
  - intros st1 st2 st3 (Hs1 & Hb1 & Hi1 & Hu1) (Hs2 & Hb2 & Hi2 & Hu2).
    split; [by eapply same_but_bookmarks_trans |].
    split; [by etrans |]. split; [by etrans |].
    intros url Hurl. destruct (Hu1 url Hurl) as [H1 H2].
    destruct (Hu2 url Hurl) as [H3 H4]. split; congruence.
Qed.

Lemma forget_bookmark_deleted urls url st :
  url ∈ urls → deleted urls st (forget_bookmark url st).
Proof.
  intros Hin. destruct st as [idx p].
  assert (Hgoal : ∀ idx',
            index_shrunk idx idx' →
            (∀ url', url' ≠ url → idx' !! url' = idx !! url') →
            deleted urls (idx, p)
              (idx',
               Profile.set_bookmarks (delete url (Profile.bookmarks p)) p)).
  { intros idx' Hshrunk Hother. split; [by destruct p |]. simpl.
    split; [apply delete_subseteq |]. split; [done |].
    intros url' Hurl'.
    assert (url' ≠ url) by by intros ->.
    split; [by apply Hother | by apply lookup_delete_ne]. }
  unfold forget_bookmark.
  destruct (idx !! url) as [b |] eqn:Hb; [| by apply Hgoal].
  destruct (bool_decide _); [| by apply Hgoal]. cbn zeta.
  destruct (decide _).
  - apply Hgoal.
    + intros url' b' [_ Hb']%lookup_delete_Some. by exists b'.
    + intros url' Hne. by apply lookup_delete_ne.
  - apply Hgoal.
    + intros url' b'. destruct (decide (url' = url)) as [-> | Hne].
      * rewrite lookup_insert_eq. intros [= <-]. exists b.
        repeat split; try done. apply delete_subseteq.
      * rewrite lookup_insert_ne by done. intros Hb'. by exists b'.
    + intros url' Hne. by apply lookup_insert_ne.
Qed.

#[global] Instance profile_deleted_preorder urls :
  PreOrder (profile_deleted urls).
Proof.
  split.
  - intros kp. split; [done |]. split; [apply same_but_bookmarks_refl |].
    done.
  - intros kp1 kp2 kp3 (Hk1 & Hs1 & Hb1 & Hu1) (Hk2 & Hs2 & Hb2 & Hu2).
    split; [congruence |]. split; [by eapply same_but_bookmarks_trans |].
    split; [by etrans |].
    intros url Hurl. rewrite Hu2 by done. by apply Hu1.
Qed.

#[global] Instance engine_deleted_preorder urls :
  PreOrder (engine_deleted urls).
Proof.
  split.
  - intros self. repeat split; done.
  - intros s1 s2 s3 (Hd1 & He1 & Hi1 & Hu1 & Hp1) (Hd2 & He2 & Hi2 & Hu2 & Hp2).
    split; [congruence |]. split; [congruence |]. split; [by etrans |].
    split.
    + intros url Hurl. rewrite Hu2 by done. by apply Hu1.
    + by etrans.
Qed.

Lemma Forall2_dset {V} (R : string * V → string * V → Prop) k v v'
    (d : list (string * V)) :
  (∀ x, R x x) → dget k d = Some v → R (k, v) (k, v') →
  Forall2 R d (dset k v' d).
Proof.
  intros Hrefl Hget Hv.
  destruct (dget_split _ _ _ Hget) as (pre & rest & -> & _ & Hset).
  rewrite Hset. apply Forall2_app; [by apply Forall_Forall2_diag, Forall_true |].
  constructor; [done |]. by apply Forall_Forall2_diag, Forall_true.
Qed.

(** Writing back the profile and the index after a walk. *)
Lemma commit_engine_deleted urls pid profile st' self :
  dget pid (profiles self) = Some profile →
  deleted urls (bookmarks self, profile) st' →
  engine_deleted urls self (commit pid st' self).
Proof.
  intros Hget (Hsame & Hsub & Hshrunk & Hother). unfold commit. simpl in *.
  repeat split; try done.
  - intros url Hurl. by apply Hother.
  - apply Forall2_dset with (v := profile); [reflexivity | done |].
    repeat split; try done. intros url Hurl. by apply Hother.
Qed.

Lemma delete_bookmarks_of_profile_deleted urls pid w :
  on_snd (engine_deleted urls) w
    (state_of (delete_bookmarks_of_profile urls pid w)).
Proof.
  destruct w as [fs self]. unfold on_snd.
  destruct (delete_bookmarks_of_profile_engine urls pid fs self)
    as [-> | (profile & roots & Hget & ->)]; [reflexivity |].
  simpl. eapply commit_engine_deleted; [done |].
  apply (delete_roots_rel (deleted urls)).
  intros url st Hin. by apply forget_bookmark_deleted.
Qed.

#[global] Instance on_snd_preorder {A B} (R : B → B → Prop) `{!PreOrder R} :
  PreOrder (@on_snd A B R).
Proof.
  split.
  - intros s. unfold on_snd. reflexivity.
  - intros s1 s2 s3. unfold on_snd. apply transitivity.
Qed.

Lemma delete_bookmarks_engine_deleted urls ids fs self :
  engine_deleted urls self
    (state_of (delete_bookmarks_from_profiles urls ids (fs, self))).2.
Proof.
  unfold delete_bookmarks_from_profiles.
  apply (for_each_rel (on_snd (engine_deleted urls)) false); [| done].
  intros pid w _. apply delete_bookmarks_of_profile_deleted.
Qed.

(** X6: whatever its outcome, a deletion changes nothing of the engine but
    the bookmark index and the URL-to-path mappings of the profiles: the
    user-data directory, the extension index, the profile identifiers and
    their order, and every other field of every profile are as they were. *)
Theorem deletion_changes_only_bookmarks urls ids fs self :
  let self' :=
    (state_of (delete_bookmarks_from_profiles urls ids (fs, self))).2 in
  userdata_dir self' = userdata_dir self
  ∧ extensions self' = extensions self
  ∧ Forall2 (λ kp kp',
               kp'.1 = kp.1
               ∧ kp'.2 = Profile.set_bookmarks (Profile.bookmarks kp'.2) kp.2)
      (profiles self) (profiles self').
Proof.
  destruct (delete_bookmarks_engine_deleted urls ids fs self)
    as (Hdir & Hext & _ & _ & Hps).
  split; [done |]. split; [done |].
  eapply Forall2_impl; [exact Hps |]. by intros kp kp' (Hk & Hsame & _).
Qed.

(** X7: whatever its outcome, a deletion only removes: every bookmark of
    the index afterwards was in the index before, with the same name and
    URL and with no profile it did not have; every profile's URL-to-path
    mapping afterwards is contained in what it was. *)
Theorem deletion_only_removes urls ids fs self :
  let self' :=
    (state_of (delete_bookmarks_from_profiles urls ids (fs, self))).2 in
  (∀ url b',
     bookmarks self' !! url = Some b' →
     ∃ b, bookmarks self !! url = Some b
          ∧ Bookmark.name b' = Bookmark.name b
          ∧ Bookmark.url b' = Bookmark.url b
          ∧ Bookmark.profiles b' ⊆ Bookmark.profiles b)
  ∧ Forall2 (λ kp kp', Profile.bookmarks kp'.2 ⊆ Profile.bookmarks kp.2)
      (profiles self) (profiles self').
Proof.
  destruct (delete_bookmarks_engine_deleted urls ids fs self)
    as (_ & _ & Hshrunk & _ & Hps).
  split; [exact Hshrunk |].
  eapply Forall2_impl; [exact Hps |]. by intros kp kp' (_ & _ & Hsub & _).
Qed.

(** X8: whatever its outcome, a deletion leaves every URL that is not in
    the delete list as it was: its bookmark in the index, and its path in
    every profile. *)
Theorem deletion_spares_other_urls urls ids fs self url :
  url ∉ urls →
  let self' :=
    (state_of (delete_bookmarks_from_profiles urls ids (fs, self))).2 in
  bookmarks self' !! url = bookmarks self !! url
  ∧ Forall2 (λ kp kp',
               Profile.bookmarks kp'.2 !! url = Profile.bookmarks kp.2 !! url)
      (profiles self) (profiles self').
Proof.
  intros Hurl.
  destruct (delete_bookmarks_engine_deleted urls ids fs self)
    as (_ & _ & _ & Hidx & Hps).
  split; [by apply Hidx |].
  eapply Forall2_impl; [exact Hps |].
  intros kp kp' (_ & _ & _ & Hother). by apply Hother.
Qed.

Lemma deletion_spares_other_urls_witness :
  bookmarks engine_after_deletion !! "http://d.example"
  = bookmarks engine_bookmarks !! "http://d.example"
  ∧ Forall2 (λ kp kp',
               Profile.bookmarks kp'.2 !! "http://d.example"
               = Profile.bookmarks kp.2 !! "http://d.example")
      (profiles engine_bookmarks) (profiles engine_after_deletion).
Proof.
  apply (deletion_spares_other_urls ["http://a.example"; "http://x.example"]
           None fs_sample engine_bookmarks "http://d.example").
  apply (bool_decide_unpack _). vm_compute. exact I.
Defined.

(** X9: with an empty list of URLs a deletion leaves the engine as it is,
    whatever its outcome and whatever the files hold. *)
Theorem deletion_of_nothing ids fs self :
  (state_of (delete_bookmarks_from_profiles [] ids (fs, self))).2 = self.
Proof.
  destruct (delete_bookmarks_engine_deleted [] ids fs self)
    as (Hdir & Hext & _ & Hidx & Hps).
  destruct (state_of _).2 as [dir' ps' exts' idx']. destruct self. simpl in *.
  f_equal; try done.
  - symmetry. apply list_eq_Forall2. eapply Forall2_impl; [exact Hps |].
    intros [k p] [k' p'] (Hk & Hsame & _ & Hother). simpl in *.
    rewrite Hsame. subst k'. f_equal.
    replace (Profile.bookmarks p') with (Profile.bookmarks p);
      [by destruct p |].
    apply map_eq. intros url. symmetry. apply Hother, not_elem_of_nil.
  - apply map_eq. intros url. apply Hidx, not_elem_of_nil.
Qed.

(** *** Profiles that a deletion was not asked to work on *)

Lemma delete_bookmarks_of_profile_others urls a pid w :
  a ≠ pid →
  well_keyed (profiles w.2) →
  let w' := state_of (delete_bookmarks_of_profile urls a w) in
  well_keyed (profiles w'.2)
  ∧ dget pid (profiles w'.2) = dget pid (profiles w.2)
  ∧ ∀ k, bmk_own (bookmarks w'.2) pid k ↔ bmk_own (bookmarks w.2) pid k.
Proof.
  destruct w as [fs self]. intros Hne Hkeyed. cbn zeta. cbn [snd] in *.
  destruct (delete_bookmarks_of_profile_engine urls a fs self)
    as [-> | (profile & roots & Hget & ->)]; [done |].
  pose proof (delete_roots_rel bmk_sound urls
                (λ url st _, forget_bookmark_sound url st)
                roots (bookmarks self, profile)) as (Hid & Hothers & _).
  set (st' := (state_of (for_each_value _ roots _)).1) in *.
  assert (Ha : Profile.id profile = a).
  { destruct Hkeyed as [_ Hkeys]. by apply Hkeys, dget_Some_elem_of. }
  unfold commit. simpl in *. split; [| split].
  - apply dset_well_keyed; [done | congruence].
  - rewrite dget_dset. by rewrite decide_False.
  - intros k. apply Hothers. congruence.
Qed.

(** X10: a deletion restricted to a list of profiles leaves every other
    profile alone, whatever its outcome: the profile object is the one it
    was, and the bookmarks of the index map its identifier to the paths
    they did. The engine's [profiles] is keyed by the profiles' own
    identifiers, as profile discovery builds it. *)
Theorem deletion_leaves_other_profiles urls ids fs self pid :
  well_keyed (profiles self) →
  pid ∉ ids →
  let self' :=
    (state_of (delete_bookmarks_from_profiles urls (Some ids) (fs, self))).2 in
  dget pid (profiles self') = dget pid (profiles self)
  ∧ ∀ url path,
      (∃ b', bookmarks self' !! url = Some b'
             ∧ Bookmark.profiles b' !! pid = Some path)
      ↔ (∃ b, bookmarks self !! url = Some b
              ∧ Bookmark.profiles b !! pid = Some path).
Proof.
  intros Hkeyed Hpid. unfold delete_bookmarks_from_profiles. simpl.
  set (R := λ w w' : filesystem * ChromInstance,
         well_keyed (profiles w.2) →
         well_keyed (profiles w'.2)
         ∧ dget pid (profiles w'.2) = dget pid (profiles w.2)
         ∧ ∀ k, bmk_own (bookmarks w'.2) pid k ↔ bmk_own (bookmarks w.2) pid k).
  assert (Hpre : PreOrder R).
  { split.
    - by intros w Hw.
    - intros w1 w2 w3 H12 H23 Hw1.
      destruct (H12 Hw1) as (Hw2 & Hg2 & Ho2).
      destruct (H23 Hw2) as (Hw3 & Hg3 & Ho3).
      split; [done |]. split; [congruence |].
      intros k. by rewrite Ho3. }
  destruct (for_each_rel_in R false (delete_bookmarks_of_profile urls) ids
              (fs, self)) as (_ & Hget & Hown); [| done | done |].
  - intros a w Hin _ Hw. apply delete_bookmarks_of_profile_others; [| done].
    by intros ->.
  - split; [done |]. intros url path. apply (Hown (url, path)).
Qed.

Lemma deletion_leaves_other_profiles_witness :
  let self' :=
    (state_of (delete_bookmarks_from_profiles ["http://a.example"]
                 (Some ["Default"]) (fs_sample, engine_bookmarks))).2 in
  dget "Work" (profiles self') = dget "Work" (profiles engine_bookmarks)
  ∧ ∀ url path,
      (∃ b', bookmarks self' !! url = Some b'
             ∧ Bookmark.profiles b' !! "Work" = Some path)
      ↔ (∃ b, bookmarks engine_bookmarks !! url = Some b
              ∧ Bookmark.profiles b !! "Work" = Some path).
Proof.
  apply (deletion_leaves_other_profiles ["http://a.example"] ["Default"]
           fs_sample engine_bookmarks "Work").
  - apply engine_bookmarks_consistent.
  - apply (bool_decide_unpack _). vm_compute. exact I.
Defined.

(** *** The files a deletion touches *)

Lemma dget_profile_deleted urls ps ps' k p' :
  Forall2 (profile_deleted urls) ps ps' →
  dget k ps' = Some p' →
  ∃ p, dget k ps = Some p ∧ same_but_bookmarks p p'.
Proof.
  induction 1 as [| [k0 p0] [k1 p1] ps ps' (Hk & Hsame & _) _ IH]; [done |].
  simpl in *. subst k1. destruct (decide (k = k0)); [| done].
  intros [= <-]. by exists p0.
Qed.

Lemma write_back_dirs file doc fs self :
  fs_dirs (state_of (write_back file doc fs self)).1 = fs_dirs fs.
Proof. unfold write_back, write_json. by destruct (encodable doc). Qed.

Lemma write_back_files file doc fs self path :
  path ≠ file →
  fs_files (state_of (write_back file doc fs self)).1 !! path
  = fs_files fs !! path.
Proof.
  intros Hne. unfold write_back, write_json.
  destruct (encodable doc); simpl; by rewrite lookup_insert_ne.
Qed.

(** The body of the loop writes to no directory, and to no file but the
    backup and the bookmark file of its profile. *)
Lemma delete_bookmarks_of_profile_files urls pid fs self path :
  (∀ profile,
     dget pid (profiles self) = Some profile →
     path ≠ Profile.profile_dir profile // "Bookmarks.bak"
     ∧ path ≠ py_path (Profile.bookmark_file profile)) →
  let fs' := (state_of (delete_bookmarks_of_profile urls pid (fs, self))).1 in
  fs_dirs fs' = fs_dirs fs ∧ fs_files fs' !! path = fs_files fs !! path.
Proof.
  intros Hpath. unfold delete_bookmarks_of_profile.
  destruct (dget pid (profiles self)) as [profile |]; [| done].
  destruct (Hpath profile eq_refl) as [Hbak Hfile].
  cbn zeta. destruct (is_dir fs _); [done |].
  set (fs1 := unlink _ fs).
  assert (fs_dirs fs1 = fs_dirs fs
          ∧ fs_files fs1 !! path = fs_files fs !! path) as [<- <-].
  { split; [done |]. simpl. by rewrite lookup_delete_ne. }
  clearbody fs1.
  repeat (case_match; simpl;
          rewrite ?write_back_dirs, ?write_back_files by done; try done).
Qed.

Lemma delete_loop_files urls ids path w :
  (∀ pid profile,
     pid ∈ ids →
     dget pid (profiles w.2) = Some profile →
     path ≠ Profile.profile_dir profile // "Bookmarks.bak"
     ∧ path ≠ py_path (Profile.bookmark_file profile)) →
  let w' := state_of (for_each (delete_bookmarks_of_profile urls) ids w) in
  fs_dirs w'.1 = fs_dirs w.1 ∧ fs_files w'.1 !! path = fs_files w.1 !! path.
Proof.
  revert w. induction ids as [| a ids IH]; intros [fs self] Hpath; [done |].
  cbn zeta. cbn [for_each].
  pose proof (delete_bookmarks_of_profile_files urls a fs self path
                (λ profile, Hpath a profile ltac:(left))) as [Hdirs Hfiles].
  pose proof (delete_bookmarks_of_profile_deleted urls a (fs, self))
    as (_ & _ & _ & _ & Hps).
  destruct (delete_bookmarks_of_profile urls a (fs, self)) as [w1 | e w1];
    simpl in *; [| done].
  destruct (IH w1) as [Hdirs' Hfiles'].
  - intros pid profile1 Hin Hget.
    destruct (dget_profile_deleted _ _ _ _ _ Hps Hget) as (profile & Hp & Hsame).
    destruct (Hpath pid profile ltac:(by right) Hp) as [H1 H2].
    rewrite Hsame. by destruct profile.
  - split; congruence.
Qed.

(** X11: whatever its outcome, a deletion creates and removes no directory
    and changes no file other than the backup files [Bookmarks.bak] and the
    recorded bookmark files of the profiles it was asked to work on, at the
    paths that [pathlib] prints for them (the recorded string itself when
    a discovery recorded it). *)
Theorem deletion_touches_only_bookmark_files urls ids fs self path :
  (∀ pid profile,
     pid ∈ from_option id (dkeys (profiles self)) ids →
     dget pid (profiles self) = Some profile →
     path ≠ Profile.profile_dir profile // "Bookmarks.bak"
     ∧ path ≠ py_path (Profile.bookmark_file profile)) →
  let fs' :=
    (state_of (delete_bookmarks_from_profiles urls ids (fs, self))).1 in
  fs_dirs fs' = fs_dirs fs ∧ fs_files fs' !! path = fs_files fs !! path.
Proof.
  intros Hpath. unfold delete_bookmarks_from_profiles.
  by apply (delete_loop_files urls _ path (fs, self)).
Qed.

Lemma deletion_touches_only_bookmark_files_witness :
  let fs' :=
    (state_of (delete_bookmarks_from_profiles ["http://a.example"]
                 (Some ["Default"]) (fs_sample, engine_bookmarks))).1 in
  fs_dirs fs' = fs_dirs fs_sample
  ∧ fs_files fs' !! "/ud/Work/Bookmarks"
    = fs_files fs_sample !! "/ud/Work/Bookmarks".
Proof.
  apply (deletion_touches_only_bookmark_files ["http://a.example"]
           (Some ["Default"]) fs_sample engine_bookmarks "/ud/Work/Bookmarks").
  intros pid profile Hin Hget. simpl in Hin.
  apply list_elem_of_singleton in Hin as ->.
  vm_compute in Hget. injection Hget as <-. split; discriminate.
Defined.

(** *** The file a deletion writes *)








(** A bookmark name with a lone surrogate: the deletion of nothing empties
    the bookmark file and raises. *)
Example deletion_fails_on_surrogate :
  let engine :=
    state_of (fetch_bookmarks_from_all_profiles fs_surrogate
                (state_of (fetch_all_profiles fs_surrogate
                             (ChromInstance_init "/ud")))) in
  let run := delete_bookmarks_from_profiles [] None (fs_surrogate, engine) in
  run = Raise UnicodeEncodeError
          (with_file "/ud/Default/Bookmarks" NotJson fs_surrogate, engine).
Proof. vm_compute. reflexivity. Qed.

(** ** What a discovery changes, and what it leaves alone *)

(** A loop over the values of a dict keeps the keys and their order, and
    relates each value to the one it leaves by any reflexive relation that
    the body respects. *)
Lemma for_each_value_Forall2 {S V} (Rv : V → V → Prop)
    (body : S * V → result (S * V)) d s :
  (∀ v, Rv v v) →
  (∀ s v, Rv v (state_of (body (s, v))).2) →
  Forall2 (λ kv kv', kv'.1 = kv.1 ∧ Rv kv.2 kv'.2)
    d (state_of (for_each_value body d s)).2.
Proof.
  intros Hrefl Hbody. revert s.
  induction d as [| [k v] d IH]; intros s; simpl; [constructor |].
  specialize (Hbody s v).
  destruct (body (s, v)) as [[s1 v1] | e [s1 v1]]; simpl in *.
  - specialize (IH s1).
    destruct (for_each_value body d s1) as [[s2 d2] | e [s2 d2]]; simpl in *;
      by constructor.
  - constructor; [done |]. apply Forall_Forall2_diag, Forall_true. by intros [].
Qed.

(** *** Extension discovery *)

#[global] Instance extensions_grown_preorder : PreOrder extensions_grown.
Proof.
  split.
  - intros p. split; [by destruct p | done].
  - intros p1 p2 p3 [H12 Hs12] [H23 Hs23]. split; [| by etrans].
    rewrite H23, H12. by destruct p1.
Qed.

Lemma fetch_one_extension_grows fs entry st :
  on_snd extensions_grown st (state_of (fetch_one_extension fs entry st)).
Proof.
  destruct entry as [ext_id ext_set]. destruct st as [exts p].
  unfold on_snd, fetch_one_extension, attempt.
  repeat (case_match; try reflexivity); simpl;
    (split; [by destruct p | simpl; set_solver]).
Qed.

Lemma fetch_extensions_of_profile_grows fs st :
  extensions_grown st.2 (state_of (fetch_extensions_of_profile fs st)).2.
Proof.
  change (on_snd extensions_grown st
            (state_of (fetch_extensions_of_profile fs st))).
  unfold fetch_extensions_of_profile.
  destruct (negb (is_file fs _)); [reflexivity |].
  destruct (read_json fs _) as [[] | data]; try reflexivity.
  assert (H : ∀ settings,
            on_snd extensions_grown st
              (state_of (_fetch_extensions_from_one_profile fs settings st))).
  { intros settings. unfold _fetch_extensions_from_one_profile.
    destruct (items settings) as [e | entries]; [reflexivity |].
    cbn [attempt].
    apply (for_each_rel (on_snd extensions_grown) false); [| done].
    intros entry st' _. apply fetch_one_extension_grows. }
  destruct (get_with_chained_keys data ["extensions"; "settings"]) eqn:E;
    try reflexivity; rewrite <- E; apply H.
Qed.

(** X13: whatever its outcome, an extension discovery changes nothing of
    the engine but the extension index and the profiles' sets of extension
    identifiers, and from these sets it removes nothing: the user-data
    directory, the bookmark index, the profile identifiers and their order
    and every other field of every profile are as they were, and each set
    contains what it contained. *)
Theorem extension_discovery_only_adds fs self :
  let self' := state_of (fetch_extensions_from_all_profiles fs self) in
  userdata_dir self' = userdata_dir self
  ∧ bookmarks self' = bookmarks self
  ∧ Forall2 (λ kp kp',
               kp'.1 = kp.1
               ∧ kp'.2 = Profile.set_extensions (Profile.extensions kp'.2) kp.2
               ∧ Profile.extensions kp.2 ⊆ Profile.extensions kp'.2)
      (profiles self) (profiles self').
Proof.
  unfold fetch_extensions_from_all_profiles. cbn zeta.
  rewrite state_of_on_state.
  pose proof (for_each_value_Forall2 extensions_grown
                (fetch_extensions_of_profile fs) (profiles self) ∅
                ltac:(reflexivity)
                (λ s v, fetch_extensions_of_profile_grows fs (s, v))) as H.
  cbn [profiles extensions set_extensions] in *.
  destruct (state_of (for_each_value _ _ _)) as [exts' ps']. simpl in *.
  split; [done |]. split; [done |].
  eapply Forall2_impl; [exact H |]. by intros kp kp' (Hk & Hsame & Hsub).
Qed.

(** *** Bookmark discovery *)

#[global] Instance bookmarks_grown_preorder : PreOrder bookmarks_grown.
Proof.
  split.
  - intros p. split; [by destruct p |]. split; [done | by left].
  - intros p1 p2 p3 (H12 & Hs12 & Hf12) (H23 & Hs23 & Hf23).
    split; [| split; [by etrans |]].
    + rewrite H23, H12. by destruct p1.
    + assert (Hdir : Profile.profile_dir p2 = Profile.profile_dir p1)
        by by rewrite H12.
      rewrite Hdir in Hf23. destruct Hf23 as [-> | ->]; [done | by right].
Qed.

Lemma record_bookmark_grows d path_ls st :
  on_snd bookmarks_grown st (state_of (record_bookmark d path_ls st)).
Proof.
  destruct st as [idx p]. unfold on_snd, record_bookmark, attempt.
  repeat (case_match; try reflexivity); simpl;
    (split; [by destruct p | split; [| by left]]); simpl;
    rewrite dom_insert_L; set_solver.
Qed.

Lemma fetch_bookmarks_rec_grows fuel j path_ls st :
  on_snd bookmarks_grown st (state_of (fetch_bookmarks_rec fuel j path_ls st)).
Proof.
  revert j path_ls st.
  induction fuel as [| fuel IH]; intros j path_ls st; [reflexivity |].
  cbn [fetch_bookmarks_rec].
  destruct j as [| | | | | d]; try reflexivity.
  destruct (dget "type" d) as [ty |]; [| reflexivity].
  destruct (is_str ty "url"); [apply record_bookmark_grows |].
  destruct (is_str ty "folder"); [| reflexivity].
  destruct (dget "name" d) as [name |]; [| reflexivity].
  destruct (dget "children" d) as [v |]; [| reflexivity].
  destruct (py_iter v) as [e | children]; [reflexivity |].
  cbn [attempt].
  apply (for_each_rel (on_snd bookmarks_grown) false
           (λ c, fetch_bookmarks_rec fuel c (path_ls ++ [name]))); [| done].
  intros c st' _. apply IH.
Qed.

Lemma walk_bookmark_file_grows fs bookmark_file st :
  on_snd bookmarks_grown st
    (state_of (walk_bookmark_file fs bookmark_file st)).
Proof.
  unfold walk_bookmark_file.
  destruct (read_json fs bookmark_file) as [[] | data]; try reflexivity.
  assert (H : ∀ info,
            on_snd bookmarks_grown st
              (state_of
                 (attempt (items info) st (λ roots,
                    for_each (λ '(bmk_type, bookmark_info),
                                _fetch_bookmarks_from_one_type bookmark_info
                                  [JStr ""]) roots st)))).
  { intros info. destruct (items info) as [e | roots]; cbn [attempt];
      [reflexivity |].
    apply (for_each_rel (on_snd bookmarks_grown) false); [| done].
    intros [k info'] st' _. apply fetch_bookmarks_rec_grows. }
  destruct (get_with_chained_keys data ["roots"]) eqn:E;
    try reflexivity; rewrite <- E; apply H.
Qed.

Lemma fetch_bookmarks_of_profile_grows fs st :
  bookmarks_grown st.2 (state_of (fetch_bookmarks_of_profile fs st)).2.
Proof.
  destruct st as [idx p]. unfold fetch_bookmarks_of_profile.
  destruct (negb (is_file fs _)); [reflexivity |].
  etrans; [| apply (walk_bookmark_file_grows fs _ (idx, _))]. simpl.
  split; [by destruct p |]. split; [done | by right].
Qed.

(** X14: whatever its outcome, a bookmark discovery changes nothing of the
    engine but the bookmark index and, in the profiles, the recorded
    bookmark file and the URL-to-path mapping; it removes no URL from a
    mapping, and the bookmark file of a profile is the one recorded before
    or the file [Bookmarks] of the profile directory. *)
Theorem bookmark_discovery_only_adds fs self :
  let self' := state_of (fetch_bookmarks_from_all_profiles fs self) in
  userdata_dir self' = userdata_dir self
  ∧ extensions self' = extensions self
  ∧ Forall2 (λ kp kp',
               kp'.1 = kp.1
               ∧ kp'.2 = Profile.set_bookmarks (Profile.bookmarks kp'.2)
                           (Profile.set_bookmark_file
                              (Profile.bookmark_file kp'.2) kp.2)
               ∧ dom (Profile.bookmarks kp.2) ⊆ dom (Profile.bookmarks kp'.2)
               ∧ (Profile.bookmark_file kp'.2 = Profile.bookmark_file kp.2
                  ∨ Profile.bookmark_file kp'.2
                    = Profile.profile_dir kp.2 // "Bookmarks"))
      (profiles self) (profiles self').
Proof.
  unfold fetch_bookmarks_from_all_profiles. cbn zeta.
  rewrite state_of_on_state.
  pose proof (for_each_value_Forall2 bookmarks_grown
                (fetch_bookmarks_of_profile fs) (profiles self) ∅
                ltac:(reflexivity)
                (λ s v, fetch_bookmarks_of_profile_grows fs (s, v))) as H.
  cbn [profiles bookmarks set_bookmarks] in *.
  destruct (state_of (for_each_value _ _ _)) as [idx' ps']. simpl in *.
  split; [done |]. split; [done |].
  eapply Forall2_impl; [exact H |]. by intros kp kp' (Hk & Hsame & Hsub).
Qed.

(** ** Entries of the indices *)

(** *** Any property of the steps that recording a bookmark has *)

Section BookmarkDiscoverySteps.
Context (R : bmk_state → bmk_state → Prop) `{!PreOrder R}.
Hypothesis record_rel :
  ∀ d path_ls st, R st (state_of (record_bookmark d path_ls st)).
Hypothesis file_rel :
  ∀ file idx p, R (idx, p) (idx, Profile.set_bookmark_file file p).

Lemma fetch_bookmarks_rec_rel fuel j path_ls st :
  R st (state_of (fetch_bookmarks_rec fuel j path_ls st)).
Proof.
  revert j path_ls st.
  induction fuel as [| fuel IH]; intros j path_ls st; [reflexivity |].
  cbn [fetch_bookmarks_rec].
  destruct j as [| | | | | d]; try reflexivity.
  destruct (dget "type" d) as [ty |]; [| reflexivity].
  destruct (is_str ty "url"); [apply record_rel |].
  destruct (is_str ty "folder"); [| reflexivity].
  destruct (dget "name" d) as [name |]; [| reflexivity].
  destruct (dget "children" d) as [v |]; [| reflexivity].
  destruct (py_iter v) as [e | children]; [reflexivity |].
  cbn [attempt].
  apply (for_each_rel R false
           (λ c, fetch_bookmarks_rec fuel c (path_ls ++ [name]))); [| done].
  intros c st' _. apply IH.
Qed.

Lemma walk_bookmark_file_rel fs bookmark_file st :
  R st (state_of (walk_bookmark_file fs bookmark_file st)).
Proof.
  unfold walk_bookmark_file.
  destruct (read_json fs bookmark_file) as [[] | data]; try reflexivity.
  assert (H : ∀ info,
            R st
              (state_of
                 (attempt (items info) st (λ roots,
                    for_each (λ '(bmk_type, bookmark_info),
                                _fetch_bookmarks_from_one_type bookmark_info
                                  [JStr ""]) roots st)))).
  { intros info. destruct (items info) as [e | roots]; cbn [attempt];
      [reflexivity |].
    apply (for_each_rel R false); [| done].
    intros [k info'] st' _. apply fetch_bookmarks_rec_rel. }
  destruct (get_with_chained_keys data ["roots"]) eqn:E;
    try reflexivity; rewrite <- E; apply H.
Qed.

Lemma fetch_bookmarks_of_profile_rel fs st :
  R st (state_of (fetch_bookmarks_of_profile fs st)).
Proof.
  destruct st as [idx p]. unfold fetch_bookmarks_of_profile.
  destruct (negb (is_file fs _)); [reflexivity |].
  etrans; [apply file_rel | apply walk_bookmark_file_rel].
Qed.

End BookmarkDiscoverySteps.

(** *** Any property of the steps that resolving an extension has *)

Section ExtensionDiscoverySteps.
Context (R : ext_state → ext_state → Prop) `{!PreOrder R}.
Hypothesis one_rel :
  ∀ fs entry st, R st (state_of (fetch_one_extension fs entry st)).

Lemma fetch_extensions_of_profile_rel fs st :
  R st (state_of (fetch_extensions_of_profile fs st)).
Proof.
  unfold fetch_extensions_of_profile.
  destruct (negb (is_file fs _)); [reflexivity |].
  destruct (read_json fs _) as [[] | data]; try reflexivity.
  assert (H : ∀ settings,
            R st (state_of (_fetch_extensions_from_one_profile fs settings st))).
  { intros settings. unfold _fetch_extensions_from_one_profile.
    destruct (items settings) as [e | entries]; [reflexivity |].
    cbn [attempt]. apply (for_each_rel R false); [| done].
    intros entry st' _. apply one_rel. }
  destruct (get_with_chained_keys data ["extensions"; "settings"]) eqn:E;
    try reflexivity; rewrite <- E; apply H.
Qed.

End ExtensionDiscoverySteps.

(** *** The first profile to hold an extension fixes its metadata *)

#[global] Instance same_extension_preorder : PreOrder same_extension.
Proof.
  split.
  - intros ext. by repeat split.
  - intros e1 e2 e3 (I12 & N12 & D12 & C12 & P12) (I23 & N23 & D23 & C23 & P23).
    repeat split; try congruence. by etrans.
Qed.

#[global] Instance extensions_kept_preorder : PreOrder extensions_kept.
Proof.
  split.
  - intros st ext_id ext Hext. by exists ext.
  - intros st1 st2 st3 H12 H23 ext_id ext1 H1.
    destruct (H12 _ _ H1) as (ext2 & H2 & Hsame12).
    destruct (H23 _ _ H2) as (ext3 & H3 & Hsame23).
    exists ext3. split; [done | by etrans].
Qed.

Lemma fetch_one_extension_keeps fs entry st :
  extensions_kept st (state_of (fetch_one_extension fs entry st)).
Proof.
  destruct entry as [ext_id ext_set]. destruct st as [exts p].
  assert (Hgoal : ∀ ext',
            (∀ ext, exts !! ext_id = Some ext → same_extension ext ext') →
            extensions_kept (exts, p)
              (<[ext_id := ext']> exts,
               Profile.set_extensions ({[ext_id]} ∪ Profile.extensions p) p)).
  { intros ext' Hsame e ext He. simpl in *.
    destruct (decide (e = ext_id)) as [-> | Hne].
    - rewrite lookup_insert_eq. exists ext'. split; [done | by apply Hsame].
    - rewrite lookup_insert_ne by done. by exists ext. }
  unfold fetch_one_extension, attempt.
  destruct (exts !! ext_id) as [ext |] eqn:Hext.
  { apply Hgoal. intros ? [= <-]. repeat split; try done. simpl. set_solver. }
  repeat (case_match; try reflexivity).
  simpl. by apply Hgoal.
Qed.

(** X15: an extension that is in the index when a profile is visited keeps
    its identifier, name, description and icon, and every profile it had,
    whatever the profile's settings say about it and whatever the outcome:
    the metadata are those resolved for the first profile that held it. *)
Theorem extension_metadata_first_wins fs exts p ext_id ext :
  exts !! ext_id = Some ext →
  let st' := state_of (fetch_extensions_of_profile fs (exts, p)) in
  ∃ ext',
    st'.1 !! ext_id = Some ext'
    ∧ Extension.id ext' = Extension.id ext
    ∧ Extension.name ext' = Extension.name ext
    ∧ Extension.description ext' = Extension.description ext
    ∧ Extension.icon ext' = Extension.icon ext
    ∧ Extension.profiles ext ⊆ Extension.profiles ext'.
Proof.
  intros Hext.
  apply (fetch_extensions_of_profile_rel extensions_kept
           fetch_one_extension_keeps fs (exts, p) ext_id ext Hext).
Qed.

Lemma extension_metadata_first_wins_witness :
  let st' := state_of (fetch_extensions_of_profile fs_shared_extension
                         (extensions engine_extensions, work_profile)) in
  ∃ ext',
    st'.1 !! "abc" = Some ext'
    ∧ Extension.id ext' = "abc"
    ∧ Extension.name ext' = JStr "A"
    ∧ Extension.description ext' = JStr ""
    ∧ Extension.icon ext' = "/ud/Default/Extensions/abc/b.png"
    ∧ {["Default"]} ⊆ Extension.profiles ext'.
Proof.
  refine (extension_metadata_first_wins fs_shared_extension
            (extensions engine_extensions) work_profile "abc"
            (Extension.mk "abc" (JStr "A") (JStr "")
               "/ud/Default/Extensions/abc/b.png" {["Default"]}) _).
  vm_compute. reflexivity.
Defined.

(** *** The first occurrence of a bookmark fixes its name *)

#[global] Instance same_bookmark_preorder : PreOrder same_bookmark.
Proof.
  split.
  - intros b. by repeat split.
  - intros b1 b2 b3 (N12 & U12 & P12) (N23 & U23 & P23).
    repeat split; try congruence. by etrans.
Qed.

#[global] Instance bookmarks_kept_preorder : PreOrder bookmarks_kept.
Proof.
  split.
  - intros st. split; [| done]. intros url b Hb. by exists b.
  - intros st1 st2 st3 [H12 K12] [H23 K23]. split; [| by auto].
    intros url b1 H1.
    destruct (H12 _ _ H1) as (b2 & H2 & Hsame12).
    destruct (H23 _ _ H2) as (b3 & H3 & Hsame23).
    exists b3. split; [done | by etrans].
Qed.

Lemma record_bookmark_keeps d path_ls st :
  bookmarks_kept st (state_of (record_bookmark d path_ls st)).
Proof.
  destruct st as [idx p]. unfold record_bookmark, attempt.
  destruct (dget "url" d) as [url |]; [| reflexivity].
  destruct (join_path path_ls) as [e | path]; [reflexivity |].
  destruct url as [| | | url | |]; try reflexivity.
  assert (Hgoal : ∀ b' p',
            Bookmark.url b' = url →
            (∀ b, idx !! url = Some b → same_bookmark b b') →
            bookmarks_kept (idx, p) (<[url := b']> idx, p')).
  { intros b' p' Hurl Hsame. split; simpl.
    - intros u b Hb. destruct (decide (u = url)) as [-> | Hne].
      + rewrite lookup_insert_eq. exists b'. split; [done | by apply Hsame].
      + rewrite lookup_insert_ne by done. by exists b.
    - intros Hkeyed u b. destruct (decide (u = url)) as [-> | Hne].
      + rewrite lookup_insert_eq. by intros [= <-].
      + rewrite lookup_insert_ne by done. apply Hkeyed. }
  cbn. destruct (idx !! url) as [b |] eqn:Hb.
  - simpl.
    destruct (decide (Bookmark.url b = url)) as [Hu | Hu].
    + apply Hgoal; [done |]. intros ? [= <-]. repeat split; try done.
      simpl. rewrite dom_insert_L. set_solver.
    + split; simpl.
      * intros u b0 Hb0. destruct (decide (u = url)) as [-> | Hne].
        -- rewrite lookup_insert_eq. eexists. split; [done |].
           assert (b0 = b) as -> by congruence.
           repeat split; try done. simpl. rewrite dom_insert_L. set_solver.
        -- rewrite lookup_insert_ne by done. by exists b0.
      * intros Hkeyed. by destruct Hu; apply Hkeyed.
  - destruct (dget "name" d) as [name |].
    + simpl. apply Hgoal; [done |]. congruence.
    + split; simpl; [| done]. intros u b Hb'. by exists b.
Qed.

Lemma set_bookmark_file_keeps file idx p :
  bookmarks_kept (idx, p) (idx, Profile.set_bookmark_file file p).
Proof. split; [| done]. intros url b Hb. by exists b. Qed.

(** X16: a bookmark that is in the index when a profile is visited keeps
    its name and URL, and every profile it had, whatever the name the
    profile's file gives it and whatever the outcome: the name is that of
    the first occurrence met. *)
Theorem bookmark_name_first_wins fs idx p url b :
  idx !! url = Some b →
  let st' := state_of (fetch_bookmarks_of_profile fs (idx, p)) in
  ∃ b',
    st'.1 !! url = Some b'
    ∧ Bookmark.name b' = Bookmark.name b
    ∧ Bookmark.url b' = Bookmark.url b
    ∧ dom (Bookmark.profiles b) ⊆ dom (Bookmark.profiles b').
Proof.
  intros Hb.
  apply (fetch_bookmarks_of_profile_rel bookmarks_kept
           record_bookmark_keeps set_bookmark_file_keeps fs (idx, p)); done.
Qed.

Lemma bookmark_name_first_wins_witness :
  let st' := state_of (fetch_bookmarks_of_profile fs_sample
                         (index_renamed, work_profile)) in
  ∃ b',
    st'.1 !! "http://a.example" = Some b'
    ∧ Bookmark.name b' = JStr "first"
    ∧ Bookmark.url b' = "http://a.example"
    ∧ dom ({["Default" := "/Bar"]} : gmap string string)
      ⊆ dom (Bookmark.profiles b').
Proof.
  refine (bookmark_name_first_wins fs_sample index_renamed work_profile
            "http://a.example"
            (Bookmark.mk (JStr "first") "http://a.example"
               {["Default" := "/Bar"]}) _).
  reflexivity.
Defined.

(** *** Entries are filed under their own identity *)

(** X17: the indices are keyed by identity. After an extension discovery,
    whatever its outcome, every extension of the index is filed under its
    own identifier; after a bookmark discovery, whatever its outcome, every
    bookmark of the index is filed under its own URL, and a deletion keeps
    it so. *)
Theorem indices_keyed_by_identity fs self :
  (∀ ext_id ext,
     extensions (state_of (fetch_extensions_from_all_profiles fs self))
       !! ext_id = Some ext →
     Extension.id ext = ext_id)
  ∧ keyed_by_url
      (bookmarks (state_of (fetch_bookmarks_from_all_profiles fs self)))
  ∧ (∀ urls ids,
       keyed_by_url (bookmarks self) →
       keyed_by_url
         (bookmarks
            (state_of (delete_bookmarks_from_profiles urls ids (fs, self))).2)).
Proof.
  split; [| split].
  - set (R := λ exts exts' : gmap string Extension.t,
           ext_good exts → ext_good exts').
    assert (Hpre : PreOrder R).
    { split; [by intros x Hx | intros x y z H1 H2 Hx; by apply H2, H1]. }
    pose proof (for_each_value_rel R false (fetch_extensions_of_profile fs)
                  (profiles self) ∅) as H.
    unfold fetch_extensions_from_all_profiles. cbn zeta.
    rewrite state_of_on_state.
    cbn [profiles extensions set_extensions].
    destruct (state_of (for_each_value _ _ _)) as [exts' ps']. simpl in *.
    intros ext_id ext Hext. eapply H; [| done | | done].
    + intros exts p _.
      by destruct (fetch_extensions_of_profile_sound fs (exts, p))
        as (_ & _ & Hgood & _).
    + by intros ? ?.
  - set (R := λ idx idx' : gmap string Bookmark.t,
           keyed_by_url idx → keyed_by_url idx').
    assert (Hpre : PreOrder R).
    { split; [by intros x Hx | intros x y z H1 H2 Hx; by apply H2, H1]. }
    pose proof (for_each_value_rel R false (fetch_bookmarks_of_profile fs)
                  (profiles self) ∅) as H.
    unfold fetch_bookmarks_from_all_profiles. cbn zeta.
    rewrite state_of_on_state.
    cbn [profiles bookmarks set_bookmarks].
    destruct (state_of (for_each_value _ _ _)) as [idx' ps']. simpl in *.
    apply H; [| done | by intros ? ?].
    intros idx p _.
    pose proof (fetch_bookmarks_of_profile_rel bookmarks_kept
                  record_bookmark_keeps set_bookmark_file_keeps fs (idx, p))
      as [_ Hk].
    exact Hk.
  - intros urls ids Hkeyed url b' Hb'.
    destruct (delete_bookmarks_engine_deleted urls ids fs self)
      as (_ & _ & Hshrunk & _).
    destruct (Hshrunk _ _ Hb') as (b & Hb & _ & Hurl & _).
    rewrite Hurl. by apply Hkeyed.
Qed.

(** ** Profile discovery *)

Lemma make_profile_object root profile_id d :
  make_profile root profile_id (JObj d)
  = inr (discovered_profile root (profile_id, d)).2.
Proof. reflexivity. Qed.

Lemma make_profile_not_object root profile_id info :
  (∀ d, info ≠ JObj d) → make_profile root profile_id info = inl TypeError.
Proof. intros Hno. destruct info; try done. by destruct (Hno d). Qed.

Lemma dset_new {V} k (v : V) (d : list (string * V)) :
  dget k d = None → dset k v d = d ++ [(k, v)].
Proof.
  induction d as [| [k0 v0] d IH]; simpl; [done |].
  destruct (decide (k = k0)); [done |]. intros H. by rewrite IH.
Qed.

(** The loop of profile discovery over entries that are objects. *)
Lemma discover_loop root good rest self :
  NoDup (good.*1) →
  (∀ k, k ∈ good.*1 → k ∉ dkeys (profiles self)) →
  for_each
    (λ '(profile_id, profile_info) self,
       match make_profile root profile_id profile_info with
       | inl e => Raise e self
       | inr profile =>
           Ok (set_profiles (dset profile_id profile (profiles self)) self)
       end)
    (info_entries good ++ rest) self
  = for_each
      (λ '(profile_id, profile_info) self,
         match make_profile root profile_id profile_info with
         | inl e => Raise e self
         | inr profile =>
             Ok (set_profiles (dset profile_id profile (profiles self)) self)
         end)
      rest
      (set_profiles (profiles self ++ (discovered_profile root <$> good)) self).
Proof.
  revert self. induction good as [| [k d] good IH]; intros self Hnd Hnew.
  - simpl. rewrite app_nil_r. by destruct self.
  - simpl in Hnd. apply NoDup_cons in Hnd as [Hk Hnd].
    cbn [info_entries fmap list_fmap app for_each prod_map fst snd id].
    rewrite make_profile_object. cbn [and_then].
    rewrite dset_new by (apply dget_None, Hnew; left).
    unfold info_entries in IH. rewrite IH; [| done |].
    + cbn [profiles set_profiles userdata_dir extensions bookmarks].
      by rewrite <- app_assoc.
    + intros k' Hk'. cbn [profiles set_profiles]. unfold dkeys.
      rewrite fmap_app, not_elem_of_app. split.
      * apply Hnew. by right.
      * simpl. rewrite list_elem_of_singleton. by intros ->.
Qed.

(** What profile discovery does once it has found [info_cache]. *)
Lemma fetch_all_profiles_found fs self data entries :
  let root := py_path (userdata_dir self) in
  is_dir fs root = true →
  fs_files fs !! (root // "Local State") = Some (Json data) →
  get_with_chained_keys data ["profile"; "info_cache"] = JObj entries →
  fetch_all_profiles fs self
  = for_each
      (λ '(profile_id, profile_info) self0,
         match make_profile root profile_id profile_info with
         | inl e => Raise e self0
         | inr profile =>
             Ok (set_profiles (dset profile_id profile (profiles self0)) self0)
         end)
      entries (set_profiles [] self).
Proof.
  intros root Hdir Hfile Hcache. unfold fetch_all_profiles.
  fold root. cbn zeta. rewrite Hdir. cbn [negb].
  assert (His : is_file fs (root // "Local State") = true).
  { apply bool_decide_eq_true. by rewrite Hfile. }
  rewrite His. cbn [negb]. unfold read_json. rewrite Hfile, Hcache. done.
Qed.

(** X18: a profile discovery that finds [info_cache] to be an object of
    objects returns and replaces the engine's profiles. With [root] the
    user-data directory as [pathlib] prints it (no trailing or doubled
    slash, no [.] part), there is one profile per entry, in the order of
    the file, each with the entry's key as identifier, [root] as user-data
    directory, the path of that key under [root] as directory, the names
    the entry gives (the empty string for a missing one), no bookmark file,
    no extension and no bookmark; the profiles known before are gone, and
    the extension and bookmark indices are not touched. *)
Theorem profile_discovery_replaces_profiles fs self data entries :
  let root := py_path (userdata_dir self) in
  is_dir fs root = true →
  fs_files fs !! (root // "Local State") = Some (Json data) →
  get_with_chained_keys data ["profile"; "info_cache"]
  = JObj (info_entries entries) →
  NoDup (entries.*1) →
  fetch_all_profiles fs self
  = Ok (set_profiles (discovered_profile root <$> entries) self).
Proof.
  intros root Hdir Hfile Hcache Hnd.
  rewrite (fetch_all_profiles_found fs self data _ Hdir Hfile Hcache).
  rewrite <- (app_nil_r (info_entries entries)).
  rewrite discover_loop; [done | done |].
  intros k _. apply not_elem_of_nil.
Qed.

Lemma profile_discovery_replaces_profiles_witness :
  fetch_all_profiles fs_sample (ChromInstance_init "/ud/")
  = Ok (set_profiles [("Default", default_profile); ("Work", work_profile)]
          (ChromInstance_init "/ud/")).
Proof.
  apply (profile_discovery_replaces_profiles fs_sample
           (ChromInstance_init "/ud/")
           (local_state ["Default"; "Work"])
           [("Default", [("name", JStr "Default")]);
            ("Work", [("name", JStr "Work")])]).
  - reflexivity.
  - reflexivity.
  - reflexivity.
  - apply (bool_decide_unpack _). vm_compute. exact I.
Defined.

(** X19: an entry of [info_cache] that is not an object makes profile
    discovery raise when the loop reaches it (Python's AttributeError for
    the missing [get]); by then the profiles known before are gone, and the
    engine holds the profiles built for the entries before the faulty one,
    under the user-data directory as [pathlib] prints it. *)
Theorem profile_discovery_fault_loses_profiles
    fs self data good bad_id bad rest :
  let root := py_path (userdata_dir self) in
  is_dir fs root = true →
  fs_files fs !! (root // "Local State") = Some (Json data) →
  get_with_chained_keys data ["profile"; "info_cache"]
  = JObj (info_entries good ++ (bad_id, bad) :: rest) →
  NoDup (good.*1) →
  (∀ d, bad ≠ JObj d) →
  fetch_all_profiles fs self
  = Raise TypeError (set_profiles (discovered_profile root <$> good) self).
Proof.
  intros root Hdir Hfile Hcache Hnd Hbad.
  rewrite (fetch_all_profiles_found fs self data _ Hdir Hfile Hcache).
  rewrite discover_loop; [| done |].
  - cbn [for_each]. by rewrite make_profile_not_object.
  - intros k _. apply not_elem_of_nil.
Qed.

Lemma profile_discovery_fault_loses_profiles_witness :
  fetch_all_profiles fs_broken_profile engine_bookmarks
  = Raise TypeError
      (set_profiles [("Default", default_profile)] engine_bookmarks).
Proof.
  apply (profile_discovery_fault_loses_profiles fs_broken_profile
           engine_bookmarks
           (JObj [("profile",
              JObj [("info_cache",
                     JObj [("Default", JObj [("name", JStr "Default")]);
                           ("Broken", JNum "1");
                           ("Work", JObj [("name", JStr "Work")])])])])
           [("Default", [("name", JStr "Default")])] "Broken" (JNum "1")
           [("Work", JObj [("name", JStr "Work")])]).
  - reflexivity.
  - reflexivity.
  - reflexivity.
  - apply (bool_decide_unpack _). vm_compute. exact I.
  - done.
Defined.

(** ** Resolving an extension *)

(** The steps of [fetch_one_extension] up to the manifest. *)
Lemma fetch_one_extension_located fs ext_id ext_set ext_path exts profile :
  exts !! ext_id = None →
  is_dir fs (Profile.profile_dir profile // "Extensions") = true →
  dget "path" ext_set = Some (JStr ext_path) →
  ext_path ≠ "" →
  fetch_one_extension fs (ext_id, JObj ext_set) (exts, profile)
  = attempt (locate_manifest fs (Profile.profile_dir profile // "Extensions")
               (JObj ext_set) ext_path) (exts, profile)
      (λ found,
         match found with
         | None => Ok (exts, profile)
         | Some (manifest_data, icon_parent_path) =>
             attempt (make_extension fs ext_id (Profile.id profile)
                        manifest_data icon_parent_path) (exts, profile)
               (λ ext, Ok (<[ext_id := ext]> exts,
                           with_extension ext_id profile))
         end).
Proof.
  intros Hnew Hdir Hpath Hne. unfold fetch_one_extension.
  rewrite Hnew, Hdir. simpl. rewrite Hpath. simpl.
  destruct ext_path; done.
Qed.

(** The separators [0x1c]-[0x1f] are no white space for [int] in a label
    of ASCII characters. *)
Example py_int_separator :
  py_int (String (ascii_of_nat 28) "16") = None
  ∧ py_int (String (ascii_of_nat 9) "16 ") = Some 16%Z.
Proof. split; reflexivity. Qed.

(** X20: a size label that [int] rejects stops the discovery. When the
    manifest located for an extension that is not yet in the index lists an
    icon under a label [k] of ASCII characters that [int] rejects
    ([py_int k = None]: not a decimal numeral with an optional sign between
    optional ASCII white space, or one of more than 4300 digits), resolving
    the extension raises [ValueError], and neither the index nor the
    profile has changed. The label is required to be ASCII because
    [py_int] is [int] on such labels only: a label with the digits of
    another script has no value under [py_int] and one under [int]. *)
Theorem icon_label_not_a_number
    fs ext_id ext_set ext_path exts profile manifest_data base icons k :
  exts !! ext_id = None →
  is_dir fs (Profile.profile_dir profile // "Extensions") = true →
  dget "path" ext_set = Some (JStr ext_path) →
  ext_path ≠ "" →
  locate_manifest fs (Profile.profile_dir profile // "Extensions")
    (JObj ext_set) ext_path = inr (Some (manifest_data, base)) →
  dict_get manifest_data "icons" (JObj []) = inr (JObj icons) →
  k ∈ dkeys icons →
  ascii_only k →
  py_int k = None →
  fetch_one_extension fs (ext_id, JObj ext_set) (exts, profile)
  = Raise ValueError (exts, profile).
Proof.
  intros Hnew Hdir Hpath Hne Hfound Hicons Hk _ Hint.
  rewrite (fetch_one_extension_located _ _ _ ext_path) by done.
  rewrite Hfound. cbn [attempt].
  unfold make_extension, resolve_icon, icon_short_path.
  rewrite Hicons. cbn [try_bind]. unfold largest_size_label.
  assert (Hnone : mapM py_int (dkeys icons) = None).
  { apply mapM_None. apply Exists_exists. by exists k. }
  by rewrite Hnone.
Qed.

Lemma icon_label_not_a_number_witness :
  fetch_one_extension fs_sample ("abc", JObj settings_scalable_icon)
    (∅, default_profile)
  = Raise ValueError (∅, default_profile).
Proof.
  apply (icon_label_not_a_number fs_sample "abc" settings_scalable_icon "abc"
           ∅ default_profile
           (JObj [("icons", JObj [("scalable", JStr "a.svg")])])
           "/ud/Default/Extensions/abc"
           [("scalable", JStr "a.svg")] "scalable").
  - reflexivity.
  - reflexivity.
  - reflexivity.
  - done.
  - reflexivity.
  - reflexivity.
  - left.
  - repeat constructor.
  - reflexivity.
Defined.

(** X21: an extension installed from the store. For an identifier that is
    not yet in the index, in a profile whose [Extensions] directory exists,
    whose [path] names nothing by itself but names an entry of that
    directory, the metadata are read from the manifest embedded in the
    settings and no manifest file is read; with no embedded manifest and an
    icon base that is not a regular file, the extension is recorded with an
    empty name, description and icon. *)
Theorem online_install_from_settings fs ext_id ext_set ext_path exts profile :
  exts !! ext_id = None →
  let ext_dir := Profile.profile_dir profile // "Extensions" in
  is_dir fs ext_dir = true →
  dget "path" ext_set = Some (JStr ext_path) →
  ext_path ≠ "" →
  path_exists fs ext_path = false →
  path_exists fs (ext_dir // ext_path) = true →
  let run := fetch_one_extension fs (ext_id, JObj ext_set) (exts, profile) in
  run = online_resolution fs ext_id ext_set (ext_dir // ext_path)
          (exts, profile)
  ∧ (dget "manifest" ext_set = None →
     is_file fs (ext_dir // ext_path) = false →
     run = Ok (<[ext_id := Extension.mk ext_id (JStr "") (JStr "") ""
                             {[Profile.id profile]}]> exts,
               with_extension ext_id profile)).
Proof.
  intros Hnew ext_dir Hdir Hpath Hne Hout Hin run.
  assert (Hrun : run = online_resolution fs ext_id ext_set
                         (ext_dir // ext_path) (exts, profile)).
  { subst run. rewrite (fetch_one_extension_located _ _ _ ext_path) by done.
    fold ext_dir. unfold locate_manifest. rewrite Hout, Hin.
    unfold online_resolution. cbn [dict_get try_bind attempt fst snd].
    by destruct (make_extension _ _ _ _ _). }
  split; [done |].
  intros Hnone Hbase. rewrite Hrun. unfold online_resolution.
  rewrite Hnone. cbn [from_option fst snd].
  unfold make_extension, resolve_icon, icon_short_path. simpl.
  by rewrite path_join_join_empty, Hbase.
Qed.

Lemma online_install_from_settings_witness :
  fetch_one_extension fs_sample ("abc", JObj [("path", JStr "abc")])
    (∅, default_profile)
  = Ok ({["abc" := Extension.mk "abc" (JStr "") (JStr "") "" {["Default"]}]},
        with_extension "abc" default_profile).
Proof.
  apply (online_install_from_settings fs_sample "abc" [("path", JStr "abc")]
           "abc" ∅ default_profile); try reflexivity.
  done.
Defined.
